(** * vic: from a sensor acquisition to a content-addressed CSV dataset

    A shallow embedding of [vic/__init__.py] and [vic/deviceconfig.py],
    followed by the properties of the metadata assembly pipeline:

    - Python values, dictionaries and exceptions ([Py]);
    - the device configuration records and [Device.get_components]
      ([DeviceConfig]);
    - [hashlib.sha256] and [base64.b32encode] ([Sha256], [Base32]);
    - tag events and tag ranges ([AcquisitionInfo]);
    - the output directory, its system calls and their log ([Fs]);
    - [assemble_metadata] itself ([Assembler]). *)

From Stdlib Require Import ZArith List String Ascii Bool Lia.
From Stdlib.Strings Require Import Byte.
From stdpp Require Import base option list strings gmap.

Set Warnings "-register-all".
Local Open Scope string_scope.
Local Open Scope list_scope.
Local Open Scope Z_scope.

(** ** Python values and exceptions *)

Module Py.

(** A Python [float]: a finite binary64 is the dyadic [m * 2^e]. *)
Inductive pyfloat :=
| Finite (m e : Z)
| Inf (negative : bool)
| NaN.

(** The untyped documents the acquisition SDK hands over (parsed JSON).
    A [dict] keeps its insertion order, so it is a list of items. *)
Inductive value :=
| VNone
| VBool (b : bool)
| VInt (n : Z)
| VFloat (f : pyfloat)
| VStr (s : string)
| VList (xs : list value)
| VDict (items : list (string * value)).

Definition dict := list (string * value).

(** [k in d] *)
Definition dict_mem (k : string) (d : dict) : bool :=
  existsb (fun kv => String.eqb (fst kv) k) d.

(** [d.get(k)]: [None] where [d[k]] raises [KeyError]. *)
Fixpoint dict_get (k : string) (d : dict) : option value :=
  match d with
  | [] => None
  | (k', v) :: rest => if String.eqb k' k then Some v else dict_get k rest
  end.

(** [d[k] = v]: an existing key keeps its position, a new one goes last. *)
Fixpoint dict_set (k : string) (v : value) (d : dict) : dict :=
  match d with
  | [] => [(k, v)]
  | (k', v') :: rest =>
      if String.eqb k' k then (k, v) :: rest else (k', v') :: dict_set k v rest
  end.

(** [bool(v)], as an [if] or an [or] tests it. *)
Definition truthy (v : value) : bool :=
  match v with
  | VNone => false
  | VBool b => b
  | VInt n => negb (n =? 0)
  | VFloat (Finite m _) => negb (m =? 0)
  | VFloat _ => true
  | VStr s => negb (String.eqb s "")
  | VList xs => match xs with [] => false | _ => true end
  | VDict items => match items with [] => false | _ => true end
  end.

(** The exceptions the two modules can raise or let through. *)
Inductive error :=
| KeyError (key : string)
| TypeError
| AttributeError
| ValidationError (model : string) (fields : list string)
| AssertionError (line : nat)
| FileNotFoundError
| IsADirectoryError
| NotADirectoryError
| OSError
| MalformedLog
| OutOfFuel.

Inductive result (A : Type) :=
| Ok (a : A)
| Raise (e : error).
Arguments Ok {A} a.
Arguments Raise {A} e.

Definition is_ok {A} (r : result A) : bool :=
  match r with Ok _ => true | Raise _ => false end.

(** Sequencing: an exception skips the rest. *)
#[global] Instance result_bind : MBind result := fun A B k r =>
  match r with
  | Ok a => k a
  | Raise e => Raise e
  end.

#[global] Instance result_ret : MRet result := fun A a => Ok a.

(** A comprehension whose body may raise: the first exception ends it. *)
Fixpoint traverse {A B} (f : A -> result B) (xs : list A) : result (list B) :=
  match xs with
  | [] => Ok []
  | x :: rest => y ← f x; ys ← traverse f rest; Ok (y :: ys)
  end.

End Py.

Import Py.

(** ** vic/deviceconfig.py *)

Module DeviceConfig.

(** What pydantic accepts for a field of a given annotation, and the value
    it stores.  The repository only declares the annotations; the rules are
    the library's, so the model takes them as an interface. *)
Class Pydantic := {
  as_str : value -> option string;
  as_int : value -> option Z;
  as_float : value -> option pyfloat;
  as_bool : value -> option bool;
  as_sequence : value -> option (list value);
}.

(** The conversions that hold in every validation mode: an input that
    already has the annotated type is taken as it is, and an [int] is a
    valid [float]. *)
Definition exact_types : Pydantic := {|
  as_str v := match v with VStr s => Some s | _ => None end;
  as_int v := match v with VInt n => Some n | _ => None end;
  as_float v :=
    match v with
    | VFloat f => Some f
    | VInt n => Some (Finite n 0)
    | _ => None
    end;
  as_bool v := match v with VBool b => Some b | _ => None end;
  as_sequence v := match v with VList xs => Some xs | _ => None end;
|}.

(** [class Component(BaseModel)], [extra="allow"]: the undeclared keys of
    the input are kept in [extra] (pydantic's [model_extra]). *)
Record Component := {
  name : string;
  odr : Z;
  fs : option pyfloat;
  enable : bool;
  samples_per_ts : Z;
  dim : Z;
  ioffset : pyfloat;
  measodr : pyfloat;
  usb_dps : Z;
  sd_dps : Z;
  sensitivity : pyfloat;
  data_type : string;
  sensor_category : Z;
  c_type : Z;
  stream_id : Z;
  ep_id : Z;
  extra : dict;
}.

Definition component_fields : list string :=
  [ "name"; "odr"; "fs"; "enable"; "samples_per_ts"; "dim"; "ioffset";
    "measodr"; "usb_dps"; "sd_dps"; "sensitivity"; "data_type";
    "sensor_category"; "c_type"; "stream_id"; "ep_id" ].

(** [class Device(BaseModel)], [extra="allow"]; [component_data] is read
    from the key [components] (its alias). *)
Record Device := {
  board_id : Z;
  fw_id : Z;
  component_data : list value;
  device_extra : dict;
}.

Definition device_fields : list string := [ "board_id"; "fw_id"; "components" ].

Definition declared (fields : list string) (k : string) : bool :=
  existsb (String.eqb k) fields.

(** The items of the input that no declared field consumes. *)
Definition extras (fields : list string) (d : dict) : dict :=
  List.filter (fun kv => negb (declared fields (fst kv))) d.

Section Validation.
Context `{Pydantic}.

(** A required field: present and accepted by its annotation. *)
Definition required {A} (conv : value -> option A) (k : string) (d : dict)
  : option A :=
  match dict_get k d with
  | Some v => conv v
  | None => None
  end.

(** [fs: Optional[float] = None] *)
Definition optional {A} (conv : value -> option A) (k : string) (d : dict)
  : option (option A) :=
  match dict_get k d with
  | None | Some VNone => Some None
  | Some v => match conv v with Some a => Some (Some a) | None => None end
  end.

Definition component_field_ok (d : dict) (k : string) : bool :=
  if String.eqb k "fs" then bool_decide (is_Some (optional as_float k d))
  else if declared ["name"; "data_type"] k then bool_decide (is_Some (required as_str k d))
  else if String.eqb k "enable" then bool_decide (is_Some (required as_bool k d))
  else if declared ["ioffset"; "measodr"; "sensitivity"] k
       then bool_decide (is_Some (required as_float k d))
  else bool_decide (is_Some (required as_int k d)).

Definition build_component (d : dict) : option Component :=
  v_name ← required as_str "name" d;
  v_odr ← required as_int "odr" d;
  v_fs ← optional as_float "fs" d;
  v_enable ← required as_bool "enable" d;
  v_samples_per_ts ← required as_int "samples_per_ts" d;
  v_dim ← required as_int "dim" d;
  v_ioffset ← required as_float "ioffset" d;
  v_measodr ← required as_float "measodr" d;
  v_usb_dps ← required as_int "usb_dps" d;
  v_sd_dps ← required as_int "sd_dps" d;
  v_sensitivity ← required as_float "sensitivity" d;
  v_data_type ← required as_str "data_type" d;
  v_sensor_category ← required as_int "sensor_category" d;
  v_c_type ← required as_int "c_type" d;
  v_stream_id ← required as_int "stream_id" d;
  v_ep_id ← required as_int "ep_id" d;
  Some {| name := v_name; odr := v_odr; fs := v_fs; enable := v_enable;
          samples_per_ts := v_samples_per_ts; dim := v_dim;
          ioffset := v_ioffset; measodr := v_measodr; usb_dps := v_usb_dps;
          sd_dps := v_sd_dps; sensitivity := v_sensitivity;
          data_type := v_data_type; sensor_category := v_sensor_category;
          c_type := v_c_type; stream_id := v_stream_id; ep_id := v_ep_id;
          extra := extras component_fields d |}.

(** [Component.model_validate(item)] on a [dict]: the error names every
    declared field that is missing or refused. *)
Definition Component_model_validate (d : dict) : result Component :=
  match build_component d with
  | Some c => Ok c
  | None =>
      Raise (ValidationError "Component"
               (List.filter (fun k => negb (component_field_ok d k)) component_fields))
  end.

Definition device_field_ok (d : dict) (k : string) : bool :=
  if String.eqb k "components"
  then bool_decide (is_Some (required as_sequence k d))
  else bool_decide (is_Some (required as_int k d)).

Definition build_device (d : dict) : option Device :=
  v_board_id ← required as_int "board_id" d;
  v_fw_id ← required as_int "fw_id" d;
  v_components ← required as_sequence "components" d;
  Some {| board_id := v_board_id; fw_id := v_fw_id;
          component_data := v_components;
          device_extra := extras device_fields d |}.

(** [Device.model_validate(raw)] on a [dict]. *)
Definition Device_model_validate (d : dict) : result Device :=
  match build_device d with
  | Some dev => Ok dev
  | None =>
      Raise (ValidationError "Device"
               (List.filter (fun k => negb (device_field_ok d k)) device_fields))
  end.

(** [name_mapping(key, mapping_value)]: [mapping_value["name"] = key]
    needs item assignment, which only a [dict] among the values has. *)
Definition name_mapping (key : string) (mapping_value : value) : result dict :=
  match mapping_value with
  | VDict d => Ok (dict_set "name" (VStr key) d)
  | _ => Raise TypeError
  end.

(** [to_named_sequence(mapping)]: [mapping.items()] needs a [dict]; the
    tuple is built whole before any of its items is looked at. *)
Definition to_named_sequence (mapping : value) : result (list dict) :=
  match mapping with
  | VDict items => traverse (fun kv => name_mapping (fst kv) (snd kv)) items
  | _ => Raise AttributeError
  end.

(** The condition of the comprehension:
    ["odr" in item and ((not filter_disabled) or item["enable"])]. *)
Definition selected (filter_disabled : bool) (item : dict) : result bool :=
  if dict_mem "odr" item then
    if negb filter_disabled then Ok true
    else match dict_get "enable" item with
         | Some v => Ok (truthy v)
         | None => Raise (KeyError "enable")
         end
  else Ok false.

(** One round of the inner [for]: test, then validate. *)
Fixpoint components_of_items (filter_disabled : bool) (items : list dict)
  : result (list Component) :=
  match items with
  | [] => Ok []
  | item :: rest =>
      keep ← selected filter_disabled item;
      if (keep : bool) then
        c ← Component_model_validate item;
        cs ← components_of_items filter_disabled rest;
        Ok (c :: cs)
      else components_of_items filter_disabled rest
  end.

(** The outer [for mapping in self.component_data]. *)
Fixpoint components_of_mappings (filter_disabled : bool) (mappings : list value)
  : result (list Component) :=
  match mappings with
  | [] => Ok []
  | mapping :: rest =>
      items ← to_named_sequence mapping;
      cs ← components_of_items filter_disabled items;
      cs' ← components_of_mappings filter_disabled rest;
      Ok (cs ++ cs')
  end.

(** [Device.get_components(self, filter_disabled=True)] *)
Definition get_components (self : Device) (filter_disabled : bool)
  : result (list Component) :=
  components_of_mappings filter_disabled (component_data self).

End Validation.

End DeviceConfig.

(** ** hashlib.sha256 (FIPS 180-4) *)

Module Sha256.

(** 32-bit words are integers in [0, 2^32). *)
Definition wrap (x : Z) : Z := x mod 2 ^ 32.
Definition add32 (x y : Z) : Z := wrap (x + y).
Definition rotr (n x : Z) : Z :=
  Z.lor (Z.shiftr x n) (wrap (Z.shiftl x (32 - n))).
Definition not32 (x : Z) : Z := Z.lxor x 0xffffffff.

Definition Ch (x y z : Z) : Z := Z.lxor (Z.land x y) (Z.land (not32 x) z).
Definition Maj (x y z : Z) : Z :=
  Z.lxor (Z.lxor (Z.land x y) (Z.land x z)) (Z.land y z).
Definition Sigma0 (x : Z) : Z := Z.lxor (Z.lxor (rotr 2 x) (rotr 13 x)) (rotr 22 x).
Definition Sigma1 (x : Z) : Z := Z.lxor (Z.lxor (rotr 6 x) (rotr 11 x)) (rotr 25 x).
Definition sigma0 (x : Z) : Z := Z.lxor (Z.lxor (rotr 7 x) (rotr 18 x)) (Z.shiftr x 3).
Definition sigma1 (x : Z) : Z := Z.lxor (Z.lxor (rotr 17 x) (rotr 19 x)) (Z.shiftr x 10).

(** The largest [r] below [2^bits] with [r^3 <= x], one bit at a time. *)
Fixpoint cube_root (bits : nat) (x r : Z) : Z :=
  match bits with
  | O => r
  | S bits' =>
      let r' := r + 2 ^ Z.of_nat bits' in
      if r' * r' * r' <=? x then cube_root bits' x r' else cube_root bits' x r
  end.

Definition is_prime (p : nat) : bool :=
  forallb (fun d => negb (p mod d =? 0)%nat) (seq 2 (p - 2)).

(** The first sixty-four primes: 2, 3, 5, ..., 311. *)
Definition primes : list Z :=
  map Z.of_nat (List.filter is_prime (seq 2 310)).

(** Section 4.2.2: the first 32 bits of the fractional parts of the cube
    roots of the first sixty-four primes. *)
Definition K : list Z :=
  Eval vm_compute in map (fun p => wrap (cube_root 40 (p * 2 ^ 96) 0)) primes.

(** The eight working variables, also the chaining value. *)
Record regs := Regs { ra : Z; rb : Z; rc : Z; rd : Z; re : Z; rf : Z; rg : Z; rh : Z }.

(** Section 5.3.3: the first 32 bits of the fractional parts of the square
    roots of the first eight primes. *)
Definition H0 : regs :=
  Eval vm_compute in
    match map (fun p => wrap (Z.sqrt (p * 2 ^ 64))) primes with
    | a :: b :: c :: d :: e :: f :: g :: h :: _ => Regs a b c d e f g h
    | _ => Regs 0 0 0 0 0 0 0 0
    end.

Definition byte_to_Z (b : byte) : Z := Z.of_N (Byte.to_N b).

Definition byte_of_Z (z : Z) : byte :=
  match Byte.of_N (Z.to_N (z mod 256)) with
  | Some b => b
  | None => x00
  end.

(** Big-endian integer of a byte string ([int.from_bytes(s)]). *)
Definition from_bytes (bs : list Z) : Z :=
  fold_left (fun acc b => acc * 256 + b) bs 0.

(** The [n] low bytes of [x], most significant first. *)
Fixpoint to_bytes (n : nat) (x : Z) : list Z :=
  match n with
  | O => []
  | S n' => Z.shiftr x (8 * Z.of_nat n') mod 256 :: to_bytes n' x
  end.

(** Cut a string into pieces of [size] items; [fuel] bounds their number. *)
Fixpoint pieces {A} (size fuel : nat) (xs : list A) : list (list A) :=
  match fuel, xs with
  | O, _ | _, [] => []
  | S fuel', _ => firstn size xs :: pieces size fuel' (skipn size xs)
  end.

(** Padding: the bit 1, [k] zero bits, the length in bits on 64 bits. *)
Definition pad (msg : list Z) : list Z :=
  let len := Z.of_nat (length msg) in
  msg ++ [0x80] ++ repeat 0 (Z.to_nat ((55 - len) mod 64))
      ++ to_bytes 8 (8 * len).

(** The message schedule, grown from 16 to 64 words. *)
Fixpoint schedule (n : nat) (w : list Z) : list Z :=
  match n with
  | O => w
  | S n' =>
      let t := length w in
      let at_ (back : nat) := nth (t - back) w 0 in
      schedule n'
        (w ++ [add32 (add32 (add32 (sigma1 (at_ 2%nat)) (at_ 7%nat))
                            (sigma0 (at_ 15%nat))) (at_ 16%nat)])
  end.

Definition round (s : regs) (kw : Z * Z) : regs :=
  let t1 := add32 (add32 (add32 (add32 (rh s) (Sigma1 (re s)))
                                (Ch (re s) (rf s) (rg s))) (fst kw)) (snd kw) in
  let t2 := add32 (Sigma0 (ra s)) (Maj (ra s) (rb s) (rc s)) in
  Regs (add32 t1 t2) (ra s) (rb s) (rc s) (add32 (rd s) t1) (re s) (rf s) (rg s).

Definition compress (h : regs) (block : list Z) : regs :=
  let w := schedule 48 (map from_bytes (pieces 4 16 block)) in
  let s := fold_left round (combine K w) h in
  Regs (add32 (ra h) (ra s)) (add32 (rb h) (rb s)) (add32 (rc h) (rc s))
       (add32 (rd h) (rd s)) (add32 (re h) (re s)) (add32 (rf h) (rf s))
       (add32 (rg h) (rg s)) (add32 (rh h) (rh s)).

Definition hash (msg : list byte) : list byte :=
  let padded := pad (map byte_to_Z msg) in
  let h := fold_left compress (pieces 64 (length padded) padded) H0 in
  map byte_of_Z
    (flat_map (to_bytes 4)
       [ra h; rb h; rc h; rd h; re h; rf h; rg h; rh h]).

(** The hash object: [update] appends, [digest] hashes what was fed. *)
Record hasher := { absorbed : list byte }.

Definition sha256 : hasher := {| absorbed := [] |}.
Definition update (d : hasher) (data : list byte) : hasher :=
  {| absorbed := absorbed d ++ data |}.
Definition digest (d : hasher) : list byte := hash (absorbed d).

End Sha256.

(** ** base64.b32encode, str.lower, str.endswith *)

Module Base32.

Definition alphabet : string := "ABCDEFGHIJKLMNOPQRSTUVWXYZ234567".

(** [_b32alphabet[i]] for [0 <= i < 32]. *)
Definition b32tab (i : Z) : byte :=
  match String.get (Z.to_nat i) alphabet with
  | Some c => byte_of_ascii c
  | None => "A"%byte
  end.

(** [b32tab2[g]]: the two characters of a 10-bit group. *)
Definition b32tab2 (g : Z) : list byte :=
  [b32tab (Z.shiftr g 5); b32tab (Z.land g 31)].

(** One 40-bit quantum gives eight characters. *)
Definition encode_quantum (q : list byte) : list byte :=
  let c := Sha256.from_bytes (map Sha256.byte_to_Z q) in
  b32tab2 (Z.shiftr c 30) ++ b32tab2 (Z.land (Z.shiftr c 20) 0x3ff)
    ++ b32tab2 (Z.land (Z.shiftr c 10) 0x3ff) ++ b32tab2 (Z.land c 0x3ff).

(** [encoded[-n:] = b'=' * n] *)
Definition set_tail (n : nat) (encoded : list byte) : list byte :=
  firstn (length encoded - n) encoded ++ repeat "="%byte n.

Definition b32encode (s : list byte) : list byte :=
  let leftover := (length s mod 5)%nat in
  let s' := if (leftover =? 0)%nat then s
            else s ++ repeat x00 (5 - leftover) in
  let encoded := flat_map encode_quantum (Sha256.pieces 5 (length s') s') in
  match leftover with
  | 1%nat => set_tail 6 encoded
  | 2%nat => set_tail 4 encoded
  | 3%nat => set_tail 3 encoded
  | 4%nat => set_tail 1 encoded
  | _ => encoded
  end.

(** [bytes.decode("utf-8")] on 7-bit bytes, the only ones [b32encode] emits. *)
Definition decode (bs : list byte) : string := string_of_list_byte bs.

Definition lower_ascii (c : ascii) : ascii :=
  let n := nat_of_ascii c in
  if ((65 <=? n) && (n <=? 90))%nat then ascii_of_nat (n + 32) else c.

(** [str.lower] *)
Fixpoint lower (s : string) : string :=
  match s with
  | EmptyString => EmptyString
  | String c rest => String (lower_ascii c) (lower rest)
  end.

(** [s.endswith(suffix)] *)
Definition endswith (s suffix : string) : bool :=
  let n := String.length s in
  let k := String.length suffix in
  ((k <=? n)%nat && String.eqb (substring (n - k) k s) suffix)%bool.

(** [s[:n]] *)
Definition take_str (n : nat) (s : string) : string := substring 0 n s.

End Base32.

(** ** vic/acquisitioninfo.py *)

Module AcquisitionInfo.

Inductive kind := Start | Stop.

(** A tag event of the acquisition log: label, kind, timestamp. *)
Record TagEvent := { ev_label : string; ev_kind : kind; ev_time : Z }.

Record TagRange := { label : string; start_time : Z; end_time : Z }.

(** Modelled from the spec: [TagRange.from_tag_events] lives in
    [vic/acquisitioninfo.py], which is not among the sources.  Per label,
    the timestamp of the most recent unmatched start is kept; a stop for
    that label emits a range and clears it; a stop with nothing pending and
    a start over an unclosed start fail; ranges come out in the order they
    were closed. *)
Fixpoint reconstruct (pending : gmap string Z) (events : list TagEvent)
  : result (list TagRange) :=
  match events with
  | [] => Ok []
  | ev :: rest =>
      match ev_kind ev, pending !! ev_label ev with
      | Start, None => reconstruct (<[ev_label ev := ev_time ev]> pending) rest
      | Start, Some _ => Raise MalformedLog
      | Stop, None => Raise MalformedLog
      | Stop, Some t0 =>
          ranges ← reconstruct (delete (ev_label ev) pending) rest;
          Ok ({| label := ev_label ev; start_time := t0; end_time := ev_time ev |}
                :: ranges)
      end
  end.

Definition from_tag_events (events : list TagEvent) : result (list TagRange) :=
  reconstruct ∅ events.

End AcquisitionInfo.

(** ** Reading of the claims on tag events *)

Module TagSpec.
Import AcquisitionInfo.

Definition kind_eqb (a b : kind) : bool :=
  match a, b with
  | Start, Start | Stop, Stop => true
  | _, _ => false
  end.

(** The kind of the most recent event of a label, if it has any. *)
Definition last_kind (l : string) (seen : list TagEvent) : option kind :=
  fold_left (fun acc ev => if String.eqb (ev_label ev) l then Some (ev_kind ev) else acc)
    seen None.

(** A start of [l] is still unmatched after the events [seen]. *)
Definition pending_start (l : string) (seen : list TagEvent) : bool :=
  match last_kind l seen with
  | Some Start => true
  | _ => false
  end.

(** Each start finds its label closed and each stop finds it open. *)
Fixpoint alternates_from (seen events : list TagEvent) : bool :=
  match events with
  | [] => true
  | ev :: rest =>
      (match ev_kind ev with
       | Start => negb (pending_start (ev_label ev) seen)
       | Stop => pending_start (ev_label ev) seen
       end)
      && alternates_from (seen ++ [ev]) rest
  end.

(** No event is stamped before an earlier one. *)
Fixpoint chronological (events : list TagEvent) : bool :=
  match events with
  | [] => true
  | ev :: rest =>
      forallb (fun ev' => ev_time ev <=? ev_time ev') rest && chronological rest
  end.

(** A log as the acquisition writes it. *)
Definition well_formed (events : list TagEvent) : bool :=
  alternates_from [] events && chronological events.

Definition count_kind (k : kind) (l : string) (events : list TagEvent) : nat :=
  length (List.filter
            (fun ev => String.eqb (ev_label ev) l && kind_eqb (ev_kind ev) k) events).

(** The start/stop pairs of a label that are complete. *)
Definition complete_pairs (l : string) (events : list TagEvent) : nat :=
  Nat.min (count_kind Start l events) (count_kind Stop l events).

Definition ranges_of (l : string) (ranges : list TagRange) : list TagRange :=
  List.filter (fun r => String.eqb (label r) l) ranges.

(** The map of pending starts holds exactly the labels left open. *)
Definition agrees (pending : gmap string Z) (seen : list TagEvent) : Prop :=
  forall l, is_Some (pending !! l) <-> pending_start l seen = true.

(** An event that does not fit what came before it. *)
Definition misplaced (seen : list TagEvent) (ev : TagEvent) : Prop :=
  match ev_kind ev with
  | Start => pending_start (ev_label ev) seen = true
  | Stop => pending_start (ev_label ev) seen = false
  end.

(** Scenario A: start at 0, stop at 10, start at 20, stop at 25. *)
Definition walk_events : list TagEvent :=
  [ {| ev_label := "walk"; ev_kind := Start; ev_time := 0 |};
    {| ev_label := "walk"; ev_kind := Stop; ev_time := 10 |};
    {| ev_label := "walk"; ev_kind := Start; ev_time := 20 |};
    {| ev_label := "walk"; ev_kind := Stop; ev_time := 25 |} ].

Definition walk_ranges : list TagRange :=
  [ {| label := "walk"; start_time := 0; end_time := 10 |};
    {| label := "walk"; start_time := 20; end_time := 25 |} ].

End TagSpec.

(** ** The output directory and the calls made on it *)

Module Fs.

Inductive node :=
| File (content : list byte)
| Dir (entries : list (string * node)).

(** A directory in the order [os.listdir] reports it. *)
Definition directory := list (string * node).

Fixpoint lookup (name : string) (d : directory) : option node :=
  match d with
  | [] => None
  | (n, x) :: rest => if String.eqb n name then Some x else lookup name rest
  end.

Definition names (d : directory) : list string := map fst d.

Definition remove (name : string) (d : directory) : directory :=
  List.filter (fun e => negb (String.eqb (fst e) name)) d.

(** Put [x] under [name], in place when the name exists, last otherwise. *)
Fixpoint store (name : string) (x : node) (d : directory) : directory :=
  match d with
  | [] => [(name, x)]
  | (n, y) :: rest =>
      if String.eqb n name then (name, x) :: rest else (n, y) :: store name x rest
  end.

(** The entry [old] takes the name [new], where it stands. *)
Definition relabel (old new : string) (d : directory) : directory :=
  map (fun e => if String.eqb (fst e) old then (new, snd e) else e) d.

(** [os.rename(old, new)] inside one directory (POSIX): the same name is
    left alone, an existing file is replaced by a file, an empty directory
    by a directory, and nothing else is. *)
Definition rename (old new : string) (d : directory) : result directory :=
  match lookup old d with
  | None => Raise FileNotFoundError
  | Some x =>
      if String.eqb old new then Ok d
      else
        match x, lookup new d with
        | _, None => Ok (relabel old new d)
        | File _, Some (File _) => Ok (relabel old new (remove new d))
        | File _, Some (Dir _) => Raise IsADirectoryError
        | Dir _, Some (File _) => Raise NotADirectoryError
        | Dir _, Some (Dir []) => Ok (relabel old new (remove new d))
        | Dir _, Some (Dir (_ :: _)) => Raise OSError
        end
  end.

(** What a call did, in the order the calls were made.  [Open] records the
    bytes the file held when it was opened; [Checked] that the two
    assertions on the identifier passed. *)
Inductive event :=
| Listdir (folder : option string)
| Open (folder name : string) (content : list byte)
| Read (folder name : string) (chunk : list byte)
| Close (folder name : string)
| Checked (folder name : string) (file_id : string)
| Rename (folder old new : string)
| Write (name : string) (content : list byte).

Record world := { root : directory; log : list event }.

(** A computation on the output directory that may raise. *)
Definition io (A : Type) : Type := world -> world * result A.

#[global] Instance io_ret : MRet io := fun A a w => (w, Ok a).

#[global] Instance io_bind : MBind io := fun A B k m w =>
  match m w with
  | (w', Ok a) => k a w'
  | (w', Raise e) => (w', Raise e)
  end.

Definition raise {A} (e : error) : io A := fun w => (w, Raise e).

Definition lift {A} (r : result A) : io A := fun w => (w, r).

Definition emit (ev : event) : io unit :=
  fun w => ({| root := root w; log := log w ++ [ev] |}, Ok tt).

Definition get_root : io directory := fun w => (w, Ok (root w)).

Definition put_root (d : directory) : io unit :=
  fun w => ({| root := d; log := log w |}, Ok tt).

(** [assert cond], at a line of [vic/__init__.py]. *)
Definition assert (line : nat) (cond : bool) : io unit :=
  if cond then mret tt else raise (AssertionError line).

(** A [for] loop that collects one result per item. *)
Fixpoint for_each {A B} (body : A -> io B) (xs : list A) : io (list B) :=
  match xs with
  | [] => mret []
  | x :: rest => y ← body x; ys ← for_each body rest; mret (y :: ys)
  end.

(** The entries of a subfolder of the output directory. *)
Definition entries_of (folder : string) : io directory :=
  d ← get_root;
  match lookup folder d with
  | Some (Dir es) => mret es
  | Some (File _) => raise NotADirectoryError
  | None => raise FileNotFoundError
  end.

(** [listdir(temp_path_out)] *)
Definition listdir_root : io (list string) :=
  d ← get_root; _ ← emit (Listdir None); mret (names d).

(** [listdir(subfolder)] *)
Definition listdir (folder : string) : io (list string) :=
  es ← entries_of folder; _ ← emit (Listdir (Some folder)); mret (names es).

(** [item.exists() and item.is_dir()] *)
Definition is_dir (name : string) : io bool :=
  d ← get_root;
  mret (match lookup name d with Some (Dir _) => true | _ => false end).

(** [open(file, "rb")]: the handle is the bytes still to be read. *)
Definition open_rb (folder name : string) : io (list byte) :=
  es ← entries_of folder;
  match lookup name es with
  | Some (File content) => _ ← emit (Open folder name content); mret content
  | Some (Dir _) => raise IsADirectoryError
  | None => raise FileNotFoundError
  end.

(** [file.rename(file.with_name(new))] *)
Definition rename_in (folder old new : string) : io unit :=
  es ← entries_of folder;
  es' ← lift (rename old new es);
  d ← get_root;
  _ ← put_root (store folder (Dir es') d);
  emit (Rename folder old new).

(** [open(temp_path_out / name, "wt")] then [write], lines 223-224 taken
    as one step that ends with the text in the file; an error between the
    opening and the end of the writing is not modelled. *)
Definition write_text (name : string) (content : list byte) : io unit :=
  d ← get_root;
  match lookup name d with
  | Some (Dir _) => raise IsADirectoryError
  | _ => _ ← put_root (store name (File content) d); emit (Write name content)
  end.

End Fs.

(** ** vic/__init__.py *)

Module Assembler.
Import AcquisitionInfo Fs.

Definition DIGEST_READ_BUFFER_LENGTH : nat := 512 * 2 ^ 4.
Definition FILENAME_DIGEST_TRUNCATION_LENGTH : nat := 8.

(** Lines 183: [b32encode(digest.digest()).decode("utf-8").lower()] *)
Definition encode_id (digest : list byte) : string :=
  Base32.lower (Base32.decode (Base32.b32encode digest)).

(** The identifier of a file holding [content]. *)
Definition file_id_of (content : list byte) : string :=
  encode_id (Sha256.hash content).

(** Line 191: [f"{file_id[:8]}.{ext}"] *)
Definition file_name_of (file_id ext : string) : string :=
  String.append (Base32.take_str 8 file_id) (String.append "." ext).

Section Assemble.
(** [Source] and [Device] of [vic/models.py] are carried, never opened. *)
Context {Source Device : Type}.

(** Modelled from the spec: [FileItem], [DataItem] and the dataset model
    are declared in [vic/models.py], which is not among the sources.
    The records hold the keys [assemble_metadata] fills in, and
    validation accepts what it is given there. *)
Record FileItem := {
  id : string;
  relative_path : string;
  type : string;
  extension : string;
}.

Record DataItem := {
  class : string;
  start_time : Z;
  end_time : Z;
  file : FileItem;
  source : Source;
  device : Device;
}.

Record Dataset := {
  name : string;
  description : string;
  dataset_id : string;
  classes : gset string;
  data : list DataItem;
  metadata : dict;
}.

(** What lines 109-141 obtain from the acquisition folder through the
    SDK and the schema models: the validated source and device, the
    tag events, and the labels of [hsd.get_time_tags()]. *)
Record acquisition := {
  acq_source : Source;
  device_valid : Device;
  tag_events : list TagEvent;
  time_tag_labels : list string;
}.

(** [dataset.model_dump_json(indent=2)], as bytes on disk. *)
Variable model_dump_json : Dataset -> list byte.

(** Lines 178-181: read chunks until the empty one. *)
Fixpoint digest_loop (fuel : nat) (folder file : string)
    (file_handle : list byte) (digest : Sha256.hasher) : io Sha256.hasher :=
  match fuel with
  | O => raise OutOfFuel
  | S fuel' =>
      let read_bytes := firstn DIGEST_READ_BUFFER_LENGTH file_handle in
      _ ← emit (Read folder file read_bytes);
      match read_bytes with
      | [] => mret digest
      | _ :: _ =>
          digest_loop fuel' folder file
            (skipn DIGEST_READ_BUFFER_LENGTH file_handle)
            (Sha256.update digest read_bytes)
      end
  end.

(** Lines 175-212: the body of the inner [for]. *)
Definition address_file (acq : acquisition) (folder : string)
    (tag_range : TagRange) (file : string) : io DataItem :=
  file_handle ← open_rb folder file;
  digest ← digest_loop (S (length file_handle)) folder file file_handle Sha256.sha256;
  _ ← emit (Close folder file);
  let file_id := encode_id (Sha256.digest digest) in
  _ ← assert 186 (String.length file_id =? 56)%nat;
  _ ← assert 187 (Base32.endswith file_id "====");
  _ ← emit (Checked folder file file_id);
  let ext := "csv" in
  let file_name := file_name_of file_id ext in
  _ ← rename_in folder file file_name;
  mret {| class := label tag_range;
          start_time := AcquisitionInfo.start_time tag_range;
          end_time := AcquisitionInfo.end_time tag_range;
          file := {| id := file_id;
                     relative_path :=
                       String.append folder (String.append "/" file_name);
                     type := "text/csv";
                     extension := ext |};
          source := acq_source acq;
          device := device_valid acq |}.

(** Lines 158-212: the body of the outer [for]. *)
Definition process_subfolder (acq : acquisition) (tag_ranges : list TagRange)
    (subfolder : string) : io (list DataItem) :=
  let one_tag_ranges :=
    List.filter (fun r => String.eqb (label r) subfolder) tag_ranges in
  files ← listdir subfolder;
  _ ← assert 170 (forallb (fun f => Base32.endswith f ".csv") files);
  _ ← assert 171 (length files =? length one_tag_ranges)%nat;
  for_each (fun pair => address_file acq subfolder (fst pair) (snd pair))
    (combine one_tag_ranges files).

(** Lines 105-221: everything up to the dataset; [hsd] is the outcome of
    the calls into the SDK and the schema models, [ulid] the fresh
    identifier drawn for this run. *)
Definition build_dataset (hsd : result acquisition) (ulid : string)
  : io Dataset :=
  acq ← lift hsd;
  let tags : gset string := list_to_set (time_tag_labels acq) in
  subfolders ← listdir_root;
  are_dirs ← for_each is_dir subfolders;
  _ ← assert 147 (forallb (fun b => b) are_dirs);
  _ ← assert 148 (bool_decide (list_to_set subfolders = tags));
  tag_ranges ← lift (from_tag_events (tag_events acq));
  data_items ← for_each (process_subfolder acq tag_ranges) subfolders;
  mret {| name := "my converted dataset";
          description := "My dataset description";
          dataset_id := Base32.lower ulid;
          classes := tags;
          data := concat data_items;
          metadata := [] |}.

(** [assemble_metadata(temp_path_in, temp_path_out)] *)
Definition assemble_metadata (hsd : result acquisition) (ulid : string)
  : io unit :=
  dataset ← build_dataset hsd ulid;
  write_text "dataset-meta.json" (model_dump_json dataset).

End Assemble.

Arguments FileItem : clear implicits.
Arguments DataItem : clear implicits.
Arguments Dataset : clear implicits.
Arguments acquisition : clear implicits.

End Assembler.

(** ** Reading of the claims on identifiers *)

Module IdSpec.

(** How many [=] a string ends with. *)
Fixpoint trailing_pad (s : string) : nat :=
  match s with
  | EmptyString => O
  | String c rest =>
      let n := trailing_pad rest in
      if ((n =? String.length rest)%nat && Ascii.eqb c "=")%bool then S n else n
  end.

(** Every character of [s] differs from the padding character. *)
Fixpoint unpadded (s : string) : Prop :=
  match s with
  | EmptyString => True
  | String c rest => Ascii.eqb c "=" = false /\ unpadded rest
  end.

(** A byte that [b32encode] took from its alphabet. *)
Definition from_alphabet (b : byte) : Prop := exists i, b = Base32.b32tab i.

End IdSpec.

(** ** Reading of the claims on the device configuration *)

Module DeviceSpec.
Import DeviceConfig.

(** The truth value of the raw [enable] of an entry, as the comprehension
    tests it; the flag of the validated component is another matter. *)
Definition enabled (item : dict) : bool :=
  match dict_get "enable" item with
  | Some v => truthy v
  | None => false
  end.

(** An entry the normalizer is meant to keep. *)
Definition wanted (filter_disabled : bool) (item : dict) : bool :=
  dict_mem "odr" item && (negb filter_disabled || enabled item).

(** The declared part of an input mapping. *)
Definition restrict (fields : list string) (d : dict) : dict :=
  List.filter (fun kv => declared fields (fst kv)) d.

(** Every entry of every mapping, named, in iteration order. *)
Fixpoint named_items (mappings : list value) : result (list dict) :=
  match mappings with
  | [] => Ok []
  | mapping :: rest =>
      items ← to_named_sequence mapping;
      items' ← named_items rest;
      Ok (items ++ items')
  end.

(** Scenario C: an enabled accelerometer and a [board_info] entry. *)
Definition accelerometer : dict :=
  [ ("odr", VInt 104); ("fs", VFloat (Finite 16 0)); ("enable", VBool true);
    ("samples_per_ts", VInt 1000); ("dim", VInt 3);
    ("ioffset", VFloat (Finite 0 0)); ("measodr", VFloat (Finite 104 0));
    ("usb_dps", VInt 24); ("sd_dps", VInt 2496);
    ("sensitivity", VFloat (Finite 1 (-11))); ("data_type", VStr "int16");
    ("sensor_category", VInt 0); ("c_type", VInt 0); ("stream_id", VInt 1);
    ("ep_id", VInt 0); ("sensor_annotation", VStr "[EXTERN]") ].



(** The entry as [to_named_sequence] hands it to validation. *)
Definition accelerometer_named : dict :=
  dict_set "name" (VStr "accelerometer") accelerometer.

Definition accelerometer_valid : Component :=
  {| name := "accelerometer"; odr := 104; fs := Some (Finite 16 0);
     enable := true; samples_per_ts := 1000; dim := 3;
     ioffset := Finite 0 0; measodr := Finite 104 0; usb_dps := 24;
     sd_dps := 2496; sensitivity := Finite 1 (-11); data_type := "int16";
     sensor_category := 0; c_type := 0; stream_id := 1; ep_id := 0;
     extra := [ ("sensor_annotation", VStr "[EXTERN]") ] |}.

(** An entry with a sampling rate and no [enable] key. *)
Definition no_enable : dict := [ ("odr", VInt 104); ("dim", VInt 3) ].

Definition scenario_no_enable : Device :=
  {| board_id := 14; fw_id := 7;
     component_data := [ VDict [ ("accelerometer", VDict no_enable) ] ];
     device_extra := [] |}.

(** The same record with another [extra]. *)
Definition with_extra (c : Component) (x : dict) : Component :=
  {| name := name c; odr := odr c; fs := fs c; enable := enable c;
     samples_per_ts := samples_per_ts c; dim := dim c; ioffset := ioffset c;
     measodr := measodr c; usb_dps := usb_dps c; sd_dps := sd_dps c;
     sensitivity := sensitivity c; data_type := data_type c;
     sensor_category := sensor_category c; c_type := c_type c;
     stream_id := stream_id c; ep_id := ep_id c; extra := x |}.

Definition with_device_extra (dev : Device) (x : dict) : Device :=
  {| board_id := board_id dev; fw_id := fw_id dev;
     component_data := component_data dev; device_extra := x |}.


End DeviceSpec.

(** ** Reading of the claims on the assembler *)

Module IoSpec.
Import AcquisitionInfo Fs Assembler.

(** Every run of [m] takes a world to one that [R] relates to it. *)
Definition respects (R : world -> world -> Prop) {A} (m : io A) : Prop :=
  forall w w' r, m w = (w', r) -> R w w'.

(** The log only grows, by events that satisfy [P]. *)
Definition grows (P : list event -> Prop) (w w' : world) : Prop :=
  exists t, log w' = log w ++ t /\ P t.

(** Nothing outside the subfolder [folder] changes. *)
Definition frame (folder : string) (w w' : world) : Prop :=
  forall n, n <> folder -> lookup n (root w') = lookup n (root w).

Definition is_write (ev : event) : bool :=
  match ev with Write _ _ => true | _ => false end.

Definition is_rename (ev : event) : bool :=
  match ev with Rename _ _ _ => true | _ => false end.

Definition no_write (t : list event) : Prop :=
  Forall (fun ev => is_write ev = false) t.

Definition no_rename (t : list event) : Prop :=
  Forall (fun ev => is_rename ev = false) t.

(** What the log shows of a file that was digested and checked: opened,
    read chunk after chunk to the empty read, closed, identifier checked. *)
Definition digested (folder file : string) (content : list byte)
    (chunks : list (list byte)) : list event :=
  Open folder file content
    :: map (Read folder file) chunks
    ++ [ Read folder file []; Close folder file;
         Checked folder file (file_id_of content) ].

(** Each rename in [t] comes right after its file was read whole, digested,
    and the identifier found 56 characters long. *)
Definition digest_before_rename (t : list event) : Prop :=
  forall pre post folder old new,
    t = pre ++ Rename folder old new :: post ->
    exists pre0 content chunks,
      pre = pre0 ++ digested folder old content chunks /\
      concat chunks = content /\
      String.length (file_id_of content) = 56%nat /\
      new = file_name_of (file_id_of content) "csv".

Section Items.
Context {Source Device : Type}.

(** The (subfolder, range, file) triples of positional pairing, subfolder
    after subfolder in listing order. *)
Definition pairs_of (d : directory) (tag_ranges : list TagRange)
  : list (string * TagRange * string) :=
  flat_map
    (fun subfolder =>
       match lookup subfolder d with
       | Some (Dir es) =>
           map (fun rf => (subfolder, fst rf, snd rf))
             (combine (TagSpec.ranges_of subfolder tag_ranges) (names es))
       | _ => []
       end)
    (names d).

(** The data item lines 195-209 build for a range and an identifier. *)
Definition item_for (acq : acquisition Source Device) (folder : string)
    (tag_range : TagRange) (file_id : string) : DataItem Source Device :=
  {| class := label tag_range;
     Assembler.start_time := AcquisitionInfo.start_time tag_range;
     Assembler.end_time := AcquisitionInfo.end_time tag_range;
     Assembler.file :=
       {| id := file_id;
          relative_path :=
            String.append folder (String.append "/" (file_name_of file_id "csv"));
          type := "text/csv";
          extension := "csv" |};
     source := acq_source acq;
     device := device_valid acq |}.

(** [item] is the data item of the pair: label and times of the range, a
    file entry for the bytes read from [file], the shared source and device. *)
Definition describes (acq : acquisition Source Device) (t : list event)
    (item : DataItem Source Device) (pair : string * TagRange * string) : Prop :=
  let '(subfolder, tag_range, file) := pair in
  class item = label tag_range /\
  label tag_range = subfolder /\
  Assembler.start_time item = AcquisitionInfo.start_time tag_range /\
  Assembler.end_time item = AcquisitionInfo.end_time tag_range /\
  (exists content,
      In (Open subfolder file content) t /\
      id (Assembler.file item) = file_id_of content) /\
  relative_path (Assembler.file item) =
    String.append subfolder
      (String.append "/" (file_name_of (id (Assembler.file item)) "csv")) /\
  type (Assembler.file item) = "text/csv" /\
  extension (Assembler.file item) = "csv" /\
  source item = acq_source acq /\
  device item = device_valid acq.

(** The item of a pair, built from the bytes its file was found to hold. *)
Definition item_of_pair (acq : acquisition Source Device) (folder : string)
    (t : list event) (item : DataItem Source Device)
    (pair : TagRange * string) : Prop :=
  exists content,
    In (Open folder (snd pair) content) t /\
    item = item_for acq folder (fst pair) (file_id_of content).

(** The short name line 191 derives from the identifier of a data item. *)
Definition name_on_disk (item : DataItem Source Device) : string :=
  file_name_of (id (Assembler.file item)) "csv".

End Items.

(** Scenario A: the label [walk], two segments on disk. *)
Definition segment_0 : list byte := list_byte_of_string "t,x;0,1;".
Definition segment_1 : list byte := list_byte_of_string "t,x;20,3;".

Definition walk_root : directory :=
  [ ("walk", Dir [ ("seg_0.csv", File segment_0); ("seg_1.csv", File segment_1) ]) ].

Definition walk_world : world := {| root := walk_root; log := [] |}.

Definition walk_acquisition : acquisition unit unit :=
  {| acq_source := tt; device_valid := tt;
     tag_events := TagSpec.walk_events;
     time_tag_labels := ["walk"; "walk"] |}.

(** Scenario B: a third file for the same two ranges. *)
Definition crowded_root : directory :=
  [ ("walk", Dir [ ("seg_0.csv", File segment_0); ("seg_1.csv", File segment_1);
                   ("seg_2.csv", File segment_0) ]) ].

Definition crowded_world : world := {| root := crowded_root; log := [] |}.

(** The manifest serializer is the library's; any function will do here. *)
Definition no_dump {Source Device : Type} (ds : Dataset Source Device) : list byte := [].

End IoSpec.

(** ** What a run may do to the output directory *)

Module DirSpec.
Import Fs Assembler.

(** The entries of the output directory other than the manifest. *)
Definition subfolder_names (d : directory) : list string :=
  List.filter (fun n => negb (String.eqb n "dataset-meta.json")) (names d).

(** The output directory lists the same entries, in the same order. *)
Definition keeps_names (w w' : world) : Prop :=
  subfolder_names (root w') = subfolder_names (root w).

(** Every file of a subfolder holds bytes a file of that subfolder held. *)
Definition no_new_bytes (w w' : world) : Prop :=
  forall n es' f c,
    lookup n (root w') = Some (Dir es') ->
    In (f, File c) es' ->
    exists es f0, lookup n (root w) = Some (Dir es) /\ In (f0, File c) es.

(** [content] cut into pieces of [n] bytes, the last one shorter. *)
Fixpoint chunks (fuel n : nat) (content : list byte) : list (list byte) :=
  match fuel, content with
  | S fuel', _ :: _ => firstn n content :: chunks fuel' n (skipn n content)
  | _, _ => []
  end.

Definition chunked (n : nat) (content : list byte) : list (list byte) :=
  chunks (length content) n content.

(** The characters [b32encode(...).lower()] draws from. *)
Definition lower_alphabet : string := "abcdefghijklmnopqrstuvwxyz234567".

Definition in_lower_alphabet (c : ascii) : bool :=
  existsb (Ascii.eqb c) (list_ascii_of_string lower_alphabet).

Fixpoint all_chars (p : ascii -> bool) (s : string) : bool :=
  match s with
  | EmptyString => true
  | String c rest => p c && all_chars p rest
  end.

(** Scenario A, as the manifest is to hold it. *)
Definition walk_dataset (ulid : string) : Dataset unit unit :=
  {| name := "my converted dataset";
     description := "My dataset description";
     dataset_id := Base32.lower ulid;
     classes := list_to_set (time_tag_labels IoSpec.walk_acquisition);
     data :=
       [ IoSpec.item_for IoSpec.walk_acquisition "walk"
           (AcquisitionInfo.Build_TagRange "walk" 0 10) (file_id_of IoSpec.segment_0);
         IoSpec.item_for IoSpec.walk_acquisition "walk"
           (AcquisitionInfo.Build_TagRange "walk" 20 25) (file_id_of IoSpec.segment_1) ];
     metadata := [] |}.



(** An output directory with a stray file beside the subfolder. *)
Definition stray_world : world :=
  {| root := IoSpec.walk_root ++ [ ("notes.txt", File []) ]; log := [] |}.

End DirSpec.

(** ** What the device configuration does beyond the claims *)

Module ConfigSpec.
Import DeviceConfig.

(** An entry as line 34 leaves it: [name] written into the entry itself. *)
Definition named_in_place (key : string) (entry : value) : value :=
  match entry with
  | VDict d => VDict (dict_set "name" (VStr key) d)
  | _ => entry
  end.

(** A mapping of [component_data] after [to_named_sequence] went over it. *)
Definition named_mapping (mapping : value) : value :=
  match mapping with
  | VDict items => VDict (map (fun kv => (fst kv, named_in_place (fst kv) (snd kv))) items)
  | _ => mapping
  end.

Definition with_components (dev : Device) (data : list value) : Device :=
  {| board_id := board_id dev; fw_id := fw_id dev;
     component_data := data; device_extra := device_extra dev |}.

(** The exceptions [get_components] lets through. *)
Definition get_components_error (filter_disabled : bool) (e : error) : Prop :=
  e = AttributeError \/ e = TypeError \/
  (exists fields, e = ValidationError "Component" fields) \/
  (filter_disabled = true /\ e = KeyError "enable").

(** An enabled entry with a sampling rate and nothing else. *)
Definition incomplete : dict := [ ("odr", VInt 104); ("enable", VBool true) ].

Definition scenario_incomplete : Device :=
  {| board_id := 14; fw_id := 7;
     component_data :=
       [ VDict [ ("accelerometer", VDict DeviceSpec.accelerometer);
                 ("gyroscope", VDict incomplete) ] ];
     device_extra := [] |}.

(** Scenario C with a disabled gyroscope beside the accelerometer. *)
Definition gyroscope_off : dict :=
  dict_set "enable" (VBool false) DeviceSpec.accelerometer.

Definition scenario_disabled : Device :=
  {| board_id := 14; fw_id := 7;
     component_data :=
       [ VDict [ ("accelerometer", VDict DeviceSpec.accelerometer);
                 ("gyroscope", VDict gyroscope_off) ] ];
     device_extra := [] |}.

(** How pydantic's default mode reads a [bool] field, as far as the
    examples go: a [bool] as it is, the integers 0 and 1, and the strings
    it lists, in any case; the other annotations as in [exact_types]. *)
Definition lax_bool_of (v : value) : option bool :=
  match v with
  | VBool b => Some b
  | VInt n => if n =? 0 then Some false else if n =? 1 then Some true else None
  | VStr s =>
      if existsb (String.eqb (Base32.lower s)) ["0"; "off"; "f"; "false"; "n"; "no"]
      then Some false
      else if existsb (String.eqb (Base32.lower s)) ["1"; "on"; "t"; "true"; "y"; "yes"]
      then Some true
      else None
  | _ => None
  end.

Definition lax_bool : Pydantic := {|
  as_str := as_str (Pydantic := exact_types);
  as_int := as_int (Pydantic := exact_types);
  as_float := as_float (Pydantic := exact_types);
  as_bool := lax_bool_of;
  as_sequence := as_sequence (Pydantic := exact_types);
|}.

(** The accelerometer of scenario C, its [enable] the string [no]. *)
Definition enable_no : dict :=
  dict_set "enable" (VStr "no") DeviceSpec.accelerometer.

Definition scenario_enable_no : Device :=
  {| board_id := 14; fw_id := 7;
     component_data := [ VDict [ ("accelerometer", VDict enable_no) ] ];
     device_extra := [] |}.

Definition component_enable_no : Component :=
  {| name := "accelerometer"; odr := 104; fs := Some (Finite 16 0);
     enable := false; samples_per_ts := 1000; dim := 3;
     ioffset := Finite 0 0; measodr := Finite 104 0; usb_dps := 24;
     sd_dps := 2496; sensitivity := Finite 1 (-11); data_type := "int16";
     sensor_category := 0; c_type := 0; stream_id := 1; ep_id := 0;
     extra := [ ("sensor_annotation", VStr "[EXTERN]") ] |}.

(** A raw device with a key beyond the declared ones. *)
Definition board : dict :=
  [ ("board_id", VInt 14); ("fw_id", VInt 7);
    ("components", VList [ VDict [ ("accelerometer", VDict DeviceSpec.accelerometer) ] ]);
    ("serial_number", VStr "0042") ].

Definition board_valid : Device :=
  {| board_id := 14; fw_id := 7;
     component_data := [ VDict [ ("accelerometer", VDict DeviceSpec.accelerometer) ] ];
     device_extra := [] |}.

End ConfigSpec.

(** ** The command line: [run] and [dat_to_csv] *)

Module Cli.

(** What [run] raises itself, and what it lets through. *)
Inductive failure :=
| Exception (message : string)
| PathTypeError
| AssertionFailed (line : nat)
| CalledProcessError (returncode : Z)
| LibraryError (what : string).

Inductive outcome (A : Type) :=
| Done (a : A)
| Failed (e : failure).
Arguments Done {A} a.
Arguments Failed {A} e.

(** What happened, in order: a temporary directory was handed out or its
    clean-up began, a call of [copytree] was made (line 94 or line 100),
    the converter exited with a return code, [assemble_metadata] returned. *)
Inductive step :=
| BasicConfig (level : string)
| MadeTemporary (path : string)
| Cleaned (path : string)
| CopyIn (src dst : string)
| Converted (argv : list string) (returncode : Z)
| Assembled (temp_in temp_out : string)
| CopyOut (src dst : string).

(** The machine [run] works on: the file system and the libraries it calls.
    Paths are their [str]. *)
Class System (S : Type) := {
  absolute : string -> string;
  parent : string -> string;
  path_exists : string -> S -> bool;
  path_is_dir : string -> S -> bool;
  basicConfig : string -> S -> S * outcome unit;
  TemporaryDirectory : S -> S * outcome string;
  cleanup : string -> S -> S * outcome unit;
  copytree : string -> string -> S -> S * outcome unit;
  sp_run : list string -> S -> S * outcome Z;
  assemble_metadata : string -> string -> S -> S * outcome unit;
  script : string;
}.

Section Run.
Context {S : Type} `{System S}.

(** A computation on the machine that keeps the list of steps. *)
Definition sys (A : Type) : Type := S * list step -> (S * list step) * outcome A.

#[global] Instance sys_ret : MRet sys := fun A a st => (st, Done a).

#[global] Instance sys_bind : MBind sys := fun A B k m st =>
  match m st with
  | (st', Done a) => k a st'
  | (st', Failed e) => (st', Failed e)
  end.

Definition throw {A} (e : failure) : sys A := fun st => (st, Failed e).

Definition note (ev : step) : sys unit :=
  fun st => ((fst st, snd st ++ [ev]), Done tt).

Definition ask (q : S -> bool) : sys bool :=
  fun st => (st, Done (q (fst st))).

Definition perform {A} (op : S -> S * outcome A) : sys A :=
  fun st => ((fst (op (fst st)), snd st), snd (op (fst st))).

Definition check (line : nat) (cond : bool) : sys unit :=
  if cond then mret tt else throw (AssertionFailed line).

(** [str.upper] *)
Definition upper_ascii (c : ascii) : ascii :=
  let n := nat_of_ascii c in
  if ((97 <=? n) && (n <=? 122))%nat then ascii_of_nat (n - 32) else c.

Fixpoint upper (s : string) : string :=
  match s with
  | EmptyString => EmptyString
  | String c rest => String (upper_ascii c) (upper rest)
  end.

(** [with tmp.TemporaryDirectory() as d: body]: the directory is cleaned up
    however the body ends; an error of the clean-up takes the place of the
    outcome of the body. *)
Definition with_temporary_directory {A} (body : string -> sys A) : sys A :=
  fun st =>
    match (d ← perform TemporaryDirectory; _ ← note (MadeTemporary d); mret d) st with
    | (st1, Failed e) => (st1, Failed e)
    | (st1, Done d) =>
        let '(st2, r) := body d st1 in
        match (_ ← note (Cleaned d); perform (cleanup d)) st2 with
        | (st3, Failed e) => (st3, Failed e)
        | (st3, Done _) => (st3, r)
        end
    end.

(** Lines 231-247: the command line of the converter. *)
Definition converter_argv (temp_path_in temp_path_out : string) : list string :=
  [ "python"; script; "-s"; "all"; "-t"; "-f"; "CSV"; "-o";
    temp_path_out; temp_path_in ].

(** [dat_to_csv(temp_path_in, temp_path_out)]: [check=True] turns a
    return code other than zero into [CalledProcessError]. *)
Definition dat_to_csv (temp_path_in temp_path_out : string) : sys unit :=
  returncode ← perform (sp_run (converter_argv temp_path_in temp_path_out));
  _ ← note (Converted (converter_argv temp_path_in temp_path_out) returncode);
  if returncode =? 0 then mret tt else throw (CalledProcessError returncode).

(** Lines 82-100: the body of the [with]. *)
Definition convert_in_temporary (input_path output_path : string)
    (temp_dir_in temp_dir_out : string) : sys unit :=
  let temp_path_in := absolute temp_dir_in in
  ok_in ← ask (fun s => path_exists temp_path_in s && path_is_dir temp_path_in s);
  _ ← check 84 ok_in;
  let temp_path_out := absolute temp_dir_out in
  ok_out ← ask (fun s => path_exists temp_path_out s && path_is_dir temp_path_out s);
  _ ← check 89 ok_out;
  _ ← note (CopyIn input_path temp_path_in);
  _ ← perform (copytree input_path temp_path_in);
  _ ← dat_to_csv temp_path_in temp_path_out;
  _ ← perform (assemble_metadata temp_path_in temp_path_out);
  _ ← note (Assembled temp_path_in temp_path_out);
  _ ← note (CopyOut temp_path_out output_path);
  perform (copytree temp_path_out output_path).

(** [run(input_dir, output_dir, log_level)]; [output_dir] is [None] when
    the option is not given. *)
Definition run (input_dir : string) (output_dir : option string)
    (log_level : string) : sys unit :=
  _ ← note (BasicConfig (upper log_level));
  _ ← perform (basicConfig (upper log_level));
  let input_path := absolute input_dir in
  input_exists ← ask (path_exists input_path);
  if negb input_exists
  then throw (Exception (String.append "Input dir does not exist: " input_path))
  else
    input_is_dir ← ask (path_is_dir input_path);
    if negb input_is_dir
    then throw (Exception (String.append
                             "Input dir exists but is not a directory: " input_path))
    else
      match output_dir with
      | None => throw PathTypeError
      | Some output_dir =>
          let output_path := absolute output_dir in
          output_exists ← ask (path_exists output_path);
          _ ← (if negb output_exists
               then
                 parent_exists ← ask (path_exists (parent output_path));
                 if negb parent_exists
                 then throw (Exception
                               "Output dir does not exist and neither does the parent")
                 else mret tt
               else
                 output_is_dir ← ask (path_is_dir output_path);
                 if negb output_is_dir
                 then throw (Exception
                               (String.append
                                  "Output dir exists but is not a directory: "
                                  input_path))
                 else mret tt);
          with_temporary_directory (fun temp_dir_in =>
            with_temporary_directory (fun temp_dir_out =>
              convert_in_temporary input_path output_path temp_dir_in temp_dir_out))
      end.

(** The steps of the body of the [with], and how it can have ended. *)
Inductive body_steps (input_path output_path temp_path_in temp_path_out : string)
  : list step -> outcome unit -> Prop :=
| before_copy_in (e : failure) :
    body_steps input_path output_path temp_path_in temp_path_out [] (Failed e)
| before_converter (e : failure) :
    body_steps input_path output_path temp_path_in temp_path_out
      [ CopyIn input_path temp_path_in ] (Failed e)
| before_copy_out (returncode : Z) (e : failure) :
    (returncode <> 0 -> e = CalledProcessError returncode) ->
    body_steps input_path output_path temp_path_in temp_path_out
      [ CopyIn input_path temp_path_in;
        Converted (converter_argv temp_path_in temp_path_out) returncode ]
      (Failed e)
| copied_out (r : outcome unit) :
    body_steps input_path output_path temp_path_in temp_path_out
      [ CopyIn input_path temp_path_in;
        Converted (converter_argv temp_path_in temp_path_out) 0;
        Assembled temp_path_in temp_path_out;
        CopyOut temp_path_out output_path ]
      r.

(** The steps of a whole run: the logging set-up, then either nothing, or
    one or two temporary directories, each cleaned up after what went on
    inside it. *)
Inductive run_steps (input_path : string) (output_dir : option string)
  : list step -> outcome unit -> Prop :=
| refused (level : string) (e : failure) :
    run_steps input_path output_dir [ BasicConfig level ] (Failed e)
| one_directory (level temp_dir_in : string) (e : failure) :
    run_steps input_path output_dir
      [ BasicConfig level; MadeTemporary temp_dir_in; Cleaned temp_dir_in ]
      (Failed e)
| two_directories (level output temp_dir_in temp_dir_out : string)
    (inside : list step) (r0 r : outcome unit) :
    output_dir = Some output ->
    body_steps input_path (absolute output)
      (absolute temp_dir_in) (absolute temp_dir_out) inside r0 ->
    (r = r0 \/ exists e, r = Failed e) ->
    run_steps input_path output_dir
      ([ BasicConfig level; MadeTemporary temp_dir_in; MadeTemporary temp_dir_out ]
         ++ inside ++ [ Cleaned temp_dir_out; Cleaned temp_dir_in ])
      r.

End Run.

(** A machine for the examples: the listed paths are directories, the
    temporary directories are [/tmp/0], [/tmp/1], ..., every call succeeds
    and the converter exits with [returncode]. *)
Definition machine (present : list string) (returncode : Z) : System nat := {|
  absolute p := p;
  parent p := "/";
  path_exists p n :=
    existsb (String.eqb p) present || existsb (String.eqb p) ["/tmp/0"; "/tmp/1"];
  path_is_dir p n :=
    existsb (String.eqb p) present || existsb (String.eqb p) ["/tmp/0"; "/tmp/1"];
  basicConfig level n := (n, Done tt);
  TemporaryDirectory n :=
    (Datatypes.S n, Done (if (n =? 0)%nat then "/tmp/0" else "/tmp/1"));
  cleanup p n := (n, Done tt);
  copytree src dst n := (n, Done tt);
  sp_run argv n := (n, Done returncode);
  assemble_metadata temp_in temp_out n := (n, Done tt);
  script := "hsdatalog_to_unico.py";
|}.

End Cli.


(** * Properties *)

(** ** Sequencing in [result] *)

Lemma result_bind_ok {A B} (m : result A) (k : A -> result B) (b : B) :
  m ≫= k = Ok b -> exists a, m = Ok a /\ k a = Ok b.
Proof. destruct m as [a|e]; simpl; [eauto | discriminate]. Qed.

Lemma result_bind_raise {A B} (m : result A) (k : A -> result B) (e : error) :
  m = Raise e -> m ≫= k = Raise e.
Proof. intros ->. reflexivity. Qed.

Lemma traverse_app {A B} (f : A -> result B) (xs ys : list A) :
  traverse f (xs ++ ys) =
  xs' ← traverse f xs; ys' ← traverse f ys; Ok (xs' ++ ys').
Proof.
  induction xs as [|x xs IH]; simpl.
  - destruct (traverse f ys); reflexivity.
  - destruct (f x) as [y|e]; simpl; [|reflexivity].
    rewrite IH. destruct (traverse f xs) as [xs'|e]; simpl; [|reflexivity].
    destruct (traverse f ys); reflexivity.
Qed.

Lemma Forall2_strengthen {A B} (P : A -> B -> Prop) (Q : B -> Prop)
    (xs : list A) (ys : list B) :
  Forall2 P xs ys -> Forall Q ys -> Forall2 (fun x y => P x y /\ Q y) xs ys.
Proof.
  induction 1 as [|x y xs ys Hxy Hrest IH]; intros Hq; constructor.
  - split; [exact Hxy|]. now apply Forall_cons in Hq.
  - apply IH. now apply Forall_cons in Hq.
Qed.



(** ** Dictionaries *)

Lemma dict_mem_set_ne (k k' : string) (v : value) (d : dict) :
  k <> k' -> dict_mem k (dict_set k' v d) = dict_mem k d.
Proof.
  intros Hne. induction d as [|[k0 v0] d IH]; simpl.
  - destruct (String.eqb_spec k' k); [congruence | reflexivity].
  - destruct (String.eqb_spec k0 k') as [->|Hk]; simpl.
    + destruct (String.eqb_spec k' k); [congruence | reflexivity].
    + now rewrite IH.
Qed.

Lemma dict_get_set_ne (k k' : string) (v : value) (d : dict) :
  k <> k' -> dict_get k (dict_set k' v d) = dict_get k d.
Proof.
  intros Hne. induction d as [|[k0 v0] d IH]; simpl.
  - destruct (String.eqb_spec k' k); [congruence | reflexivity].
  - destruct (String.eqb_spec k0 k') as [->|Hk]; simpl.
    + destruct (String.eqb_spec k' k); [congruence | reflexivity].
    + now rewrite IH.
Qed.

Lemma dict_get_filter (keep : string -> bool) (k : string) (d : dict) :
  keep k = true ->
  dict_get k (List.filter (fun kv => keep (fst kv)) d) = dict_get k d.
Proof.
  intros Hk. induction d as [|[k0 v0] d IH]; simpl; [reflexivity|].
  destruct (String.eqb_spec k0 k) as [->|Hne].
  - rewrite Hk. simpl. now rewrite String.eqb_refl.
  - destruct (keep k0); simpl; [|exact IH].
    destruct (String.eqb_spec k0 k); [congruence | exact IH].
Qed.

(** ** The device configuration *)

Section DeviceConfigProps.
Import DeviceConfig DeviceSpec.
Context `{Pydantic}.

Lemma selected_wanted (fd : bool) (item : dict) (keep : bool) :
  selected fd item = Ok keep -> keep = wanted fd item.
Proof.
  unfold selected, wanted, enabled.
  destruct (dict_mem "odr" item); simpl; [|congruence].
  destruct fd; simpl; [|congruence].
  destruct (dict_get "enable" item); congruence.
Qed.

Lemma selected_skips (fd : bool) (item : dict) :
  dict_mem "odr" item = false -> selected fd item = Ok false.
Proof. unfold selected. now intros ->. Qed.

Lemma selected_no_enable (item : dict) :
  dict_mem "odr" item = true -> dict_get "enable" item = None ->
  selected true item = Raise (KeyError "enable").
Proof. unfold selected. now intros -> ->. Qed.

Lemma components_of_items_app (fd : bool) (xs ys : list dict) :
  components_of_items fd (xs ++ ys) =
  cs ← components_of_items fd xs; cs' ← components_of_items fd ys; Ok (cs ++ cs').
Proof.
  induction xs as [|x xs IH]; simpl.
  - destruct (components_of_items fd ys); reflexivity.
  - destruct (selected fd x) as [[|]|e]; simpl; [| exact IH | reflexivity].
    destruct (Component_model_validate x) as [c|e]; simpl; [|reflexivity].
    rewrite IH. destruct (components_of_items fd xs) as [cs|e]; simpl; [|reflexivity].
    destruct (components_of_items fd ys); reflexivity.
Qed.

Lemma components_of_mappings_app (fd : bool) (xs ys : list value) :
  components_of_mappings fd (xs ++ ys) =
  cs ← components_of_mappings fd xs; cs' ← components_of_mappings fd ys; Ok (cs ++ cs').
Proof.
  induction xs as [|x xs IH]; simpl.
  - destruct (components_of_mappings fd ys); reflexivity.
  - destruct (to_named_sequence x) as [items|e]; simpl; [|reflexivity].
    destruct (components_of_items fd items) as [cs|e]; simpl; [|reflexivity].
    rewrite IH. destruct (components_of_mappings fd xs) as [cs1|e]; simpl; [|reflexivity].
    destruct (components_of_mappings fd ys); simpl; [|reflexivity].
    now rewrite app_assoc.
Qed.

(** What the inner loop returns: the validated wanted items, in order. *)
Lemma components_of_items_spec (fd : bool) (items : list dict) (cs : list Component) :
  components_of_items fd items = Ok cs ->
  Forall2 (fun c item => Component_model_validate item = Ok c)
    cs (List.filter (wanted fd) items).
Proof.
  revert cs. induction items as [|item items IH]; simpl; intros cs Hcs.
  - injection Hcs as <-. constructor.
  - apply result_bind_ok in Hcs as (keep & Hsel & Hcs).
    rewrite <- (selected_wanted _ _ _ Hsel).
    destruct keep.
    + apply result_bind_ok in Hcs as (c & Hc & Hcs).
      apply result_bind_ok in Hcs as (cs' & Hcs' & Hcs).
      injection Hcs as <-. constructor; auto.
    + auto.
Qed.

Lemma components_of_mappings_spec (fd : bool) (mappings : list value)
    (cs : list Component) :
  components_of_mappings fd mappings = Ok cs ->
  exists items, named_items mappings = Ok items /\
    Forall2 (fun c item => Component_model_validate item = Ok c)
      cs (List.filter (wanted fd) items).
Proof.
  revert cs. induction mappings as [|m ms IH]; simpl; intros cs Hcs.
  - injection Hcs as <-. exists []. split; [reflexivity | constructor].
  - apply result_bind_ok in Hcs as (items & Hitems & Hcs).
    apply result_bind_ok in Hcs as (cs1 & Hcs1 & Hcs).
    apply result_bind_ok in Hcs as (cs2 & Hcs2 & Hcs).
    injection Hcs as <-.
    destruct (IH _ Hcs2) as (items' & Hnamed & Hall).
    exists (items ++ items'). rewrite Hitems, Hnamed. split; [reflexivity|].
    rewrite List.filter_app. apply Forall2_app; [|exact Hall].
    now apply components_of_items_spec.
Qed.

(** The name injected into an entry touches neither [odr] nor [enable]. *)
Lemma name_mapping_keeps (key : string) (attrs : dict) :
  exists item, name_mapping key (VDict attrs) = Ok item /\
    dict_mem "odr" item = dict_mem "odr" attrs /\
    dict_get "enable" item = dict_get "enable" attrs.
Proof.
  eexists. split; [reflexivity|]. split.
  - now apply dict_mem_set_ne.
  - now apply dict_get_set_ne.
Qed.

(** An entry without [odr] can be dropped from its mapping. *)
Lemma skip_entry (fd : bool) (pre post : list (string * value))
    (key : string) (attrs : dict) :
  dict_mem "odr" attrs = false ->
  (items ← to_named_sequence (VDict (pre ++ (key, VDict attrs) :: post));
   components_of_items fd items) =
  (items ← to_named_sequence (VDict (pre ++ post));
   components_of_items fd items).
Proof.
  intros Hodr. simpl. rewrite !traverse_app. simpl.
  destruct (traverse _ pre) as [xs|e]; simpl; [|reflexivity].
  destruct (traverse _ post) as [ys|e]; simpl; [|reflexivity].
  rewrite !components_of_items_app. simpl.
  rewrite selected_skips; [reflexivity|].
  now rewrite dict_mem_set_ne.
Qed.

Lemma raise_entry (pre post : list (string * value)) (key : string) (attrs : dict) :
  dict_mem "odr" attrs = true -> dict_get "enable" attrs = None ->
  exists e,
    (items ← to_named_sequence (VDict (pre ++ (key, VDict attrs) :: post));
     components_of_items true items) = Raise e.
Proof.
  intros Hodr Hen. simpl. rewrite traverse_app. simpl.
  destruct (traverse _ pre) as [xs|e]; simpl; [|eauto].
  destruct (traverse _ post) as [ys|e]; simpl; [|eauto].
  rewrite components_of_items_app.
  destruct (components_of_items true xs) as [cs|e]; simpl; [|eauto].
  rewrite selected_no_enable; simpl; eauto.
  - now rewrite dict_mem_set_ne.
  - now rewrite dict_get_set_ne.
Qed.

Lemma mappings_cons (fd : bool) (m : value) (ms : list value) :
  components_of_mappings fd (m :: ms) =
  cs ← (items ← to_named_sequence m; components_of_items fd items);
  cs' ← components_of_mappings fd ms; Ok (cs ++ cs').
Proof.
  simpl. destruct (to_named_sequence m); reflexivity.
Qed.

(** The flag of a validated component is what validation made of [enable]. *)
Lemma validated_flag (d : dict) (c : Component) :
  Component_model_validate d = Ok c ->
  exists v, dict_get "enable" d = Some v /\ as_bool v = Some (enable c).
Proof.
  unfold Component_model_validate.
  destruct (build_component d) as [c'|] eqn:Hb; [|discriminate].
  intros [= <-]. unfold build_component in Hb.
  do 3 (apply bind_Some in Hb as (? & _ & Hb)).
  apply bind_Some in Hb as (v_enable & Henable & Hb).
  repeat (apply bind_Some in Hb as (? & _ & Hb)).
  injection Hb as <-. cbn [enable].
  unfold required in Henable.
  destruct (dict_get "enable" d) as [v|]; [eauto | discriminate].
Qed.

(** C3, as amended: [get_components] returns exactly the validated entries
    that carry [odr] and, unless disabled components are asked for, a raw
    [enable] that is truthy; the flag [enable] of a returned component is
    what validation made of that raw value, so it is true whenever the raw
    value is a [bool] taken as it is.  An entry without [odr] is never in
    the output and can be removed from the raw mapping without changing
    what the call returns or raises. *)
Theorem get_components_keeps_enabled_components :
  (forall (self : Device) (filter_disabled : bool) (out : list Component),
      get_components self filter_disabled = Ok out ->
      exists items,
        named_items (component_data self) = Ok items /\
        Forall2 (fun c item =>
                   Component_model_validate item = Ok c /\
                   dict_mem "odr" item = true /\
                   (filter_disabled = true ->
                    exists v,
                      dict_get "enable" item = Some v /\
                      truthy v = true /\
                      as_bool v = Some (enable c) /\
                      (forall b, v = VBool b -> as_bool (VBool b) = Some b ->
                                 enable c = true)))
          out (List.filter (wanted filter_disabled) items)) /\
  (forall (before after : list value) (pre post : list (string * value))
          (key : string) (attrs : dict) (filter_disabled : bool) (b f e : Z) (x : dict),
      dict_mem "odr" attrs = false ->
      get_components
        {| board_id := b; fw_id := f; device_extra := x;
           component_data :=
             before ++ VDict (pre ++ (key, VDict attrs) :: post) :: after |}
        filter_disabled =
      get_components
        {| board_id := b; fw_id := f; device_extra := x;
           component_data := before ++ VDict (pre ++ post) :: after |}
        filter_disabled).
Proof.
  split.
  - intros self fd out Hout.
    destruct (components_of_mappings_spec _ _ _ Hout) as (items & Hitems & Hall).
    exists items. split; [exact Hitems|].
    assert (Forall2 (fun c item => Component_model_validate item = Ok c /\
                                   wanted fd item = true)
              out (List.filter (wanted fd) items)) as Hboth.
    { apply Forall2_strengthen; [exact Hall|].
      apply List.Forall_forall. intros item Hin.
      now apply List.filter_In in Hin. }
    revert Hboth. apply List.Forall2_impl.
    intros c item [Hvalid Hwanted]. split; [exact Hvalid|].
    unfold wanted, enabled in Hwanted.
    apply andb_prop in Hwanted as [Hodr Hen]. split; [exact Hodr|].
    intros ->. cbn [negb orb] in Hen.
    destruct (validated_flag _ _ Hvalid) as (v & Hv & Hflag).
    rewrite Hv in Hen. exists v. repeat split; try assumption.
    intros b -> Hb. rewrite Hb in Hflag. injection Hflag as <-. exact Hen.
  - intros before after pre post key attrs fd b f _ x Hodr.
    unfold get_components. simpl.
    rewrite !components_of_mappings_app, !mappings_cons.
    now rewrite (skip_entry fd pre post key attrs Hodr).
Qed.

(** C10: with the default filtering, an entry that has [odr] and no
    [enable] makes [get_components] raise. *)
Theorem get_components_raises_without_enable
    (self : Device) (before after : list value)
    (pre post : list (string * value)) (key : string) (attrs : dict) :
  component_data self =
    before ++ VDict (pre ++ (key, VDict attrs) :: post) :: after ->
  dict_mem "odr" attrs = true ->
  dict_get "enable" attrs = None ->
  exists e, get_components self true = Raise e.
Proof.
  intros Hdata Hodr Hen. unfold get_components. rewrite Hdata.
  rewrite components_of_mappings_app, mappings_cons.
  destruct (raise_entry pre post key attrs Hodr Hen) as (e & He).
  rewrite He.
  destruct (components_of_mappings true before) as [cs|e']; simpl; eauto.
Qed.

Lemma required_restrict {A} (conv : value -> option A) (fields : list string)
    (k : string) (d : dict) :
  declared fields k = true ->
  required conv k (restrict fields d) = required conv k d.
Proof.
  intros Hk. unfold required, restrict.
  now rewrite (dict_get_filter (declared fields) k d Hk).
Qed.

Lemma optional_restrict {A} (conv : value -> option A) (fields : list string)
    (k : string) (d : dict) :
  declared fields k = true ->
  optional conv k (restrict fields d) = optional conv k d.
Proof.
  intros Hk. unfold optional, restrict.
  now rewrite (dict_get_filter (declared fields) k d Hk).
Qed.

Lemma extras_keep (fields : list string) (k : string) (d : dict) :
  declared fields k = false -> dict_get k (extras fields d) = dict_get k d.
Proof.
  intros Hk. unfold extras.
  apply (dict_get_filter (fun k => negb (declared fields k))). now rewrite Hk.
Qed.

Ltac next_field d :=
  match goal with
  | |- context [required ?conv ?k d] => destruct (required conv k d); simpl
  | |- context [optional ?conv ?k d] => destruct (optional conv k d); simpl
  end; try discriminate.

Lemma build_component_restrict (d : dict) (c0 : Component) :
  build_component (restrict component_fields d) = Some c0 ->
  build_component d = Some (with_extra c0 (extras component_fields d)).
Proof.
  unfold build_component.
  rewrite !required_restrict, optional_restrict by reflexivity.
  repeat next_field d.
  intros [= <-]. reflexivity.
Qed.

Lemma build_device_restrict (d : dict) (dev0 : Device) :
  build_device (restrict device_fields d) = Some dev0 ->
  build_device d = Some (with_device_extra dev0 (extras device_fields d)).
Proof.
  unfold build_device.
  rewrite !required_restrict by reflexivity.
  repeat next_field d.
  intros [= <-]. reflexivity.
Qed.

(** C9: fields beyond the declared ones never make [Component] or [Device]
    validation fail, and the validated record keeps each of them: when the
    declared part of a mapping validates, the whole mapping validates to
    the same record, whose [extra] holds every undeclared key with its
    value. *)
Theorem extra_fields_are_preserved :
  (forall (d : dict) (c0 : Component),
      Component_model_validate (restrict component_fields d) = Ok c0 ->
      exists c,
        Component_model_validate d = Ok c /\
        c = with_extra c0 (extra c) /\
        forall k v, declared component_fields k = false ->
                    dict_get k d = Some v -> dict_get k (extra c) = Some v) /\
  (forall (d : dict) (dev0 : Device),
      Device_model_validate (restrict device_fields d) = Ok dev0 ->
      exists dev,
        Device_model_validate d = Ok dev /\
        dev = with_device_extra dev0 (device_extra dev) /\
        forall k v, declared device_fields k = false ->
                    dict_get k d = Some v -> dict_get k (device_extra dev) = Some v).
Proof.
  split.
  - intros d c0 Hc0. unfold Component_model_validate in *.
    destruct (build_component (restrict component_fields d)) as [c|] eqn:Hb;
      [|discriminate].
    injection Hc0 as ->.
    rewrite (build_component_restrict _ _ Hb).
    eexists. split; [reflexivity|]. split; [reflexivity|].
    intros k v Hk Hget. simpl. now rewrite extras_keep.
  - intros d dev0 Hdev0. unfold Device_model_validate in *.
    destruct (build_device (restrict device_fields d)) as [dev|] eqn:Hb;
      [|discriminate].
    injection Hdev0 as ->.
    rewrite (build_device_restrict _ _ Hb).
    eexists. split; [reflexivity|]. split; [reflexivity|].
    intros k v Hk Hget. simpl. now rewrite extras_keep.
Qed.

End DeviceConfigProps.

(** A run of C3: the enabled accelerometer is kept, the gyroscope whose
    [enable] is false is not. *)
Lemma get_components_keeps_enabled_components_witness :
  DeviceConfig.get_components (H:=DeviceConfig.exact_types) ConfigSpec.scenario_disabled true
    = Ok [DeviceSpec.accelerometer_valid] /\
  exists items,
    DeviceSpec.named_items (DeviceConfig.component_data ConfigSpec.scenario_disabled)
      = Ok items /\
    Forall2 (fun c item =>
               DeviceConfig.Component_model_validate (H:=DeviceConfig.exact_types) item = Ok c /\
               dict_mem "odr" item = true /\
               (true = true ->
                exists v,
                  dict_get "enable" item = Some v /\
                  truthy v = true /\
                  DeviceConfig.as_bool (Pydantic:=DeviceConfig.exact_types) v
                    = Some (DeviceConfig.enable c) /\
                  (forall b, v = VBool b ->
                             DeviceConfig.as_bool (Pydantic:=DeviceConfig.exact_types) (VBool b)
                               = Some b ->
                             DeviceConfig.enable c = true)))
      [DeviceSpec.accelerometer_valid] (List.filter (DeviceSpec.wanted true) items).
Proof.
  split; [reflexivity|].
  apply (proj1 (get_components_keeps_enabled_components (H:=DeviceConfig.exact_types))
           ConfigSpec.scenario_disabled true).
  reflexivity.
Defined.

(** The claim C3 as it stands fails where the raw [enable] is truthy and
    validates to false: the string [no] passes the default filtering, and
    the component comes back with its flag false. *)
Lemma get_components_keeps_a_component_that_is_not_enabled :
  dict_get "enable" ConfigSpec.enable_no = Some (VStr "no") /\
  truthy (VStr "no") = true /\
  DeviceConfig.get_components (H:=ConfigSpec.lax_bool) ConfigSpec.scenario_enable_no true
    = Ok [ConfigSpec.component_enable_no] /\
  DeviceConfig.enable ConfigSpec.component_enable_no = false.
Proof. repeat split; reflexivity. Qed.

(** A run of C10: the only entry has [odr] and no [enable]. *)
Lemma get_components_raises_without_enable_witness :
  dict_mem "odr" DeviceSpec.no_enable = true /\
  dict_get "enable" DeviceSpec.no_enable = None /\
  exists e,
    DeviceConfig.get_components (H:=DeviceConfig.exact_types)
      DeviceSpec.scenario_no_enable true = Raise e.
Proof.
  split; [reflexivity|]. split; [reflexivity|].
  apply (get_components_raises_without_enable (H:=DeviceConfig.exact_types)
           DeviceSpec.scenario_no_enable [] [] [] [] "accelerometer" DeviceSpec.no_enable);
    reflexivity.
Defined.

(** A run of C9: the accelerometer entry carries [sensor_annotation], the
    raw device [serial_number]. *)
Lemma extra_fields_are_preserved_witness :
  (DeviceConfig.Component_model_validate (H:=DeviceConfig.exact_types)
     (DeviceSpec.restrict DeviceConfig.component_fields DeviceSpec.accelerometer_named)
     = Ok (DeviceSpec.with_extra DeviceSpec.accelerometer_valid []) /\
   exists c,
     DeviceConfig.Component_model_validate (H:=DeviceConfig.exact_types)
       DeviceSpec.accelerometer_named = Ok c /\
     c = DeviceSpec.with_extra (DeviceSpec.with_extra DeviceSpec.accelerometer_valid [])
           (DeviceConfig.extra c) /\
     forall k v, DeviceConfig.declared DeviceConfig.component_fields k = false ->
                 dict_get k DeviceSpec.accelerometer_named = Some v ->
                 dict_get k (DeviceConfig.extra c) = Some v) /\
  (DeviceConfig.Device_model_validate (H:=DeviceConfig.exact_types)
     (DeviceSpec.restrict DeviceConfig.device_fields ConfigSpec.board)
     = Ok ConfigSpec.board_valid /\
   DeviceConfig.Device_model_validate (H:=DeviceConfig.exact_types) ConfigSpec.board
     = Ok (DeviceSpec.with_device_extra ConfigSpec.board_valid
             [ ("serial_number", VStr "0042") ]) /\
   exists dev,
     DeviceConfig.Device_model_validate (H:=DeviceConfig.exact_types) ConfigSpec.board
       = Ok dev /\
     dev = DeviceSpec.with_device_extra ConfigSpec.board_valid
             (DeviceConfig.device_extra dev) /\
     forall k v, DeviceConfig.declared DeviceConfig.device_fields k = false ->
                 dict_get k ConfigSpec.board = Some v ->
                 dict_get k (DeviceConfig.device_extra dev) = Some v).
Proof.
  split.
  - split; [reflexivity|].
    apply (proj1 (extra_fields_are_preserved (H:=DeviceConfig.exact_types))).
    reflexivity.
  - split; [reflexivity|]. split; [reflexivity|].
    apply (proj2 (extra_fields_are_preserved (H:=DeviceConfig.exact_types))).
    reflexivity.
Defined.


(** ** The tag range reconstructor *)

Section TagRanges.
Import AcquisitionInfo TagSpec.

Lemma pending_start_snoc (l : string) (seen : list TagEvent) (ev : TagEvent) :
  pending_start l (seen ++ [ev]) =
  if String.eqb (ev_label ev) l then kind_eqb (ev_kind ev) Start
  else pending_start l seen.
Proof.
  unfold pending_start, last_kind. rewrite fold_left_app. simpl.
  destruct (String.eqb (ev_label ev) l); [|reflexivity].
  now destruct (ev_kind ev).
Qed.

Lemma agrees_empty : agrees ∅ [].
Proof.
  intros l. rewrite lookup_empty. unfold pending_start, last_kind. simpl.
  split; [intros [? ?]|]; discriminate.
Qed.

Lemma agrees_start (pending : gmap string Z) (seen : list TagEvent) (ev : TagEvent) :
  agrees pending seen -> ev_kind ev = Start ->
  agrees (<[ev_label ev := ev_time ev]> pending) (seen ++ [ev]).
Proof.
  intros Hagree Hkind l. rewrite pending_start_snoc, Hkind. simpl.
  destruct (String.eqb_spec (ev_label ev) l) as [<-|Hne].
  - rewrite lookup_insert_eq. split; eauto.
  - rewrite lookup_insert_ne by exact Hne. apply Hagree.
Qed.

Lemma agrees_stop (pending : gmap string Z) (seen : list TagEvent) (ev : TagEvent) :
  agrees pending seen -> ev_kind ev = Stop ->
  agrees (delete (ev_label ev) pending) (seen ++ [ev]).
Proof.
  intros Hagree Hkind l. rewrite pending_start_snoc, Hkind. simpl.
  destruct (String.eqb_spec (ev_label ev) l) as [<-|Hne].
  - rewrite lookup_delete_eq. split; [intros [? ?]|]; discriminate.
  - rewrite lookup_delete_ne by exact Hne. apply Hagree.
Qed.

Lemma agrees_open (pending : gmap string Z) (seen : list TagEvent) (l : string) :
  agrees pending seen -> pending_start l seen = true ->
  exists t0, pending !! l = Some t0.
Proof. intros Hagree Hopen. apply Hagree in Hopen as [t0 Ht0]. eauto. Qed.

Lemma agrees_closed (pending : gmap string Z) (seen : list TagEvent) (l : string) :
  agrees pending seen -> pending_start l seen = false -> pending !! l = None.
Proof.
  intros Hagree Hclosed. destruct (pending !! l) as [t0|] eqn:Hl; [|reflexivity].
  assert (Hopen : pending_start l seen = true) by (apply Hagree; eauto).
  congruence.
Qed.

Lemma reconstruct_misplaced (mid : list TagEvent) :
  forall (pending : gmap string Z) (seen : list TagEvent) (ev : TagEvent)
         (post : list TagEvent),
    agrees pending seen -> misplaced (seen ++ mid) ev ->
    reconstruct pending (mid ++ ev :: post) = Raise MalformedLog.
Proof.
  induction mid as [|m mid IH]; intros pending seen ev post Hagree Hbad.
  - rewrite app_nil_r in Hbad. unfold misplaced in Hbad. simpl.
    destruct (ev_kind ev).
    + destruct (agrees_open _ _ _ Hagree Hbad) as [t0 ->]. reflexivity.
    + now rewrite (agrees_closed _ _ _ Hagree Hbad).
  - simpl.
    replace (seen ++ m :: mid) with ((seen ++ [m]) ++ mid) in Hbad
      by (now rewrite <- app_assoc).
    destruct (ev_kind m) eqn:Hkind, (pending !! ev_label m) eqn:Hl;
      try reflexivity.
    + apply (IH _ (seen ++ [m])); [now apply agrees_start | exact Hbad].
    + rewrite (IH _ (seen ++ [m]));
        [reflexivity | now apply agrees_stop | exact Hbad].
Qed.

Lemma count_kind_cons (k : kind) (l : string) (ev : TagEvent) (evs : list TagEvent) :
  count_kind k l (ev :: evs) =
  ((if String.eqb (ev_label ev) l && kind_eqb (ev_kind ev) k then 1 else 0)
   + count_kind k l evs)%nat.
Proof.
  unfold count_kind. simpl.
  now destruct (String.eqb (ev_label ev) l && kind_eqb (ev_kind ev) k).
Qed.

(** In an alternating log the starts and stops of a label stay level. *)
Lemma alternates_level (evs : list TagEvent) :
  forall (seen : list TagEvent) (l : string),
    alternates_from seen evs = true ->
    if pending_start l seen
    then (count_kind Start l evs <= count_kind Stop l evs <= S (count_kind Start l evs))%nat
    else (count_kind Stop l evs <= count_kind Start l evs <= S (count_kind Stop l evs))%nat.
Proof.
  induction evs as [|ev evs IH]; intros seen l Halt.
  - unfold count_kind. simpl. destruct (pending_start l seen); lia.
  - simpl in Halt. apply andb_prop in Halt as [Hfit Halt].
    specialize (IH _ l Halt). rewrite pending_start_snoc in IH.
    rewrite !count_kind_cons.
    destruct (String.eqb (ev_label ev) l) eqn:Heq; simpl.
    + apply String.eqb_eq in Heq. subst l.
      destruct (ev_kind ev); simpl in *.
      * apply negb_true_iff in Hfit. rewrite Hfit. lia.
      * rewrite Hfit. lia.
    + exact IH.
Qed.

Lemma reconstruct_alternating (evs : list TagEvent) :
  forall (pending : gmap string Z) (seen : list TagEvent),
    agrees pending seen -> alternates_from seen evs = true ->
    exists ranges,
      reconstruct pending evs = Ok ranges /\
      forall l, length (ranges_of l ranges) = count_kind Stop l evs.
Proof.
  induction evs as [|ev evs IH]; intros pending seen Hagree Halt.
  - exists []. split; [reflexivity|]. intros l. reflexivity.
  - simpl in Halt. apply andb_prop in Halt as [Hfit Halt]. simpl.
    destruct (ev_kind ev) eqn:Hkind.
    + apply negb_true_iff in Hfit.
      rewrite (agrees_closed _ _ _ Hagree Hfit).
      destruct (IH _ (seen ++ [ev]) (agrees_start _ _ _ Hagree Hkind) Halt)
        as (ranges & Hrun & Hcount).
      exists ranges. split; [exact Hrun|].
      intros l. rewrite count_kind_cons, Hkind, andb_false_r. apply Hcount.
    + destruct (agrees_open _ _ _ Hagree Hfit) as [t0 Ht0]. rewrite Ht0.
      destruct (IH _ (seen ++ [ev]) (agrees_stop _ _ _ Hagree Hkind) Halt)
        as (ranges & Hrun & Hcount).
      rewrite Hrun. eexists. split; [reflexivity|].
      intros l. rewrite count_kind_cons, Hkind, andb_true_r.
      unfold ranges_of in *. simpl.
      destruct (String.eqb (ev_label ev) l); simpl; now rewrite Hcount.
Qed.

Lemma reconstruct_times (evs : list TagEvent) :
  forall (pending : gmap string Z) (ranges : list TagRange),
    chronological evs = true ->
    (forall l t0, pending !! l = Some t0 ->
                  Forall (fun ev => t0 <= ev_time ev) evs) ->
    reconstruct pending evs = Ok ranges ->
    Forall (fun r => start_time r <= end_time r) ranges.
Proof.
  induction evs as [|ev evs IH]; intros pending ranges Hsorted Hbound Hrun.
  - injection Hrun as <-. constructor.
  - simpl in Hsorted. apply andb_prop in Hsorted as [Hlater Hsorted].
    rewrite forallb_forall in Hlater.
    simpl in Hrun.
    destruct (ev_kind ev), (pending !! ev_label ev) as [t0|] eqn:Hl;
      try discriminate.
    + apply (IH _ _ Hsorted) in Hrun; [exact Hrun|].
      intros l t Hlt.
      destruct (decide (ev_label ev = l)) as [<-|Hne].
      * rewrite lookup_insert_eq in Hlt. injection Hlt as <-.
        apply List.Forall_forall. intros ev' Hin. apply Z.leb_le. now apply Hlater.
      * rewrite lookup_insert_ne in Hlt by exact Hne.
        apply Hbound in Hlt. now apply Forall_cons in Hlt.
    + apply result_bind_ok in Hrun as (rest & Hrest & Hout).
      injection Hout as <-. constructor.
      * simpl. apply Hbound in Hl. now apply Forall_cons in Hl.
      * apply (IH _ _ Hsorted) in Hrest; [exact Hrest|].
        intros l t Hlt.
        destruct (decide (ev_label ev = l)) as [<-|Hne].
        -- now rewrite lookup_delete_eq in Hlt.
        -- rewrite lookup_delete_ne in Hlt by exact Hne.
           apply Hbound in Hlt. now apply Forall_cons in Hlt.
Qed.

(** C6 (on the reconstructor as the specification describes it): a stop
    whose label has no pending start and a start whose label is still open
    make [from_tag_events] fail, wherever they occur; the empty log gives no
    range; a well-formed log gives ranges with [start_time <= end_time], as
    many for each label as it has complete start/stop pairs. *)
Theorem from_tag_events_fails_on_malformed_logs :
  (forall (pre post : list TagEvent) (ev : TagEvent),
      ev_kind ev = Stop -> pending_start (ev_label ev) pre = false ->
      from_tag_events (pre ++ ev :: post) = Raise MalformedLog) /\
  (forall (pre post : list TagEvent) (ev : TagEvent),
      ev_kind ev = Start -> pending_start (ev_label ev) pre = true ->
      from_tag_events (pre ++ ev :: post) = Raise MalformedLog) /\
  from_tag_events [] = Ok [] /\
  (forall events : list TagEvent,
      well_formed events = true ->
      exists ranges,
        from_tag_events events = Ok ranges /\
        Forall (fun r => start_time r <= end_time r) ranges /\
        forall l, length (ranges_of l ranges) = complete_pairs l events).
Proof.
  repeat split.
  - intros pre post ev Hkind Hclosed.
    apply (reconstruct_misplaced pre ∅ []); [exact agrees_empty|].
    unfold misplaced. now rewrite Hkind.
  - intros pre post ev Hkind Hopen.
    apply (reconstruct_misplaced pre ∅ []); [exact agrees_empty|].
    unfold misplaced. now rewrite Hkind.
  - intros events Hwf. apply andb_prop in Hwf as [Halt Hsorted].
    destruct (reconstruct_alternating events ∅ [] agrees_empty Halt)
      as (ranges & Hrun & Hcount).
    exists ranges. split; [exact Hrun|]. split.
    + apply (reconstruct_times events ∅); [exact Hsorted | | exact Hrun].
      intros l t0 Hl. now rewrite lookup_empty in Hl.
    + intros l. rewrite Hcount. unfold complete_pairs.
      pose proof (alternates_level events [] l Halt) as Hlevel.
      simpl in Hlevel. lia.
Qed.

End TagRanges.

(** C6 at work: a stray stop, a doubled start, and the log of scenario A. *)
Lemma from_tag_events_fails_on_malformed_logs_witness :
  (AcquisitionInfo.from_tag_events
     ([] ++ AcquisitionInfo.Build_TagEvent "walk" AcquisitionInfo.Stop 3 :: TagSpec.walk_events)
     = Raise MalformedLog) /\
  (AcquisitionInfo.from_tag_events
     (firstn 1 TagSpec.walk_events
        ++ AcquisitionInfo.Build_TagEvent "walk" AcquisitionInfo.Start 5
        :: skipn 1 TagSpec.walk_events)
     = Raise MalformedLog) /\
  TagSpec.well_formed TagSpec.walk_events = true /\
  exists ranges,
    AcquisitionInfo.from_tag_events TagSpec.walk_events = Ok ranges /\
    Forall (fun r => AcquisitionInfo.start_time r <= AcquisitionInfo.end_time r) ranges /\
    forall l, length (TagSpec.ranges_of l ranges) = TagSpec.complete_pairs l TagSpec.walk_events.
Proof.
  destruct from_tag_events_fails_on_malformed_logs as (Hstop & Hstart & _ & Hwf).
  split; [apply Hstop; reflexivity|].
  split; [apply Hstart; reflexivity|].
  split; [reflexivity|].
  apply Hwf. reflexivity.
Defined.


(** ** The content addresser: digests and identifiers *)

Section Identifiers.
Import Assembler IdSpec.

(** SHA-256 returns eight 32-bit words, that is 32 bytes. *)
Lemma hash_length (msg : list byte) : length (Sha256.hash msg) = 32%nat.
Proof.
  unfold Sha256.hash.
  generalize (fold_left Sha256.compress
                (Sha256.pieces 64 (length (Sha256.pad (map Sha256.byte_to_Z msg)))
                   (Sha256.pad (map Sha256.byte_to_Z msg))) Sha256.H0).
  intros h. rewrite length_map. reflexivity.
Qed.

(** No character of the alphabet is the padding character, in either case. *)
Lemma b32tab_not_pad (i : Z) :
  Ascii.eqb (Base32.lower_ascii (ascii_of_byte (Base32.b32tab i))) "=" = false.
Proof.
  unfold Base32.b32tab. generalize (Z.to_nat i). intros n.
  do 32 (destruct n as [|n]; [reflexivity|]).
  reflexivity.
Qed.

(** *** Strings, one character after the other *)

Lemma decode_app (a b : list byte) :
  Base32.decode (a ++ b) = String.append (Base32.decode a) (Base32.decode b).
Proof.
  unfold Base32.decode, string_of_list_byte.
  induction a as [|x a IH]; simpl; [reflexivity|].
  now rewrite IH.
Qed.

Lemma lower_app (a b : string) :
  Base32.lower (String.append a b) =
  String.append (Base32.lower a) (Base32.lower b).
Proof. induction a as [|c a IH]; simpl; [reflexivity|]. now rewrite IH. Qed.

Lemma decode_length (a : list byte) : String.length (Base32.decode a) = length a.
Proof.
  unfold Base32.decode, string_of_list_byte.
  induction a as [|x a IH]; simpl; [reflexivity|].
  now rewrite IH.
Qed.

Lemma lower_length (a : string) : String.length (Base32.lower a) = String.length a.
Proof. induction a as [|c a IH]; simpl; [reflexivity|]. now rewrite IH. Qed.

Lemma append_length (a b : string) :
  String.length (String.append a b) = (String.length a + String.length b)%nat.
Proof. induction a as [|c a IH]; simpl; [reflexivity|]. now rewrite IH. Qed.

Lemma substring_whole (a : string) : substring 0 (String.length a) a = a.
Proof. induction a as [|c a IH]; simpl; [reflexivity|]. now rewrite IH. Qed.

Lemma substring_skip (a b : string) (n : nat) :
  substring (String.length a) n (String.append a b) = substring 0 n b.
Proof. induction a as [|c a IH]; simpl; [reflexivity | exact IH]. Qed.

Lemma endswith_append (a suffix : string) :
  Base32.endswith (String.append a suffix) suffix = true.
Proof.
  unfold Base32.endswith. rewrite append_length.
  replace (String.length a + String.length suffix - String.length suffix)%nat
    with (String.length a) by lia.
  rewrite substring_skip, substring_whole, String.eqb_refl.
  apply andb_true_iff. split; [|reflexivity]. apply Nat.leb_le. lia.
Qed.

Lemma trailing_pad_append (a : string) :
  a <> EmptyString -> unpadded a ->
  trailing_pad (String.append a "====") = 4%nat.
Proof.
  induction a as [|c a IH]; [congruence|]. intros _ [Hc Ha]. simpl.
  destruct a as [|c' a].
  - simpl. now rewrite Hc.
  - rewrite IH by (congruence || exact Ha).
    simpl String.length. rewrite append_length. simpl.
    replace (String.length a + 4)%nat with (S (S (S (S (String.length a))))) by lia.
    reflexivity.
Qed.

(** *** The base-32 text of a digest *)

Lemma encode_quantum_alphabet (q : list byte) :
  Forall from_alphabet (Base32.encode_quantum q).
Proof.
  unfold Base32.encode_quantum, Base32.b32tab2.
  repeat (apply Forall_cons; split; [eexists; reflexivity|]).
  apply Forall_nil. exact I.
Qed.

Lemma encode_quantum_length (q : list byte) :
  length (Base32.encode_quantum q) = 8%nat.
Proof. reflexivity. Qed.

Lemma quanta_alphabet (qs : list (list byte)) :
  Forall from_alphabet (flat_map Base32.encode_quantum qs).
Proof.
  induction qs as [|q qs IH]; [constructor|].
  cbn [flat_map]. apply Forall_app.
  split; [apply encode_quantum_alphabet | exact IH].
Qed.

Lemma quanta_length (qs : list (list byte)) :
  length (flat_map Base32.encode_quantum qs) = (8 * length qs)%nat.
Proof.
  induction qs as [|q qs IH]; [reflexivity|].
  cbn [flat_map]. rewrite length_app, encode_quantum_length, IH. simpl. lia.
Qed.

Lemma pieces_32 (digest : list byte) :
  length digest = 32%nat ->
  length (Sha256.pieces 5 35 (digest ++ repeat x00 3)) = 7%nat.
Proof.
  intros Hlen.
  do 32 (destruct digest as [|? digest]; [discriminate Hlen|]).
  destruct digest; [reflexivity | discriminate Hlen].
Qed.

(** [b32encode] of 32 bytes: 52 characters of the alphabet, then [====]. *)
Lemma b32encode_32 (digest : list byte) :
  length digest = 32%nat ->
  exists body,
    Base32.b32encode digest = body ++ repeat "="%byte 4 /\
    length body = 52%nat /\ Forall from_alphabet body.
Proof.
  intros Hlen. unfold Base32.b32encode. rewrite Hlen.
  change (32 mod 5)%nat with 2%nat. cbn [Nat.eqb Nat.sub].
  rewrite length_app, Hlen.
  change (32 + length (repeat x00 3))%nat with 35%nat.
  unfold Base32.set_tail.
  pose proof (quanta_length (Sha256.pieces 5 35 (digest ++ repeat x00 3))) as Hq.
  rewrite (pieces_32 _ Hlen) in Hq.
  pose proof (quanta_alphabet (Sha256.pieces 5 35 (digest ++ repeat x00 3))) as Ha.
  revert Hq Ha.
  generalize (flat_map Base32.encode_quantum
                (Sha256.pieces 5 35 (digest ++ repeat x00 3))).
  intros encoded Hq Ha. rewrite Hq.
  exists (firstn 52 encoded). split; [reflexivity|]. split.
  - rewrite length_firstn, Hq. reflexivity.
  - now apply Forall_take.
Qed.

Lemma unpadded_body (body : list byte) :
  Forall from_alphabet body -> unpadded (Base32.lower (Base32.decode body)).
Proof.
  induction 1 as [|b body [i ->] _ IH]; simpl; [exact I|].
  split; [apply b32tab_not_pad | exact IH].
Qed.

(** The shape of the identifier of any 32-byte digest. *)
Lemma encode_id_shape (digest : list byte) :
  length digest = 32%nat ->
  String.length (encode_id digest) = 56%nat /\
  Base32.endswith (encode_id digest) "====" = true /\
  trailing_pad (encode_id digest) = 4%nat.
Proof.
  intros Hlen. unfold encode_id.
  destruct (b32encode_32 digest Hlen) as (body & -> & Hbody & Halpha).
  rewrite decode_app, lower_app.
  change (Base32.lower (Base32.decode (repeat "="%byte 4))) with "====".
  split; [|split].
  - rewrite append_length, lower_length, decode_length, Hbody. reflexivity.
  - apply endswith_append.
  - apply trailing_pad_append; [|now apply unpadded_body].
    intros Hempty. apply (f_equal String.length) in Hempty.
    rewrite lower_length, decode_length, Hbody in Hempty. discriminate.
Qed.


End Identifiers.


(** ** Computations on the output directory *)

Section IoLaws.
Import Fs IoSpec.

Lemma io_bind_run {A B} (m : io A) (k : A -> io B) (w : world) :
  (m ≫= k) w =
  match m w with
  | (w', Ok a) => k a w'
  | (w', Raise e) => (w', Raise e)
  end.
Proof. reflexivity. Qed.

Lemma io_bind_inv {A B} (m : io A) (k : A -> io B) (w w' : world) (r : result B) :
  (m ≫= k) w = (w', r) ->
  (exists w1 a, m w = (w1, Ok a) /\ k a w1 = (w', r)) \/
  (exists e, m w = (w', Raise e) /\ r = Raise e).
Proof.
  rewrite io_bind_run. destruct (m w) as [w1 [a|e]]; intros Hrun.
  - left. eauto.
  - right. injection Hrun as <- <-. eauto.
Qed.

Lemma io_bind_ok {A B} (m : io A) (k : A -> io B) (w w' : world) (b : B) :
  (m ≫= k) w = (w', Ok b) ->
  exists w1 a, m w = (w1, Ok a) /\ k a w1 = (w', Ok b).
Proof.
  intros Hrun. apply io_bind_inv in Hrun as [Hok | (e & _ & Hr)];
    [exact Hok | discriminate].
Qed.

Lemma assert_ok (line : nat) (cond : bool) (w w' : world) (u : unit) :
  assert line cond w = (w', Ok u) -> cond = true /\ w' = w.
Proof. destruct cond; simpl; intros [= <-]; auto. Qed.

Lemma assert_false (line : nat) (w : world) :
  assert line false w = (w, Raise (AssertionError line)).
Proof. reflexivity. Qed.

(** *** Relations that every step keeps *)

Section Respects.
Context (R : world -> world -> Prop) `{!Reflexive R, !Transitive R}.

Lemma respects_ret {A} (a : A) : respects R (mret a : io A).
Proof. intros w w' r [= <- _]. reflexivity. Qed.

Lemma respects_raise {A} (e : error) : respects R (raise e : io A).
Proof. intros w w' r [= <- _]. reflexivity. Qed.

Lemma respects_lift {A} (x : result A) : respects R (lift x).
Proof. intros w w' r [= <- _]. reflexivity. Qed.

Lemma respects_get_root : respects R get_root.
Proof. intros w w' r [= <- _]. reflexivity. Qed.

Lemma respects_assert (line : nat) (cond : bool) : respects R (assert line cond).
Proof. destruct cond; [apply respects_ret | apply respects_raise]. Qed.

Lemma respects_bind {A B} (m : io A) (k : A -> io B) :
  respects R m -> (forall a, respects R (k a)) -> respects R (m ≫= k).
Proof.
  intros Hm Hk w w' r Hrun.
  apply io_bind_inv in Hrun as [(w1 & a & Hm1 & Hk1) | (e & Hm1 & _)].
  - transitivity w1; [exact (Hm _ _ _ Hm1) | exact (Hk _ _ _ _ Hk1)].
  - exact (Hm _ _ _ Hm1).
Qed.

Lemma respects_for_each {A B} (body : A -> io B) (xs : list A) :
  (forall x, respects R (body x)) -> respects R (for_each body xs).
Proof.
  intros Hbody. induction xs as [|x xs IH]; simpl.
  - apply respects_ret.
  - apply respects_bind; [apply Hbody|]. intros y.
    apply respects_bind; [exact IH|]. intros ys. apply respects_ret.
Qed.

Lemma respects_is_dir (name : string) : respects R (is_dir name).
Proof.
  apply respects_bind; [apply respects_get_root|]. intros d. apply respects_ret.
Qed.

Lemma respects_entries_of (folder : string) : respects R (entries_of folder).
Proof.
  apply respects_bind; [apply respects_get_root|]. intros d.
  destruct (lookup folder d) as [[c|es]|];
    [apply respects_raise | apply respects_ret | apply respects_raise].
Qed.

End Respects.

(** *** The log grows *)

Section Grows.
Context (P : list event -> Prop).
Hypothesis P_nil : P [].
Hypothesis P_app : forall t1 t2, P t1 -> P t2 -> P (t1 ++ t2).

#[local] Instance grows_refl : Reflexive (grows P).
Proof. intros w. exists []. now rewrite app_nil_r. Qed.

#[local] Instance grows_trans : Transitive (grows P).
Proof.
  intros w1 w2 w3 (t1 & H1 & P1) (t2 & H2 & P2).
  exists (t1 ++ t2). rewrite H2, H1, app_assoc. auto.
Qed.

Lemma grows_emit (ev : event) : P [ev] -> respects (grows P) (emit ev).
Proof. intros Hev w w' r [= <- _]. exists [ev]. auto. Qed.

Lemma grows_put_root (d : directory) : respects (grows P) (put_root d).
Proof. intros w w' r [= <- _]. exists []. simpl. now rewrite app_nil_r. Qed.

End Grows.

(** *** Other subfolders are left alone *)

Lemma lookup_store_ne (n name : string) (x : node) (d : directory) :
  n <> name -> lookup n (store name x d) = lookup n d.
Proof.
  intros Hne. induction d as [|[m y] d IH]; simpl.
  - destruct (String.eqb_spec name n); [congruence | reflexivity].
  - destruct (String.eqb_spec m name) as [->|Hm]; simpl.
    + destruct (String.eqb_spec name n); [congruence | reflexivity].
    + now rewrite IH.
Qed.

Lemma lookup_store_eq (name : string) (x : node) (d : directory) :
  lookup name (store name x d) = Some x.
Proof.
  induction d as [|[m y] d IH]; simpl.
  - now rewrite String.eqb_refl.
  - destruct (String.eqb_spec m name) as [->|Hm]; simpl.
    + now rewrite String.eqb_refl.
    + destruct (String.eqb_spec m name); [congruence | exact IH].
Qed.

Lemma store_same (name : string) (x : node) (d : directory) :
  lookup name d = Some x -> store name x d = d.
Proof.
  induction d as [|[m y] d IH]; simpl; [discriminate|].
  destruct (String.eqb_spec m name) as [->|Hm].
  - now intros [= ->].
  - intros Hl. now rewrite IH.
Qed.

#[local] Instance frame_refl (folder : string) : Reflexive (frame folder).
Proof. intros w n _. reflexivity. Qed.

#[local] Instance frame_trans (folder : string) : Transitive (frame folder).
Proof.
  intros w1 w2 w3 H12 H23 n Hn. now rewrite (H23 n Hn), (H12 n Hn).
Qed.

Lemma frame_emit (folder : string) (ev : event) : respects (frame folder) (emit ev).
Proof. intros w w' r [= <- _] n _. reflexivity. Qed.

(** *** What each call does *)

Lemma entries_of_run (folder : string) (w : world) :
  entries_of folder w =
  match lookup folder (root w) with
  | Some (Dir es) => (w, Ok es)
  | Some (File _) => (w, Raise NotADirectoryError)
  | None => (w, Raise FileNotFoundError)
  end.
Proof.
  unfold entries_of. rewrite io_bind_run. simpl.
  destruct (lookup folder (root w)) as [[c|es]|]; reflexivity.
Qed.

Lemma listdir_run (folder : string) (w : world) :
  listdir folder w =
  match lookup folder (root w) with
  | Some (Dir es) =>
      ({| root := root w; log := log w ++ [Listdir (Some folder)] |}, Ok (names es))
  | Some (File _) => (w, Raise NotADirectoryError)
  | None => (w, Raise FileNotFoundError)
  end.
Proof.
  unfold listdir. rewrite io_bind_run, entries_of_run.
  destruct (lookup folder (root w)) as [[c|es]|]; reflexivity.
Qed.

Lemma open_rb_run (folder name : string) (w : world) :
  open_rb folder name w =
  match lookup folder (root w) with
  | Some (Dir es) =>
      match lookup name es with
      | Some (File content) =>
          ({| root := root w; log := log w ++ [Open folder name content] |},
           Ok content)
      | Some (Dir _) => (w, Raise IsADirectoryError)
      | None => (w, Raise FileNotFoundError)
      end
  | Some (File _) => (w, Raise NotADirectoryError)
  | None => (w, Raise FileNotFoundError)
  end.
Proof.
  unfold open_rb. rewrite io_bind_run, entries_of_run.
  destruct (lookup folder (root w)) as [[c|es]|]; try reflexivity.
  destruct (lookup name es) as [[c|es']|]; reflexivity.
Qed.

Lemma rename_in_run (folder old new : string) (w : world) :
  rename_in folder old new w =
  match lookup folder (root w) with
  | Some (Dir es) =>
      match rename old new es with
      | Ok es' =>
          ({| root := store folder (Dir es') (root w);
              log := log w ++ [Rename folder old new] |}, Ok tt)
      | Raise e => (w, Raise e)
      end
  | Some (File _) => (w, Raise NotADirectoryError)
  | None => (w, Raise FileNotFoundError)
  end.
Proof.
  unfold rename_in. rewrite io_bind_run, entries_of_run.
  destruct (lookup folder (root w)) as [[c|es]|]; [reflexivity| |reflexivity].
  rewrite io_bind_run. unfold lift.
  destruct (rename old new es) as [es'|e]; reflexivity.
Qed.

Lemma write_text_run (name : string) (content : list byte) (w : world) :
  write_text name content w =
  match lookup name (root w) with
  | Some (Dir _) => (w, Raise IsADirectoryError)
  | _ => ({| root := store name (File content) (root w);
             log := log w ++ [Write name content] |}, Ok tt)
  end.
Proof.
  unfold write_text. rewrite io_bind_run. simpl.
  destruct (lookup name (root w)) as [[c|es]|]; reflexivity.
Qed.

Lemma frame_rename_in (folder old new : string) :
  respects (frame folder) (rename_in folder old new).
Proof.
  intros w w' r. rewrite rename_in_run.
  destruct (lookup folder (root w)) as [[c|es]|];
    try (intros [= <- _] n _; reflexivity).
  destruct (rename old new es) as [es'|e]; intros [= <- _] n Hn;
    [|reflexivity].
  simpl. now apply lookup_store_ne.
Qed.

Lemma frame_open_rb (folder name other : string) :
  respects (frame other) (open_rb folder name).
Proof.
  intros w w' r. rewrite open_rb_run.
  destruct (lookup folder (root w)) as [[c|es]|];
    try (intros [= <- _] n _; reflexivity).
  destruct (lookup name es) as [[c|es']|]; intros [= <- _] n _; reflexivity.
Qed.

Lemma frame_listdir (folder other : string) :
  respects (frame other) (listdir folder).
Proof.
  intros w w' r. rewrite listdir_run.
  destruct (lookup folder (root w)) as [[c|es]|]; intros [= <- _] n _;
    reflexivity.
Qed.

Section GrowsCalls.
Context (P : list event -> Prop).
Hypothesis P_nil : P [].
Hypothesis P_app : forall t1 t2, P t1 -> P t2 -> P (t1 ++ t2).

Lemma grows_same (w : world) : grows P w w.
Proof. exists []. now rewrite app_nil_r. Qed.

Lemma grows_one (w : world) (d : directory) (ev : event) :
  P [ev] -> grows P w {| root := d; log := log w ++ [ev] |}.
Proof. intros Hev. exists [ev]. auto. Qed.

Lemma grows_listdir_root : P [Listdir None] -> respects (grows P) listdir_root.
Proof. intros Hev w w' r [= <- _]. now apply grows_one. Qed.

Lemma grows_listdir (folder : string) :
  P [Listdir (Some folder)] -> respects (grows P) (listdir folder).
Proof.
  intros Hev w w' r. rewrite listdir_run.
  destruct (lookup folder (root w)) as [[c|es]|]; intros [= <- _];
    auto using grows_same, grows_one.
Qed.

Lemma grows_open_rb (folder name : string) :
  (forall content, P [Open folder name content]) ->
  respects (grows P) (open_rb folder name).
Proof.
  intros Hev w w' r. rewrite open_rb_run.
  destruct (lookup folder (root w)) as [[c|es]|];
    try (intros [= <- _]; apply grows_same).
  destruct (lookup name es) as [[c|es']|]; intros [= <- _];
    auto using grows_same, grows_one.
Qed.

Lemma grows_rename_in (folder old new : string) :
  P [Rename folder old new] -> respects (grows P) (rename_in folder old new).
Proof.
  intros Hev w w' r. rewrite rename_in_run.
  destruct (lookup folder (root w)) as [[c|es]|];
    try (intros [= <- _]; apply grows_same).
  destruct (rename old new es) as [es'|e]; intros [= <- _];
    auto using grows_same, grows_one.
Qed.

End GrowsCalls.

End IoLaws.


(** ** Addressing one file *)

Section OneFile.
Import AcquisitionInfo Fs Assembler IoSpec.
Context {Source Device : Type}.

Lemma buffer_positive : (0 < DIGEST_READ_BUFFER_LENGTH)%nat.
Proof. apply Nat.ltb_lt. vm_compute. reflexivity. Qed.

Lemma firstn_empty {A} (n : nat) (xs : list A) :
  (0 < n)%nat -> firstn n xs = [] -> xs = [].
Proof. destruct n, xs; simpl; intros; (lia || congruence). Qed.

(** The loop of lines 178-181 ends, having fed the whole file to the hash
    object chunk by chunk. *)
Lemma digest_loop_run (folder file : string) (fuel : nat) :
  forall (file_handle : list byte) (digest : Sha256.hasher) (w : world),
    (length file_handle < fuel)%nat ->
    exists chunks,
      concat chunks = file_handle /\
      digest_loop fuel folder file file_handle digest w =
      ({| root := root w;
          log := log w ++ map (Read folder file) chunks ++ [Read folder file []] |},
       Ok {| Sha256.absorbed := Sha256.absorbed digest ++ file_handle |}).
Proof.
  pose proof buffer_positive as Hpos.
  induction fuel as [|fuel IH]; intros file_handle digest w Hfuel; [lia|].
  cbn [digest_loop]. rewrite io_bind_run. cbn [emit].
  destruct (firstn DIGEST_READ_BUFFER_LENGTH file_handle) as [|b chunk] eqn:Hchunk.
  - apply (firstn_empty _ _ Hpos) in Hchunk. subst file_handle.
    exists []. split; [reflexivity|].
    destruct digest as [fed]. simpl. now rewrite app_nil_r.
  - assert (Hrest : (length (skipn DIGEST_READ_BUFFER_LENGTH file_handle) < fuel)%nat).
    { rewrite length_skipn. destruct file_handle; [|simpl in *; lia].
      now rewrite firstn_nil in Hchunk. }
    destruct (IH (skipn DIGEST_READ_BUFFER_LENGTH file_handle)
                (Sha256.update digest (b :: chunk))
                {| root := root w; log := log w ++ [Read folder file (b :: chunk)] |}
                Hrest)
      as (chunks & Hconcat & Hrun).
    exists ((b :: chunk) :: chunks). split.
    + cbn [concat]. rewrite Hconcat, <- Hchunk. apply firstn_skipn.
    + rewrite Hrun. cbn [root log Sha256.update Sha256.absorbed map].
      f_equal.
      * f_equal. rewrite <- app_assoc. reflexivity.
      * do 2 f_equal. rewrite <- app_assoc, <- Hchunk. now rewrite firstn_skipn.
Qed.

(** What [address_file] does to a file that is there. *)
Lemma address_file_run (acq : acquisition Source Device) (folder file : string)
    (tag_range : TagRange) (w : world) (es : directory) (content : list byte) :
  lookup folder (root w) = Some (Dir es) ->
  lookup file es = Some (File content) ->
  exists chunks,
    concat chunks = content /\
    address_file acq folder tag_range file w =
    match rename file (file_name_of (file_id_of content) "csv") es with
    | Ok es' =>
        ({| root := store folder (Dir es') (root w);
            log := log w ++ digested folder file content chunks
                     ++ [Rename folder file (file_name_of (file_id_of content) "csv")] |},
         Ok (item_for acq folder tag_range (file_id_of content)))
    | Raise e =>
        ({| root := root w; log := log w ++ digested folder file content chunks |},
         Raise e)
    end.
Proof.
  intros Hfolder Hfile. unfold address_file.
  rewrite io_bind_run, open_rb_run, Hfolder, Hfile.
  destruct (digest_loop_run folder file (S (length content)) content Sha256.sha256
              {| root := root w; log := log w ++ [Open folder file content] |})
    as (chunks & Hconcat & Hrun); [lia|].
  exists chunks. split; [exact Hconcat|].
  rewrite io_bind_run, Hrun. cbn [root log Sha256.sha256 Sha256.absorbed app].
  rewrite io_bind_run. cbn [emit root log].
  change (Sha256.digest {| Sha256.absorbed := content |}) with (Sha256.hash content).
  fold (file_id_of content).
  destruct (encode_id_shape _ (hash_length content)) as (Hlen & Hpad & _).
  fold (file_id_of content) in Hlen, Hpad.
  rewrite io_bind_run, Hlen. cbn [Nat.eqb assert]. 
  change ((56 =? 56)%nat) with true. cbn [assert mret io_ret].
  rewrite io_bind_run, Hpad. cbn [assert mret io_ret].
  rewrite io_bind_run. cbn [emit root log].
  rewrite io_bind_run, rename_in_run. cbn [root log]. rewrite Hfolder.
  unfold digested.
  destruct (rename file (file_name_of (file_id_of content) "csv") es) as [es'|e].
  - unfold mret, io_ret, item_for. do 2 f_equal.
    repeat (rewrite <- app_assoc || cbn [app]). reflexivity.
  - do 2 f_equal. repeat (rewrite <- app_assoc || cbn [app]). reflexivity.
Qed.

(** Either the file cannot be opened and nothing happens, or the run is the
    one above. *)
Lemma address_file_cases (acq : acquisition Source Device) (folder file : string)
    (tag_range : TagRange) (w : world) :
  (exists e, address_file acq folder tag_range file w = (w, Raise e)) \/
  (exists es content,
      lookup folder (root w) = Some (Dir es) /\
      lookup file es = Some (File content)).
Proof.
  destruct (lookup folder (root w)) as [[c|es]|] eqn:Hfolder.
  - left. exists NotADirectoryError. unfold address_file.
    now rewrite io_bind_run, open_rb_run, Hfolder.
  - destruct (lookup file es) as [[content|es']|] eqn:Hfile.
    + right. eauto.
    + left. exists IsADirectoryError. unfold address_file.
      now rewrite io_bind_run, open_rb_run, Hfolder, Hfile.
    + left. exists FileNotFoundError. unfold address_file.
      now rewrite io_bind_run, open_rb_run, Hfolder, Hfile.
  - left. exists FileNotFoundError. unfold address_file.
    now rewrite io_bind_run, open_rb_run, Hfolder.
Qed.

(** A successful run, read backwards. *)
Lemma address_file_ok (acq : acquisition Source Device) (folder file : string)
    (tag_range : TagRange) (w w' : world) (item : DataItem Source Device) :
  address_file acq folder tag_range file w = (w', Ok item) ->
  exists es es' content chunks,
    lookup folder (root w) = Some (Dir es) /\
    lookup file es = Some (File content) /\
    concat chunks = content /\
    rename file (file_name_of (file_id_of content) "csv") es = Ok es' /\
    item = item_for acq folder tag_range (file_id_of content) /\
    root w' = store folder (Dir es') (root w) /\
    log w' = log w ++ digested folder file content chunks
               ++ [Rename folder file (file_name_of (file_id_of content) "csv")].
Proof.
  intros Hrun.
  destruct (address_file_cases acq folder file tag_range w)
    as [(e & He) | (es & content & Hfolder & Hfile)]; [congruence|].
  destruct (address_file_run acq folder file tag_range w es content Hfolder Hfile)
    as (chunks & Hconcat & Hrun').
  rewrite Hrun in Hrun'.
  destruct (rename file (file_name_of (file_id_of content) "csv") es) as [es'|e]
    eqn:Hrename; [|discriminate].
  injection Hrun' as -> ->.
  exists es, es', content, chunks. repeat split; auto.
Qed.

End OneFile.


(** ** What the log of a run looks like *)

Section Logs.
Import AcquisitionInfo Fs Assembler IoSpec.

Lemma no_rename_digested (folder file : string) (content : list byte)
    (chunks : list (list byte)) :
  no_rename (digested folder file content chunks).
Proof.
  unfold no_rename, digested. apply Forall_cons. split; [reflexivity|].
  apply Forall_app. split.
  - apply Forall_map. apply Forall_forall. intros chunk _ . reflexivity.
  - repeat (apply Forall_cons; split; [reflexivity|]). apply Forall_nil. exact I.
Qed.

Lemma no_write_digested (folder file : string) (content : list byte)
    (chunks : list (list byte)) :
  no_write (digested folder file content chunks).
Proof.
  unfold no_write, digested. apply Forall_cons. split; [reflexivity|].
  apply Forall_app. split.
  - apply Forall_map. apply Forall_forall. intros chunk _ . reflexivity.
  - repeat (apply Forall_cons; split; [reflexivity|]). apply Forall_nil. exact I.
Qed.

Lemma no_rename_has_none (t pre post : list event) (folder old new : string) :
  no_rename t -> t <> pre ++ Rename folder old new :: post.
Proof.
  intros Hquiet ->. apply Forall_app in Hquiet as [_ Hquiet].
  apply Forall_cons in Hquiet as [Hev _]. discriminate.
Qed.

Lemma digest_before_rename_quiet (t : list event) :
  no_rename t -> digest_before_rename t.
Proof.
  intros Hquiet pre post folder old new Heq.
  now apply no_rename_has_none in Heq.
Qed.

Lemma digest_before_rename_app (t1 t2 : list event) :
  digest_before_rename t1 -> digest_before_rename t2 ->
  digest_before_rename (t1 ++ t2).
Proof.
  intros H1 H2 pre post folder old new Heq.
  apply app_eq_app in Heq as [l [[Hl Hr]|[Hl Hr]]].
  - destruct l as [|ev l].
    + simpl in Hr. rewrite app_nil_r in Hl. subst pre.
      destruct (H2 [] post folder old new (eq_sym Hr))
        as (pre0 & content & chunks & Hpre & _).
      destruct pre0; discriminate.
    + injection Hr as <- ->. exact (H1 _ _ _ _ _ Hl).
  - destruct (H2 l post folder old new Hr)
      as (pre0 & content & chunks & -> & Hrest).
    exists (t1 ++ pre0), content, chunks. rewrite Hl, app_assoc. auto.
Qed.

Lemma digest_before_rename_block (folder file : string) (content : list byte)
    (chunks : list (list byte)) :
  concat chunks = content ->
  digest_before_rename
    (digested folder file content chunks
       ++ [Rename folder file (file_name_of (file_id_of content) "csv")]).
Proof.
  intros Hconcat pre post folder' old new Heq.
  pose proof (no_rename_digested folder file content chunks) as Hquiet.
  apply app_eq_app in Heq as [l [[Hl Hr]|[Hl Hr]]].
  - destruct l as [|ev l].
    + simpl in Hr. injection Hr as Hf Ho Hn Hp. subst folder' old new post.
      rewrite app_nil_r in Hl.
      exists [], content, chunks.
      split; [symmetry; exact Hl|]. split; [exact Hconcat|].
      split; [apply encode_id_shape, hash_length | reflexivity].
    + injection Hr as <- _. exfalso.
      exact (no_rename_has_none _ _ _ _ _ _ Hquiet Hl).
  - destruct l as [|ev l].
    + simpl in Hr. injection Hr as Hf Ho Hn Hp. subst folder' old new post.
      rewrite app_nil_r in Hl.
      exists [], content, chunks.
      split; [exact Hl|]. split; [exact Hconcat|].
      split; [apply encode_id_shape, hash_length | reflexivity].
    + injection Hr as _ Hr. destruct l; discriminate.
Qed.

End Logs.

(** *** Every step of the assembler extends the log *)

Section Pipeline.
Import AcquisitionInfo Fs Assembler IoSpec.
Context {Source Device : Type} (P : list event -> Prop).
Hypothesis P_nil : P [].
Hypothesis P_app : forall t1 t2, P t1 -> P t2 -> P (t1 ++ t2).
Hypothesis P_listdir : forall folder, P [Listdir folder].
Hypothesis P_digested :
  forall folder file content chunks, P (digested folder file content chunks).
Hypothesis P_block :
  forall folder file content chunks,
    concat chunks = content ->
    P (digested folder file content chunks
         ++ [Rename folder file (file_name_of (file_id_of content) "csv")]).

#[local] Instance pipeline_refl : Reflexive (grows P) := grows_refl P P_nil.
#[local] Instance pipeline_trans : Transitive (grows P) := grows_trans P P_app.

Lemma address_file_grows (acq : acquisition Source Device) (folder file : string)
    (tag_range : TagRange) :
  respects (grows P) (address_file acq folder tag_range file).
Proof.
  intros w w' r Hrun.
  destruct (address_file_cases acq folder file tag_range w)
    as [(e & He) | (es & content & Hfolder & Hfile)].
  - rewrite He in Hrun. injection Hrun as <- _. reflexivity.
  - destruct (address_file_run acq folder file tag_range w es content Hfolder Hfile)
      as (chunks & Hconcat & Hrun').
    rewrite Hrun in Hrun'.
    destruct (rename file (file_name_of (file_id_of content) "csv") es);
      injection Hrun' as -> _; eexists; (split; [reflexivity|]).
    + exact (P_block _ _ _ _ Hconcat).
    + apply P_digested.
Qed.

Lemma process_subfolder_grows (acq : acquisition Source Device)
    (tag_ranges : list TagRange) (subfolder : string) :
  respects (grows P) (process_subfolder acq tag_ranges subfolder).
Proof.
  unfold process_subfolder.
  apply respects_bind; [typeclasses eauto.. | now apply grows_listdir |].
  intros files.
  apply respects_bind; [typeclasses eauto.. | apply respects_assert; typeclasses eauto |].
  intros _.
  apply respects_bind; [typeclasses eauto.. | apply respects_assert; typeclasses eauto |].
  intros _.
  apply respects_for_each; [typeclasses eauto..|].
  intros pair. apply address_file_grows.
Qed.

Lemma build_dataset_grows (hsd : result (acquisition Source Device)) (ulid : string) :
  respects (grows P) (build_dataset hsd ulid).
Proof.
  unfold build_dataset.
  apply respects_bind; [typeclasses eauto.. | apply respects_lift; typeclasses eauto |].
  intros acq.
  apply respects_bind; [typeclasses eauto.. | now apply grows_listdir_root |].
  intros subfolders.
  apply respects_bind; [typeclasses eauto.. | |].
  { apply respects_for_each; [typeclasses eauto..|].
    intros name. apply respects_is_dir; typeclasses eauto. }
  intros are_dirs.
  apply respects_bind; [typeclasses eauto.. | apply respects_assert; typeclasses eauto |].
  intros _.
  apply respects_bind; [typeclasses eauto.. | apply respects_assert; typeclasses eauto |].
  intros _.
  apply respects_bind; [typeclasses eauto.. | apply respects_lift; typeclasses eauto |].
  intros tag_ranges.
  apply respects_bind; [typeclasses eauto.. | |].
  { apply respects_for_each; [typeclasses eauto..|].
    intros subfolder. apply process_subfolder_grows. }
  intros data_items. apply respects_ret; typeclasses eauto.
Qed.

Lemma assemble_metadata_grows (model_dump_json : Dataset Source Device -> list byte)
    (hsd : result (acquisition Source Device)) (ulid : string) :
  (forall name content, P [Write name content]) ->
  respects (grows P) (assemble_metadata model_dump_json hsd ulid).
Proof.
  intros P_write. unfold assemble_metadata.
  apply respects_bind; [typeclasses eauto.. | apply build_dataset_grows |].
  intros dataset w w' r. rewrite write_text_run.
  destruct (lookup "dataset-meta.json" (root w)) as [[c|es]|];
    intros [= <- _]; auto using grows_same, grows_one.
Qed.

End Pipeline.

Section RenameAfterDigest.
Import AcquisitionInfo Fs Assembler IoSpec.
Context {Source Device : Type}.

(** C5: in the log of any run of [assemble_metadata], successful or not, a
    rename of a file stands right after the events of that file being
    opened, read chunk by chunk to its end (the chunks add up to the bytes
    it held), closed, and its identifier passing the two assertions; the
    identifier has 56 characters and gives the new name. *)
Theorem rename_comes_after_digest_and_check
    (model_dump_json : Dataset Source Device -> list byte)
    (hsd : result (acquisition Source Device)) (ulid : string)
    (w w' : world) (r : result unit) :
  assemble_metadata model_dump_json hsd ulid w = (w', r) ->
  exists t, log w' = log w ++ t /\ digest_before_rename t.
Proof.
  apply (assemble_metadata_grows digest_before_rename).
  - apply digest_before_rename_quiet. constructor.
  - apply digest_before_rename_app.
  - intros folder. apply digest_before_rename_quiet.
    apply Forall_cons. split; [reflexivity | apply Forall_nil; exact I].
  - intros folder file content chunks. apply digest_before_rename_quiet.
    apply no_rename_digested.
  - apply digest_before_rename_block.
  - intros name content. apply digest_before_rename_quiet.
    apply Forall_cons. split; [reflexivity | apply Forall_nil; exact I].
Qed.

End RenameAfterDigest.

Lemma rename_comes_after_digest_and_check_witness :
  exists t,
    Fs.log (fst (Assembler.assemble_metadata IoSpec.no_dump
                (Ok IoSpec.walk_acquisition) "01ARZ3NDEKTSV4RRFFQ69G5FAV"
                IoSpec.walk_world))
    = Fs.log IoSpec.walk_world ++ t /\
    IoSpec.digest_before_rename t.
Proof.
  apply (rename_comes_after_digest_and_check IoSpec.no_dump
           (Ok IoSpec.walk_acquisition) "01ARZ3NDEKTSV4RRFFQ69G5FAV"
           IoSpec.walk_world _
           (snd (Assembler.assemble_metadata IoSpec.no_dump
                   (Ok IoSpec.walk_acquisition) "01ARZ3NDEKTSV4RRFFQ69G5FAV"
                   IoSpec.walk_world))).
  vm_compute. reflexivity.
Defined.


(** ** Renaming a file to the name it already has *)

Section Renaming.
Import AcquisitionInfo Fs Assembler IoSpec.
Context {Source Device : Type}.

Lemma lookup_remove_ne (n name : string) (d : directory) :
  n <> name -> lookup n (remove name d) = lookup n d.
Proof.
  intros Hne. induction d as [|[m x] d IH]; [reflexivity|].
  cbn [remove List.filter fst lookup].
  destruct (String.eqb m name) eqn:Hm; cbn [negb].
  - apply String.eqb_eq in Hm. subst m.
    destruct (String.eqb name n) eqn:Hn; [|exact IH].
    apply String.eqb_eq in Hn. congruence.
  - cbn [lookup]. destruct (String.eqb m n); [reflexivity | exact IH].
Qed.

Lemma lookup_remove_eq (name : string) (d : directory) :
  lookup name (remove name d) = None.
Proof.
  induction d as [|[m x] d IH]; [reflexivity|].
  cbn [remove List.filter fst].
  destruct (String.eqb m name) eqn:Hm; cbn [negb]; [exact IH|].
  cbn [lookup]. rewrite Hm. exact IH.
Qed.

Lemma lookup_relabel (old new : string) (d : directory) :
  lookup new d = None -> lookup new (relabel old new d) = lookup old d.
Proof.
  induction d as [|[m x] d IH]; [reflexivity|].
  cbn [lookup relabel map fst snd]. intros Hnew.
  destruct (String.eqb m new) eqn:Hmn; [discriminate|].
  destruct (String.eqb m old) eqn:Hmo; cbn [lookup].
  - now rewrite String.eqb_refl.
  - rewrite Hmn. apply IH, Hnew.
Qed.

(** [os.rename] moves the bytes, it does not touch them. *)
Lemma rename_keeps_bytes (old new : string) (es es' : directory)
    (content : list byte) :
  lookup old es = Some (File content) ->
  rename old new es = Ok es' ->
  lookup new es' = Some (File content).
Proof.
  intros Hold. unfold rename. rewrite Hold.
  destruct (String.eqb old new) eqn:Heq.
  - apply String.eqb_eq in Heq. subst new. intros [= <-]. exact Hold.
  - assert (old <> new) as Hne
      by (intros ->; rewrite String.eqb_refl in Heq; discriminate).
    destruct (lookup new es) as [[c|d]|] eqn:Hnew.
    + intros [= <-]. rewrite lookup_relabel by apply lookup_remove_eq.
      now rewrite lookup_remove_ne.
    + discriminate.
    + intros [= <-]. now rewrite lookup_relabel.
Qed.

(** A file that carries the short name of its own bytes stays where it is. *)
Lemma address_file_own_name (acq : acquisition Source Device)
    (folder file : string) (tag_range : TagRange) (w : world)
    (es : directory) (content : list byte) :
  lookup folder (root w) = Some (Dir es) ->
  lookup file es = Some (File content) ->
  file = file_name_of (file_id_of content) "csv" ->
  exists w',
    address_file acq folder tag_range file w
      = (w', Ok (item_for acq folder tag_range (file_id_of content))) /\
    root w' = root w.
Proof.
  intros Hfolder Hfile Hname.
  destruct (address_file_run acq folder file tag_range w es content Hfolder Hfile)
    as (chunks & _ & Hrun).
  rewrite <- Hname in Hrun. unfold rename in Hrun.
  rewrite Hfile, String.eqb_refl in Hrun.
  eexists. split; [exact Hrun|]. cbn [root]. now apply store_same.
Qed.

(** C8: once [address_file] has renamed a file, the file stands in its
    folder under the short name of its identifier, holding the bytes that
    were digested; addressing it again under that name succeeds, derives
    the same identifier and the same name, yields the same data item, and
    leaves the output directory as it was. *)
Theorem renaming_again_is_a_no_op (acq : acquisition Source Device)
    (folder file : string) (tag_range : TagRange) (w w1 : world)
    (item : DataItem Source Device) :
  address_file acq folder tag_range file w = (w1, Ok item) ->
  exists es content w2,
    lookup folder (root w1) = Some (Dir es) /\
    lookup (name_on_disk item) es = Some (File content) /\
    name_on_disk item = file_name_of (file_id_of content) "csv" /\
    address_file acq folder tag_range (name_on_disk item) w1 = (w2, Ok item) /\
    root w2 = root w1.
Proof.
  intros Hrun.
  apply address_file_ok in Hrun
    as (es & es' & content & chunks & Hfolder & Hfile & _ & Hrename & -> & Hroot & _).
  assert (lookup folder (root w1) = Some (Dir es')) as Hfolder'
    by (rewrite Hroot; apply lookup_store_eq).
  pose proof (rename_keeps_bytes _ _ _ _ _ Hfile Hrename) as Hfile'.
  destruct (address_file_own_name acq folder _ tag_range w1 es' content
              Hfolder' Hfile' eq_refl) as (w2 & Hagain & Hsame).
  exists es', content, w2. repeat split; assumption.
Qed.

End Renaming.

Section RenamingExample.
Import AcquisitionInfo Fs Assembler IoSpec.

Lemma renaming_again_is_a_no_op_witness :
  exists es content w2,
    lookup "walk"
      (root (fst (address_file walk_acquisition "walk"
                    (AcquisitionInfo.Build_TagRange "walk" 0 10) "seg_0.csv" walk_world)))
      = Some (Dir es) /\
    lookup (name_on_disk
              (item_for walk_acquisition "walk"
                 (AcquisitionInfo.Build_TagRange "walk" 0 10) (file_id_of segment_0))) es
      = Some (File content) /\
    name_on_disk
      (item_for walk_acquisition "walk"
         (AcquisitionInfo.Build_TagRange "walk" 0 10) (file_id_of segment_0))
      = file_name_of (file_id_of content) "csv" /\
    address_file walk_acquisition "walk" (AcquisitionInfo.Build_TagRange "walk" 0 10)
      (name_on_disk
         (item_for walk_acquisition "walk"
            (AcquisitionInfo.Build_TagRange "walk" 0 10) (file_id_of segment_0)))
      (fst (address_file walk_acquisition "walk"
              (AcquisitionInfo.Build_TagRange "walk" 0 10) "seg_0.csv" walk_world))
      = (w2, Ok (item_for walk_acquisition "walk"
                   (AcquisitionInfo.Build_TagRange "walk" 0 10) (file_id_of segment_0))) /\
    root w2
      = root (fst (address_file walk_acquisition "walk"
                     (AcquisitionInfo.Build_TagRange "walk" 0 10) "seg_0.csv" walk_world)).
Proof.
  apply (renaming_again_is_a_no_op walk_acquisition "walk" "seg_0.csv"
           (AcquisitionInfo.Build_TagRange "walk" 0 10) walk_world).
  vm_compute. reflexivity.
Defined.

End RenamingExample.


(** ** The two loops of [assemble_metadata], taken apart *)

Section Loops.
Import AcquisitionInfo TagSpec Fs Assembler IoSpec.
Context {Source Device : Type}.

#[local] Instance frame_reflexive (folder : string) : Reflexive (frame folder) :=
  frame_refl folder.
#[local] Instance frame_transitive (folder : string) : Transitive (frame folder) :=
  frame_trans folder.

Lemma lookup_in_names (name : string) (d : directory) (x : node) :
  lookup name d = Some x -> In name (names d).
Proof.
  induction d as [|[n y] d IH]; [discriminate|]. cbn [lookup names map fst].
  destruct (String.eqb n name) eqn:Heq.
  - apply String.eqb_eq in Heq. now left.
  - intros H. right. now apply IH.
Qed.

Lemma for_each_nil_ok {A B} (body : A -> io B) (w w' : world) (ys : list B) :
  for_each body [] w = (w', Ok ys) -> w' = w /\ ys = [].
Proof. intros [= <- <-]. now split. Qed.

Lemma for_each_cons_ok {A B} (body : A -> io B) (x : A) (xs : list A)
    (w w' : world) (ys : list B) :
  for_each body (x :: xs) w = (w', Ok ys) ->
  exists w1 y ys',
    body x w = (w1, Ok y) /\
    for_each body xs w1 = (w', Ok ys') /\
    ys = y :: ys'.
Proof.
  cbn [for_each]. intros Hrun.
  apply io_bind_ok in Hrun as (w1 & y & Hhead & Hrun).
  apply io_bind_ok in Hrun as (w2 & ys' & Htail & Hrun).
  injection Hrun as <- <-. eauto 6.
Qed.

Lemma for_each_is_dir_run (xs : list string) (w : world) :
  for_each is_dir xs w =
  (w, Ok (map (fun n => match lookup n (root w) with
                        | Some (Dir _) => true
                        | _ => false
                        end) xs)).
Proof.
  induction xs as [|x xs IH]; [reflexivity|].
  cbn [for_each map]. rewrite io_bind_run.
  change (is_dir x w)
    with (w, Ok (match lookup x (root w) with Some (Dir _) => true | _ => false end)).
  cbv beta iota. now rewrite io_bind_run, IH.
Qed.

(** Addressing a file changes its own subfolder only. *)
Lemma address_file_frame (acq : acquisition Source Device) (folder file : string)
    (tag_range : TagRange) :
  respects (frame folder) (address_file acq folder tag_range file).
Proof.
  intros w w' r Hrun.
  destruct (address_file_cases acq folder file tag_range w)
    as [(e & He) | (es & content & Hfolder & Hfile)].
  - rewrite He in Hrun. injection Hrun as <- _. reflexivity.
  - destruct (address_file_run acq folder file tag_range w es content Hfolder Hfile)
      as (chunks & _ & Hrun').
    rewrite Hrun in Hrun'.
    destruct (rename file (file_name_of (file_id_of content) "csv") es);
      injection Hrun' as -> _; intros n Hn; cbn [root];
      [now apply lookup_store_ne | reflexivity].
Qed.

Lemma process_subfolder_frame (acq : acquisition Source Device)
    (tag_ranges : list TagRange) (subfolder : string) :
  respects (frame subfolder) (process_subfolder acq tag_ranges subfolder).
Proof.
  unfold process_subfolder.
  apply respects_bind; [typeclasses eauto.. | apply frame_listdir |].
  intros files.
  apply respects_bind; [typeclasses eauto.. | apply respects_assert; typeclasses eauto |].
  intros _.
  apply respects_bind; [typeclasses eauto.. | apply respects_assert; typeclasses eauto |].
  intros _.
  apply respects_for_each; [typeclasses eauto..|].
  intros pair. apply address_file_frame.
Qed.

(** What a subfolder had to pass for its files to be addressed. *)
Lemma process_subfolder_ok (acq : acquisition Source Device)
    (tag_ranges : list TagRange) (subfolder : string) (w w' : world)
    (items : list (DataItem Source Device)) :
  process_subfolder acq tag_ranges subfolder w = (w', Ok items) ->
  exists es,
    lookup subfolder (root w) = Some (Dir es) /\
    forallb (fun f => Base32.endswith f ".csv") (names es) = true /\
    length (names es) = length (ranges_of subfolder tag_ranges) /\
    for_each (fun pair => address_file acq subfolder (fst pair) (snd pair))
      (combine (ranges_of subfolder tag_ranges) (names es))
      {| root := root w; log := log w ++ [Listdir (Some subfolder)] |}
    = (w', Ok items).
Proof.
  unfold process_subfolder. intros Hrun.
  apply io_bind_ok in Hrun as (w1 & files & Hlist & Hrun).
  rewrite listdir_run in Hlist.
  destruct (lookup subfolder (root w)) as [[c|es]|]; try discriminate.
  injection Hlist as <- <-.
  apply io_bind_ok in Hrun as (w2 & [] & Hcsv & Hrun).
  apply assert_ok in Hcsv as [Hcsv ->].
  apply io_bind_ok in Hrun as (w3 & [] & Hlen & Hrun).
  apply assert_ok in Hlen as [Hlen ->].
  apply Nat.eqb_eq in Hlen.
  exists es. repeat split; assumption.
Qed.

(** What the output directory had to pass for a dataset to be built. *)
Lemma build_dataset_ok (acq : acquisition Source Device) (ulid : string)
    (w w' : world) (ds : Dataset Source Device) :
  build_dataset (Ok acq) ulid w = (w', Ok ds) ->
  exists tag_ranges items,
    Forall (fun n => exists es, lookup n (root w) = Some (Dir es)) (names (root w)) /\
    list_to_set (names (root w)) =@{gset string} list_to_set (time_tag_labels acq) /\
    from_tag_events (tag_events acq) = Ok tag_ranges /\
    for_each (process_subfolder acq tag_ranges) (names (root w))
      {| root := root w; log := log w ++ [Listdir None] |}
    = (w', Ok items) /\
    ds = {| name := "my converted dataset";
            description := "My dataset description";
            dataset_id := Base32.lower ulid;
            classes := list_to_set (time_tag_labels acq);
            data := concat items;
            metadata := [] |}.
Proof.
  unfold build_dataset. intros Hrun.
  apply io_bind_ok in Hrun as (w0 & acq' & Hacq & Hrun).
  injection Hacq as <- <-.
  apply io_bind_ok in Hrun as (w1 & subfolders & Hlist & Hrun).
  injection Hlist as <- <-.
  apply io_bind_ok in Hrun as (w2 & are_dirs & Hdirs & Hrun).
  rewrite for_each_is_dir_run in Hdirs. injection Hdirs as <- <-.
  apply io_bind_ok in Hrun as (w3 & [] & Hall & Hrun).
  apply assert_ok in Hall as [Hall ->].
  apply io_bind_ok in Hrun as (w4 & [] & Hset & Hrun).
  apply assert_ok in Hset as [Hset ->].
  apply bool_decide_eq_true in Hset.
  apply io_bind_ok in Hrun as (w5 & tag_ranges & Hranges & Hrun).
  injection Hranges as <- Hranges.
  apply io_bind_ok in Hrun as (w6 & items & Hloop & Hrun).
  injection Hrun as <- <-.
  exists tag_ranges, items. repeat split; try assumption.
  apply List.Forall_forall. intros n Hn.
  rewrite forallb_forall in Hall.
  specialize (Hall _ (in_map _ _ _ Hn)). cbn [root] in Hall.
  destruct (lookup n (root w)) as [[c|es]|]; try discriminate. eauto.
Qed.

(** Every subfolder the outer loop got through had passed its two checks,
    against the files it held when the run began. *)
Lemma loop_checks (acq : acquisition Source Device) (tag_ranges : list TagRange)
    (subfolders : list string) :
  forall (w w' : world) (items : list (list (DataItem Source Device))),
    for_each (process_subfolder acq tag_ranges) subfolders w = (w', Ok items) ->
    forall (sub : string) (es : directory),
      In sub subfolders ->
      lookup sub (root w) = Some (Dir es) ->
      forallb (fun f => Base32.endswith f ".csv") (names es) = true /\
      length (names es) = length (ranges_of sub tag_ranges).
Proof.
  induction subfolders as [|s rest IH]; intros w w' items Hrun sub es Hin Hsub;
    [destruct Hin|].
  apply for_each_cons_ok in Hrun as (w1 & its & items' & Hhead & Htail & _).
  destruct (String.eqb s sub) eqn:Heq.
  - apply String.eqb_eq in Heq. subst s.
    apply process_subfolder_ok in Hhead as (es' & Hsub' & Hcsv & Hlen & _).
    rewrite Hsub in Hsub'. injection Hsub' as <-. now split.
  - assert (sub <> s) as Hne
      by (intros ->; rewrite String.eqb_refl in Heq; discriminate).
    destruct Hin as [->|Hin]; [congruence|].
    apply (IH w1 w' items' Htail sub es Hin).
    rewrite (process_subfolder_frame acq tag_ranges s w w1 _ Hhead sub Hne).
    exact Hsub.
Qed.

End Loops.


(** ** A mismatch stops the run before the manifest *)

Section Abort.
Import AcquisitionInfo TagSpec Fs Assembler IoSpec.
Context {Source Device : Type}.

Lemma no_write_one (ev : event) : is_write ev = false -> no_write [ev].
Proof. intros Hev. apply Forall_cons. split; [exact Hev | constructor]. Qed.

Lemma no_write_app (t1 t2 : list event) :
  no_write t1 -> no_write t2 -> no_write (t1 ++ t2).
Proof. intros H1 H2. apply Forall_app. now split. Qed.

(** Nothing before line 223 writes a file. *)
Lemma build_dataset_writes_nothing (hsd : result (acquisition Source Device))
    (ulid : string) :
  respects (grows no_write) (build_dataset hsd ulid).
Proof.
  apply (build_dataset_grows no_write).
  - constructor.
  - apply no_write_app.
  - intros folder. now apply no_write_one.
  - apply no_write_digested.
  - intros folder file content chunks _. apply no_write_app.
    + apply no_write_digested.
    + now apply no_write_one.
Qed.

(** X1: when a subfolder holds a number of files other than the number of
    ranges of its label, or the names in the output directory are not the
    set of labels of the time tags, or a file of a subfolder does not end
    in [.csv], [assemble_metadata] raises, and nothing was written. *)
Theorem mismatch_aborts_before_the_manifest
    (model_dump_json : Dataset Source Device -> list byte)
    (acq : acquisition Source Device) (ulid : string) (w : world) :
  (exists sub es tag_ranges,
      lookup sub (root w) = Some (Dir es) /\
      from_tag_events (tag_events acq) = Ok tag_ranges /\
      length (names es) <> length (ranges_of sub tag_ranges)) \/
  list_to_set (names (root w)) ≠@{gset string} list_to_set (time_tag_labels acq) \/
  (exists sub es f,
      lookup sub (root w) = Some (Dir es) /\
      In f (names es) /\
      Base32.endswith f ".csv" = false) ->
  exists w' e t,
    assemble_metadata model_dump_json (Ok acq) ulid w = (w', Raise e) /\
    log w' = log w ++ t /\
    no_write t.
Proof.
  intros Hbad. unfold assemble_metadata. rewrite io_bind_run.
  destruct (build_dataset (Ok acq) ulid w) as [w' [ds|e]] eqn:Hrun.
  - exfalso.
    apply build_dataset_ok
      in Hrun as (trs & items & _ & Hset & Hranges & Hloop & _).
    destruct Hbad
      as [(sub & es & trs' & Hsub & Hranges' & Hlen)
         |[Hne|(sub & es & f & Hsub & Hf & Hext)]].
    + rewrite Hranges in Hranges'. injection Hranges' as <-.
      destruct (loop_checks acq trs _ _ _ _ Hloop sub es
                  (lookup_in_names _ _ _ Hsub) Hsub) as [_ Hlen'].
      contradiction.
    + contradiction.
    + destruct (loop_checks acq trs _ _ _ _ Hloop sub es
                  (lookup_in_names _ _ _ Hsub) Hsub) as [Hcsv _].
      rewrite forallb_forall in Hcsv. rewrite (Hcsv f Hf) in Hext.
      discriminate.
  - destruct (build_dataset_writes_nothing (Ok acq) ulid w w' (Raise e) Hrun)
      as (t & Hlog & Hquiet).
    exists w', e, t. auto.
Qed.

End Abort.

Section AbortExample.
Import AcquisitionInfo TagSpec Fs Assembler IoSpec.

Lemma mismatch_aborts_before_the_manifest_witness :
  exists w' e t,
    assemble_metadata no_dump (Ok walk_acquisition) "01ARZ3NDEKTSV4RRFFQ69G5FAV"
      crowded_world = (w', Raise e) /\
    log w' = log crowded_world ++ t /\
    no_write t.
Proof.
  apply (mismatch_aborts_before_the_manifest no_dump walk_acquisition
           "01ARZ3NDEKTSV4RRFFQ69G5FAV" crowded_world).
  left.
  exists "walk",
    [ ("seg_0.csv", File segment_0); ("seg_1.csv", File segment_1);
      ("seg_2.csv", File segment_0) ],
    walk_ranges.
  split; [reflexivity|]. split; [vm_compute; reflexivity|].
  vm_compute. lia.
Defined.

End AbortExample.


(** ** Ranges and files are paired by position *)

Section Pairing.
Import AcquisitionInfo TagSpec Fs Assembler IoSpec.
Context {Source Device : Type}.

Lemma Forall2_map_in {A B C} (P : A -> B -> Prop) (Q : A -> C -> Prop)
    (f : B -> C) (xs : list A) (ys : list B) :
  Forall2 P xs ys ->
  (forall x y, In y ys -> P x y -> Q x (f y)) ->
  Forall2 Q xs (map f ys).
Proof.
  induction 1 as [|x y xs ys Hxy Hrest IH]; intros Hstep; cbn [map]; constructor.
  - apply Hstep; [now left | exact Hxy].
  - apply IH. intros x' y' Hin. apply Hstep. now right.
Qed.

Lemma inner_loop_ok (acq : acquisition Source Device) (folder : string)
    (pairs : list (TagRange * string)) :
  forall (w w' : world) (items : list (DataItem Source Device)),
    for_each (fun pair => address_file acq folder (fst pair) (snd pair)) pairs w
      = (w', Ok items) ->
    (exists t, log w' = log w ++ t) /\
    Forall2 (item_of_pair acq folder (log w')) items pairs.
Proof.
  induction pairs as [|[tag_range file] pairs IH]; intros w w' items Hrun.
  - apply for_each_nil_ok in Hrun as [-> ->]. split; [|constructor].
    exists []. now rewrite app_nil_r.
  - apply for_each_cons_ok in Hrun as (w1 & item & items' & Hhead & Htail & ->).
    cbn [fst snd] in Hhead.
    apply address_file_ok in Hhead
      as (es & es' & content & chunks & _ & _ & _ & _ & -> & _ & Hlog).
    destruct (IH w1 w' items' Htail) as [(t & Hlog') Hitems].
    split.
    + eexists. rewrite Hlog', Hlog, <- app_assoc. reflexivity.
    + constructor; [|exact Hitems].
      exists content. split; [|reflexivity].
      rewrite Hlog', Hlog. cbn [fst snd]. unfold digested.
      apply in_or_app. left. apply in_or_app. right. now left.
Qed.

Lemma item_of_pair_describes (acq : acquisition Source Device) (folder : string)
    (tag_ranges : list TagRange) (names : list string) (t t' : list event)
    (item : DataItem Source Device) (pair : TagRange * string) :
  In pair (combine (ranges_of folder tag_ranges) names) ->
  item_of_pair acq folder t item pair ->
  describes acq (t ++ t') item (folder, fst pair, snd pair).
Proof.
  destruct pair as [tag_range file].
  intros Hin (content & Hopen & ->).
  apply in_combine_l in Hin. unfold ranges_of in Hin.
  apply filter_In in Hin as [_ Hlabel]. apply String.eqb_eq in Hlabel.
  cbn. repeat split; try reflexivity; try assumption.
  exists content. split; [|reflexivity]. apply in_or_app. now left.
Qed.

Lemma describes_later (acq : acquisition Source Device) (t t' : list event)
    (item : DataItem Source Device) (pair : string * TagRange * string) :
  describes acq t item pair -> describes acq (t ++ t') item pair.
Proof.
  destruct pair as [[subfolder tag_range] file]. cbn.
  intros (H1 & H2 & H3 & H4 & (content & Hopen & Hid) & H5).
  repeat split; try tauto.
  exists content. split; [|exact Hid]. apply in_or_app. now left.
Qed.

Lemma outer_loop_ok (acq : acquisition Source Device) (tag_ranges : list TagRange)
    (d : directory) (subfolders : list string) :
  forall (w w' : world) (items : list (list (DataItem Source Device))),
    List.NoDup subfolders ->
    (forall s, In s subfolders -> lookup s (root w) = lookup s d) ->
    for_each (process_subfolder acq tag_ranges) subfolders w = (w', Ok items) ->
    (exists t, log w' = log w ++ t) /\
    Forall2 (describes acq (log w')) (concat items)
      (flat_map
         (fun subfolder =>
            match lookup subfolder d with
            | Some (Dir es) =>
                map (fun rf => (subfolder, fst rf, snd rf))
                  (combine (ranges_of subfolder tag_ranges) (names es))
            | _ => []
            end)
         subfolders).
Proof.
  induction subfolders as [|s rest IH]; intros w w' items Hnodup Hsame Hrun.
  - apply for_each_nil_ok in Hrun as [-> ->].
    split; [exists []; now rewrite app_nil_r | constructor].
  - apply for_each_cons_ok in Hrun as (w1 & its & items' & Hhead & Htail & ->).
    apply List.NoDup_cons_iff in Hnodup as [Hfresh Hnodup].
    pose proof (process_subfolder_frame acq tag_ranges s w w1 _ Hhead) as Hframe.
    apply process_subfolder_ok in Hhead as (es & Hs & _ & _ & Hinner).
    apply inner_loop_ok in Hinner as [(t1 & Hlog1) Hits].
    cbn [log] in Hlog1.
    destruct (IH w1 w' items' Hnodup) as [(t2 & Hlog2) Hrest]; [|exact Htail|].
    { intros s' Hin. rewrite Hframe; [apply Hsame; now right|].
      intros ->. contradiction. }
    split.
    + eexists. rewrite Hlog2, Hlog1, <- !app_assoc. reflexivity.
    + cbn [concat flat_map]. apply List.Forall2_app; [|exact Hrest].
      rewrite <- (Hsame s (or_introl eq_refl)), Hs, Hlog2.
      apply (Forall2_map_in (item_of_pair acq s (log w1))); [exact Hits|].
      intros item pair Hin Hpair.
      now apply (item_of_pair_describes acq s tag_ranges (names es)).
Qed.

(** X2: when the entries of the output directory have distinct names and
    a dataset is built, its data items are, subfolder after subfolder in
    listing order, one for the Nth range of the label and the Nth file of
    the subfolder's listing: class, start and end time are the range's, the
    identifier is that of the bytes read from the file, the path is the
    subfolder and the short name.  Every subfolder holds as many files as
    its label has ranges, and the classes are the labels. *)
Theorem data_items_pair_ranges_with_files (acq : acquisition Source Device) (ulid : string)
    (w w' : world) (ds : Dataset Source Device) :
  List.NoDup (names (root w)) ->
  build_dataset (Ok acq) ulid w = (w', Ok ds) ->
  exists tag_ranges,
    from_tag_events (tag_events acq) = Ok tag_ranges /\
    (forall sub es,
        lookup sub (root w) = Some (Dir es) ->
        length (names es) = length (ranges_of sub tag_ranges)) /\
    Forall2 (describes acq (log w')) (data ds) (pairs_of (root w) tag_ranges) /\
    classes ds = list_to_set (time_tag_labels acq).
Proof.
  intros Hnodup Hrun.
  apply build_dataset_ok in Hrun as (trs & items & _ & _ & Hranges & Hloop & ->).
  exists trs. split; [exact Hranges|]. split; [|split; [|reflexivity]].
  - intros sub es Hsub.
    apply (loop_checks acq trs _ _ _ _ Hloop sub es);
      [now apply lookup_in_names in Hsub | exact Hsub].
  - cbn [data].
    apply (outer_loop_ok acq trs (root w)) in Hloop as [_ Hitems];
      [exact Hitems | exact Hnodup | reflexivity].
Qed.

End Pairing.

Section PairingExample.
Import AcquisitionInfo TagSpec Fs Assembler IoSpec DirSpec.

Lemma data_items_pair_ranges_with_files_witness :
  exists tag_ranges,
    from_tag_events (tag_events walk_acquisition) = Ok tag_ranges /\
    (forall sub es,
        lookup sub (root walk_world) = Some (Dir es) ->
        length (names es) = length (ranges_of sub tag_ranges)) /\
    Forall2
      (describes walk_acquisition
         (log (fst (build_dataset (Ok walk_acquisition)
                      "01ARZ3NDEKTSV4RRFFQ69G5FAV" walk_world))))
      (data (walk_dataset "01ARZ3NDEKTSV4RRFFQ69G5FAV"))
      (pairs_of (root walk_world) tag_ranges) /\
    classes (walk_dataset "01ARZ3NDEKTSV4RRFFQ69G5FAV")
      = list_to_set (time_tag_labels walk_acquisition).
Proof.
  apply (data_items_pair_ranges_with_files walk_acquisition
           "01ARZ3NDEKTSV4RRFFQ69G5FAV" walk_world).
  - simpl. apply List.NoDup_cons; [simpl; tauto | apply List.NoDup_nil].
  - vm_compute. reflexivity.
Defined.

End PairingExample.


(** ** What a run does to the output directory *)

Section Directory.
Import AcquisitionInfo TagSpec Fs Assembler IoSpec DirSpec.

Lemma names_store_in (name : string) (x y : node) (d : directory) :
  lookup name d = Some y -> names (store name x d) = names d.
Proof.
  induction d as [|[n z] d IH]; [discriminate|].
  cbn [lookup store]. destruct (String.eqb n name) eqn:Heq.
  - apply String.eqb_eq in Heq. now subst n.
  - intros Hd. cbn [names map fst]. f_equal. now apply IH.
Qed.

Lemma names_store_out (name : string) (x : node) (d : directory) :
  lookup name d = None -> names (store name x d) = names d ++ [name].
Proof.
  induction d as [|[n z] d IH]; [reflexivity|].
  cbn [lookup store]. destruct (String.eqb n name); [discriminate|].
  intros Hd. cbn [names map fst app]. f_equal. now apply IH.
Qed.

Lemma relabel_length (old new : string) (d : directory) :
  length (relabel old new d) = length d.
Proof. unfold relabel. now rewrite length_map. Qed.

Lemma remove_length (name : string) (d : directory) :
  (length (remove name d) <= length d)%nat.
Proof. unfold remove. apply filter_length_le. Qed.



Lemma in_relabel (old new : string) (d : directory) (f : string) (x : node) :
  In (f, x) (relabel old new d) -> exists f0, In (f0, x) d.
Proof.
  unfold relabel. intros Hin. apply in_map_iff in Hin as ([f0 y] & Heq & Hin).
  cbn [fst snd] in Heq. destruct (String.eqb f0 old); injection Heq as <- <-; eauto.
Qed.

Lemma in_remove (name : string) (d : directory) (e : string * node) :
  In e (remove name d) -> In e d.
Proof. unfold remove. intros Hin. now apply filter_In in Hin. Qed.

(** Whatever [os.rename] returns holds entries that were there before. *)
Lemma in_rename (old new : string) (es es' : directory) (f : string) (x : node) :
  rename old new es = Ok es' -> In (f, x) es' -> exists f0, In (f0, x) es.
Proof.
  unfold rename. destruct (lookup old es) as [y|]; [|discriminate].
  destruct (String.eqb old new); [intros [= <-]; eauto|].
  destruct y as [c|sub], (lookup new es) as [[c'|[|e sub']]|];
    try discriminate; intros [= <-] Hin;
    apply in_relabel in Hin as (f0 & Hin); try apply in_remove in Hin; eauto.
Qed.

Lemma rename_length (old new : string) (es es' : directory) :
  rename old new es = Ok es' -> (length es' <= length es)%nat.
Proof.
  unfold rename. destruct (lookup old es) as [y|]; [|discriminate].
  destruct (String.eqb old new); [now intros [= <-]|].
  destruct y as [c|sub], (lookup new es) as [[c'|[|e sub']]|];
    try discriminate; intros [= <-]; rewrite relabel_length;
    auto using remove_length.
Qed.

End Directory.

(** *** Relations every step of the assembler keeps *)

Section Invariant.
Import AcquisitionInfo TagSpec Fs Assembler IoSpec DirSpec.
Context {Source Device : Type}.
Context (R : world -> world -> Prop) `{!Reflexive R, !Transitive R}.
Hypothesis R_log : forall w t, R w {| root := root w; log := t |}.
Hypothesis R_rename :
  forall w folder es old new es' content t,
    lookup folder (root w) = Some (Dir es) ->
    lookup old es = Some (File content) ->
    rename old new es = Ok es' ->
    R w {| root := store folder (Dir es') (root w); log := t |}.
Hypothesis R_write :
  forall w content t,
    (forall es, lookup "dataset-meta.json" (root w) <> Some (Dir es)) ->
    R w {| root := store "dataset-meta.json" (File content) (root w); log := t |}.

Lemma address_file_keeps (acq : acquisition Source Device) (folder file : string)
    (tag_range : TagRange) :
  respects R (address_file acq folder tag_range file).
Proof.
  intros w w' r Hrun.
  destruct (address_file_cases acq folder file tag_range w)
    as [(e & He) | (es & content & Hfolder & Hfile)].
  - rewrite He in Hrun. injection Hrun as <- _. reflexivity.
  - destruct (address_file_run acq folder file tag_range w es content Hfolder Hfile)
      as (chunks & _ & Hrun').
    rewrite Hrun in Hrun'.
    destruct (rename file (file_name_of (file_id_of content) "csv") es) eqn:Hrename;
      injection Hrun' as -> _; [|apply R_log].
    eapply R_rename; eassumption.
Qed.

Lemma listdir_keeps (folder : string) : respects R (listdir folder).
Proof.
  intros w w' r. rewrite listdir_run.
  destruct (lookup folder (root w)) as [[c|es]|]; intros [= <- _];
    (reflexivity || apply R_log).
Qed.

Lemma process_subfolder_keeps (acq : acquisition Source Device)
    (tag_ranges : list TagRange) (subfolder : string) :
  respects R (process_subfolder acq tag_ranges subfolder).
Proof.
  unfold process_subfolder.
  apply respects_bind; [typeclasses eauto.. | apply listdir_keeps |].
  intros files.
  apply respects_bind; [typeclasses eauto.. | apply respects_assert; typeclasses eauto |].
  intros _.
  apply respects_bind; [typeclasses eauto.. | apply respects_assert; typeclasses eauto |].
  intros _.
  apply respects_for_each; [typeclasses eauto..|].
  intros pair. apply address_file_keeps.
Qed.

Lemma build_dataset_keeps (hsd : result (acquisition Source Device)) (ulid : string) :
  respects R (build_dataset hsd ulid).
Proof.
  unfold build_dataset.
  apply respects_bind; [typeclasses eauto.. | apply respects_lift; typeclasses eauto |].
  intros acq.
  apply respects_bind; [typeclasses eauto.. | |].
  { intros w w' r [= <- _]. apply R_log. }
  intros subfolders.
  apply respects_bind; [typeclasses eauto.. | |].
  { apply respects_for_each; [typeclasses eauto..|].
    intros name. apply respects_is_dir; typeclasses eauto. }
  intros are_dirs.
  apply respects_bind; [typeclasses eauto.. | apply respects_assert; typeclasses eauto |].
  intros _.
  apply respects_bind; [typeclasses eauto.. | apply respects_assert; typeclasses eauto |].
  intros _.
  apply respects_bind; [typeclasses eauto.. | apply respects_lift; typeclasses eauto |].
  intros tag_ranges.
  apply respects_bind; [typeclasses eauto.. | |].
  { apply respects_for_each; [typeclasses eauto..|].
    intros subfolder. apply process_subfolder_keeps. }
  intros data_items. apply respects_ret; typeclasses eauto.
Qed.

Lemma assemble_metadata_keeps (model_dump_json : Dataset Source Device -> list byte)
    (hsd : result (acquisition Source Device)) (ulid : string) :
  respects R (assemble_metadata model_dump_json hsd ulid).
Proof.
  unfold assemble_metadata.
  apply respects_bind; [typeclasses eauto.. | apply build_dataset_keeps |].
  intros dataset w w' r. rewrite write_text_run.
  destruct (lookup "dataset-meta.json" (root w)) as [[c|es]|] eqn:Hlook;
    intros [= <- _]; try reflexivity; apply R_write; congruence.
Qed.

End Invariant.

(** *** The entries of the output directory, and the bytes of its files *)

Section Kept.
Import AcquisitionInfo TagSpec Fs Assembler IoSpec DirSpec.
Context {Source Device : Type}.

#[local] Instance keeps_names_refl : Reflexive keeps_names.
Proof. intros w. reflexivity. Qed.

#[local] Instance keeps_names_trans : Transitive keeps_names.
Proof. intros w1 w2 w3 H12 H23. unfold keeps_names in *. congruence. Qed.

#[local] Instance no_new_bytes_refl : Reflexive no_new_bytes.
Proof. intros w n es f c Hn Hf. eauto. Qed.

#[local] Instance no_new_bytes_trans : Transitive no_new_bytes.
Proof.
  intros w1 w2 w3 H12 H23 n es3 f c Hn Hf.
  destruct (H23 n es3 f c Hn Hf) as (es2 & f2 & Hn2 & Hf2). eauto.
Qed.

(** X4: whatever the outcome of [assemble_metadata], the output directory
    lists the same entries in the same order afterwards, the manifest
    [dataset-meta.json] apart: no subfolder is added, removed or renamed. *)
Theorem subfolders_are_neither_added_nor_removed
    (model_dump_json : Dataset Source Device -> list byte)
    (hsd : result (acquisition Source Device)) (ulid : string)
    (w w' : world) (r : result unit) :
  assemble_metadata model_dump_json hsd ulid w = (w', r) ->
  subfolder_names (root w') = subfolder_names (root w).
Proof.
  apply (assemble_metadata_keeps keeps_names).
  - intros w0 t. reflexivity.
  - intros w0 folder es old new es' content t Hfolder _ _.
    unfold keeps_names, subfolder_names. cbn [root].
    now rewrite (names_store_in folder (Dir es') (Dir es)).
  - intros w0 content t _. unfold keeps_names, subfolder_names. cbn [root].
    destruct (lookup "dataset-meta.json" (root w0)) as [x|] eqn:Hlook.
    + now rewrite (names_store_in _ _ x).
    + rewrite names_store_out by exact Hlook.
      rewrite List.filter_app. cbn. now rewrite app_nil_r.
Qed.

(** X5: whatever the outcome of [assemble_metadata], every file found in a
    subfolder afterwards holds the bytes of a file that was in the same
    subfolder before: the run moves files, it never edits or creates one
    inside a subfolder. *)
Theorem segment_bytes_are_never_altered
    (model_dump_json : Dataset Source Device -> list byte)
    (hsd : result (acquisition Source Device)) (ulid : string)
    (w w' : world) (r : result unit) :
  assemble_metadata model_dump_json hsd ulid w = (w', r) ->
  forall (subfolder : string) (es' : directory) (f : string) (content : list byte),
    lookup subfolder (root w') = Some (Dir es') ->
    In (f, File content) es' ->
    exists es f0,
      lookup subfolder (root w) = Some (Dir es) /\ In (f0, File content) es.
Proof.
  apply (assemble_metadata_keeps no_new_bytes).
  - intros w0 t n es f c Hn Hf. eauto.
  - intros w0 folder es old new es' content t Hfolder _ Hrename n es1 f c Hn Hf.
    cbn [root] in Hn. destruct (String.eqb n folder) eqn:Heq.
    + apply String.eqb_eq in Heq. subst n.
      rewrite lookup_store_eq in Hn. injection Hn as <-.
      destruct (in_rename _ _ _ _ _ _ Hrename Hf) as (f0 & Hf0). eauto.
    + rewrite lookup_store_ne in Hn; [eauto|].
      intros ->. rewrite String.eqb_refl in Heq. discriminate.
  - intros w0 content t _ n es1 f c Hn Hf. cbn [root] in Hn.
    destruct (String.eqb n "dataset-meta.json") eqn:Heq.
    + apply String.eqb_eq in Heq. subst n.
      rewrite lookup_store_eq in Hn. discriminate.
    + rewrite lookup_store_ne in Hn; [eauto|].
      intros ->. rewrite String.eqb_refl in Heq. discriminate.
Qed.

End Kept.

Section KeptExamples.
Import AcquisitionInfo TagSpec Fs Assembler IoSpec DirSpec.

Lemma subfolders_are_neither_added_nor_removed_witness :
  subfolder_names
    (root (fst (assemble_metadata no_dump (Ok walk_acquisition)
                  "01ARZ3NDEKTSV4RRFFQ69G5FAV" walk_world)))
  = subfolder_names (root walk_world).
Proof.
  apply (subfolders_are_neither_added_nor_removed no_dump (Ok walk_acquisition)
           "01ARZ3NDEKTSV4RRFFQ69G5FAV" walk_world _
           (snd (assemble_metadata no_dump (Ok walk_acquisition)
                   "01ARZ3NDEKTSV4RRFFQ69G5FAV" walk_world))).
  vm_compute. reflexivity.
Defined.

Lemma segment_bytes_are_never_altered_witness :
  exists es f0,
    lookup "walk" (root walk_world) = Some (Dir es) /\
    In (f0, File segment_0) es.
Proof.
  apply (segment_bytes_are_never_altered no_dump (Ok walk_acquisition)
           "01ARZ3NDEKTSV4RRFFQ69G5FAV" walk_world
           (fst (assemble_metadata no_dump (Ok walk_acquisition)
                   "01ARZ3NDEKTSV4RRFFQ69G5FAV" walk_world))
           (snd (assemble_metadata no_dump (Ok walk_acquisition)
                   "01ARZ3NDEKTSV4RRFFQ69G5FAV" walk_world)))
    with (subfolder := "walk")
         (es' := [ (file_name_of (file_id_of segment_0) "csv", File segment_0);
                   (file_name_of (file_id_of segment_1) "csv", File segment_1) ])
         (f := file_name_of (file_id_of segment_0) "csv").
  - vm_compute. reflexivity.
  - vm_compute. reflexivity.
  - now left.
Defined.

End KeptExamples.


(** ** The manifest, and the checks before the loop *)

Section Manifest.
Import AcquisitionInfo TagSpec Fs Assembler IoSpec DirSpec.
Context {Source Device : Type}.

(** X3: the manifest comes after the dataset.  When the dataset cannot be
    built (any error before line 223), [assemble_metadata] raises that
    error and has made no write.  When [assemble_metadata] returns, its one
    write was its last action: it put the serialized dataset that was
    built into [dataset-meta.json]. *)
Theorem the_manifest_is_written_once_the_dataset_is_built
    (model_dump_json : Dataset Source Device -> list byte)
    (hsd : result (acquisition Source Device)) (ulid : string) (w : world) :
  (forall (w1 : world) (e : error),
      build_dataset hsd ulid w = (w1, Raise e) ->
      assemble_metadata model_dump_json hsd ulid w = (w1, Raise e) /\
      exists t, log w1 = log w ++ t /\ no_write t) /\
  (forall (w' : world) (u : unit),
      assemble_metadata model_dump_json hsd ulid w = (w', Ok u) ->
      exists w1 ds t,
        build_dataset hsd ulid w = (w1, Ok ds) /\
        no_write t /\
        log w' = log w ++ t ++ [Write "dataset-meta.json" (model_dump_json ds)] /\
        lookup "dataset-meta.json" (root w') = Some (File (model_dump_json ds))).
Proof.
  split.
  - intros w1 e Hbuild. split.
    + unfold assemble_metadata. now rewrite io_bind_run, Hbuild.
    + exact (build_dataset_writes_nothing hsd ulid w w1 _ Hbuild).
  - intros w' u Hrun. unfold assemble_metadata in Hrun.
    apply io_bind_ok in Hrun as (w1 & ds & Hbuild & Hwrite).
    destruct (build_dataset_writes_nothing hsd ulid w w1 _ Hbuild)
      as (t & Hlog & Hquiet).
    exists w1, ds, t. split; [exact Hbuild|]. split; [exact Hquiet|].
    rewrite write_text_run in Hwrite.
    destruct (lookup "dataset-meta.json" (root w1)) as [[c|es]|];
      try discriminate Hwrite;
      injection Hwrite as <-; cbn [log root];
      rewrite Hlog, <- app_assoc, lookup_store_eq; auto.
Qed.


(** Lines 143-154, run forward: the listing, the two assertions, the
    reconstruction of the ranges. *)
Lemma build_dataset_head (acq : acquisition Source Device) (ulid : string)
    (w : world) :
  build_dataset (Ok acq) ulid w =
  let w0 := {| root := root w; log := log w ++ [Listdir None] |} in
  if forallb (fun b => b)
       (map (fun n => match lookup n (root w) with
                      | Some (Dir _) => true
                      | _ => false
                      end) (names (root w)))
  then
    if bool_decide (list_to_set (names (root w))
                    =@{gset string} list_to_set (time_tag_labels acq))
    then
      match from_tag_events (tag_events acq) with
      | Ok tag_ranges =>
          (data_items ← for_each (process_subfolder acq tag_ranges) (names (root w));
           mret {| name := "my converted dataset";
                   description := "My dataset description";
                   dataset_id := Base32.lower ulid;
                   classes := list_to_set (time_tag_labels acq);
                   data := concat data_items;
                   metadata := [] |}) w0
      | Raise e => (w0, Raise e)
      end
    else (w0, Raise (AssertionError 148))
  else (w0, Raise (AssertionError 147)).
Proof.
  unfold build_dataset. rewrite io_bind_run. cbn [lift].
  rewrite io_bind_run.
  change (listdir_root w)
    with ({| root := root w; log := log w ++ [Listdir None] |}, Ok (names (root w))).
  cbv beta iota zeta.
  rewrite io_bind_run, for_each_is_dir_run. cbn [root].
  rewrite io_bind_run.
  destruct (forallb _ _); [|reflexivity]. cbn [assert].
  change ((mret tt : io unit) {| root := root w; log := log w ++ [Listdir None] |})
    with ({| root := root w; log := log w ++ [Listdir None] |}, Ok tt).
  cbv beta iota. rewrite io_bind_run.
  destruct (bool_decide _); [|reflexivity]. cbn [assert].
  change ((mret tt : io unit) {| root := root w; log := log w ++ [Listdir None] |})
    with ({| root := root w; log := log w ++ [Listdir None] |}, Ok tt).
  cbv beta iota. rewrite io_bind_run. cbn [lift].
  destruct (from_tag_events (tag_events acq)); reflexivity.
Qed.

(** X7: when an entry of the output directory is not a directory, or the
    names of its entries are not the set of labels, or the ranges cannot be
    reconstructed, [assemble_metadata] raises right after listing the
    directory: no file has been opened or renamed, and the directory is as
    it was.  The error is the assertion of line 147, that of line 148, or
    the error of the reconstruction, in this order of precedence. *)
Theorem listing_checks_fail_before_any_file_is_opened
    (model_dump_json : Dataset Source Device -> list byte)
    (acq : acquisition Source Device) (ulid : string) (w : world) :
  (exists n, In n (names (root w)) /\
             forall es, lookup n (root w) <> Some (Dir es)) \/
  list_to_set (names (root w)) ≠@{gset string} list_to_set (time_tag_labels acq) \/
  (exists e, from_tag_events (tag_events acq) = Raise e) ->
  exists e,
    assemble_metadata model_dump_json (Ok acq) ulid w
      = ({| root := root w; log := log w ++ [Listdir None] |}, Raise e) /\
    (e = AssertionError 147 \/ e = AssertionError 148 \/
     from_tag_events (tag_events acq) = Raise e).
Proof.
  intros Hbad. unfold assemble_metadata.
  rewrite io_bind_run, build_dataset_head. cbv zeta.
  destruct (forallb _ _) eqn:Hdirs; [|eauto].
  destruct (bool_decide _) eqn:Hset; [|eauto].
  destruct (from_tag_events (tag_events acq)) as [trs|e] eqn:Hranges; [|eauto].
  exfalso. destruct Hbad as [(n & Hin & Hn)|[Hne|(e & He)]].
  - rewrite forallb_forall in Hdirs.
    specialize (Hdirs _ (in_map _ _ _ Hin)). cbv beta in Hdirs.
    destruct (lookup n (root w)) as [[c|es]|]; try discriminate.
    now apply (Hn es).
  - now apply bool_decide_eq_true in Hset.
  - discriminate.
Qed.

End Manifest.

Section ManifestExamples.
Import AcquisitionInfo TagSpec Fs Assembler IoSpec DirSpec.

Lemma the_manifest_is_written_once_the_dataset_is_built_witness :
  (assemble_metadata no_dump (Ok walk_acquisition) "01ARZ3NDEKTSV4RRFFQ69G5FAV"
     crowded_world
   = ({| root := crowded_root; log := [Listdir None; Listdir (Some "walk")] |},
      Raise (AssertionError 171)) /\
   exists t,
     [Listdir None; Listdir (Some "walk")] = log crowded_world ++ t /\ no_write t) /\
  (exists w1 ds t,
      build_dataset (Ok walk_acquisition) "01ARZ3NDEKTSV4RRFFQ69G5FAV" walk_world
        = (w1, Ok ds) /\
      no_write t /\
      log (fst (assemble_metadata no_dump (Ok walk_acquisition)
                  "01ARZ3NDEKTSV4RRFFQ69G5FAV" walk_world))
        = log walk_world ++ t ++ [Write "dataset-meta.json" (no_dump ds)] /\
      lookup "dataset-meta.json"
        (root (fst (assemble_metadata no_dump (Ok walk_acquisition)
                      "01ARZ3NDEKTSV4RRFFQ69G5FAV" walk_world)))
        = Some (File (no_dump ds))).
Proof.
  split.
  - apply (proj1 (the_manifest_is_written_once_the_dataset_is_built no_dump
                    (Ok walk_acquisition) "01ARZ3NDEKTSV4RRFFQ69G5FAV" crowded_world)
             {| root := crowded_root; log := [Listdir None; Listdir (Some "walk")] |}
             (AssertionError 171)).
    vm_compute. reflexivity.
  - apply (proj2 (the_manifest_is_written_once_the_dataset_is_built no_dump
                    (Ok walk_acquisition) "01ARZ3NDEKTSV4RRFFQ69G5FAV" walk_world)
             _ tt).
    vm_compute. reflexivity.
Defined.


Lemma listing_checks_fail_before_any_file_is_opened_witness :
  exists e,
    assemble_metadata no_dump (Ok walk_acquisition) "01ARZ3NDEKTSV4RRFFQ69G5FAV"
      stray_world
      = ({| root := root stray_world; log := log stray_world ++ [Listdir None] |},
         Raise e) /\
    (e = AssertionError 147 \/ e = AssertionError 148 \/
     from_tag_events (tag_events walk_acquisition) = Raise e).
Proof.
  apply (listing_checks_fail_before_any_file_is_opened no_dump walk_acquisition
           "01ARZ3NDEKTSV4RRFFQ69G5FAV" stray_world).
  left. exists "notes.txt". split.
  - simpl. auto.
  - intros es. vm_compute. discriminate.
Defined.

End ManifestExamples.


(** ** Short names, and the reads that lead to them *)

Section ShortNames.
Import Assembler IdSpec DirSpec.

Lemma b32tab_lower (i : Z) :
  in_lower_alphabet (Base32.lower_ascii (ascii_of_byte (Base32.b32tab i))) = true.
Proof.
  unfold Base32.b32tab. generalize (Z.to_nat i). intros n.
  do 32 (destruct n as [|n]; [reflexivity|]).
  reflexivity.
Qed.

Lemma lower_body (body : list byte) :
  Forall from_alphabet body ->
  all_chars in_lower_alphabet (Base32.lower (Base32.decode body)) = true.
Proof.
  induction 1 as [|b body [i ->] _ IH]; [reflexivity|].
  change (in_lower_alphabet
            (Base32.lower_ascii (ascii_of_byte (Base32.b32tab i)))
          && all_chars in_lower_alphabet (Base32.lower (Base32.decode body))
          = true).
  now rewrite b32tab_lower, IH.
Qed.

Lemma substring_prefix (a b : string) (n : nat) :
  (n <= String.length a)%nat ->
  substring 0 n (String.append a b) = substring 0 n a.
Proof.
  revert n. induction a as [|c a IH]; intros [|n] Hn; simpl in *;
    try reflexivity; try lia.
  - now destruct b.
  - f_equal. apply IH. lia.
Qed.

Lemma substring_length (a : string) (n : nat) :
  (n <= String.length a)%nat -> String.length (substring 0 n a) = n.
Proof.
  revert n. induction a as [|c a IH]; intros [|n] Hn; simpl in *;
    try reflexivity; try lia.
  f_equal. apply IH. lia.
Qed.

Lemma all_chars_substring (p : ascii -> bool) (a : string) (n : nat) :
  all_chars p a = true -> all_chars p (substring 0 n a) = true.
Proof.
  revert n. induction a as [|c a IH]; intros [|n]; simpl; try reflexivity.
  intros Hall. apply andb_prop in Hall as [Hc Ha]. now rewrite Hc, IH.
Qed.

(** X8: whatever bytes a file holds, the name it is given has twelve
    characters: eight from the lower-case base-32 alphabet (letters and the
    digits 2 to 7, so no separator and no padding character), then [.csv];
    it passes the extension check of line 170. *)
Theorem short_names_are_well_formed (content : list byte) :
  String.length (file_name_of (file_id_of content) "csv") = 12%nat /\
  Base32.endswith (file_name_of (file_id_of content) "csv") ".csv" = true /\
  all_chars in_lower_alphabet (Base32.take_str 8 (file_id_of content)) = true.
Proof.
  unfold file_name_of, file_id_of, encode_id, Base32.take_str.
  destruct (b32encode_32 _ (hash_length content)) as (body & -> & Hbody & Halpha).
  rewrite decode_app, lower_app.
  assert (String.length (Base32.lower (Base32.decode body)) = 52%nat) as Hlen
    by now rewrite lower_length, decode_length.
  rewrite substring_prefix by lia.
  change (String.append "." "csv") with ".csv".
  split; [|split].
  - rewrite append_length, substring_length by lia. reflexivity.
  - apply endswith_append.
  - apply all_chars_substring. now apply lower_body.
Qed.

End ShortNames.

Section Reads.
Import AcquisitionInfo Fs Assembler IoSpec DirSpec.
Context {Source Device : Type}.

Lemma chunks_enough (n : nat) (fuel1 : nat) :
  forall (fuel2 : nat) (content : list byte),
    (0 < n)%nat ->
    (length content <= fuel1)%nat -> (length content <= fuel2)%nat ->
    chunks fuel1 n content = chunks fuel2 n content.
Proof.
  induction fuel1 as [|fuel1 IH]; intros fuel2 [|b rest] Hn H1 H2;
    simpl in H1, H2; try lia.
  - now destruct fuel2.
  - now destruct fuel2.
  - destruct fuel2 as [|fuel2]; [lia|]. cbn [chunks]. f_equal.
    apply IH; [exact Hn | |]; rewrite length_skipn; simpl; lia.
Qed.

Lemma chunks_step (n : nat) (b : byte) (rest : list byte) :
  (0 < n)%nat ->
  chunked n (b :: rest)
  = firstn n (b :: rest) :: chunked n (skipn n (b :: rest)).
Proof.
  intros Hn. unfold chunked. cbn [length chunks]. f_equal.
  apply chunks_enough; [exact Hn | | lia].
  rewrite length_skipn. simpl. lia.
Qed.

Lemma chunked_concat (n : nat) (content : list byte) :
  (0 < n)%nat -> concat (chunked n content) = content.
Proof.
  intros Hn. remember (length content) as k eqn:Hk.
  revert content Hk. induction k as [k IH] using lt_wf_ind.
  intros [|b rest] Hk; [reflexivity|].
  rewrite chunks_step by exact Hn. cbn [concat].
  rewrite (IH (length (skipn n (b :: rest)))); [apply firstn_skipn | | reflexivity].
  rewrite length_skipn. simpl in *. lia.
Qed.

Lemma chunked_bounds (n : nat) (content : list byte) :
  (0 < n)%nat ->
  Forall (fun chunk => (0 < length chunk <= n)%nat) (chunked n content).
Proof.
  intros Hn. remember (length content) as k eqn:Hk.
  revert content Hk. induction k as [k IH] using lt_wf_ind.
  intros [|b rest] Hk; [constructor|].
  rewrite chunks_step by exact Hn. constructor.
  - rewrite length_firstn. simpl. lia.
  - apply (IH (length (skipn n (b :: rest)))); [|reflexivity].
    rewrite length_skipn. simpl in *. lia.
Qed.

Lemma chunked_count (n : nat) (content : list byte) :
  (0 < n)%nat ->
  length (chunked n content) = ((length content + (n - 1)) / n)%nat.
Proof.
  intros Hn. remember (length content) as k eqn:Hk.
  revert content Hk. induction k as [k IH] using lt_wf_ind.
  intros [|b rest] Hk.
  - subst k. cbn [length chunked chunks Nat.add].
    symmetry. apply Nat.div_small. lia.
  - rewrite chunks_step by exact Hn. cbn [length].
    rewrite (IH (length (skipn n (b :: rest))) ltac:(rewrite length_skipn; simpl in *; lia)
               _ eq_refl).
    rewrite length_skipn. simpl length in *. subst k.
    destruct (Nat.le_gt_cases n (S (length rest))) as [Hle|Hgt].
    + replace (S (length rest) + (n - 1))%nat
        with (S (length rest) - n + (n - 1) + 1 * n)%nat by lia.
      rewrite Nat.div_add by lia. lia.
    + replace (S (length rest) - n)%nat with 0%nat by lia.
      rewrite (Nat.div_small (0 + (n - 1)) n) by lia.
      apply (Nat.div_unique _ _ 1 (length rest)); lia.
Qed.

(** The loop of lines 178-181 reads the handle piece by piece. *)
Lemma digest_loop_chunks (folder file : string) (fuel : nat) :
  forall (file_handle : list byte) (digest : Sha256.hasher) (w : world),
    (length file_handle < fuel)%nat ->
    digest_loop fuel folder file file_handle digest w =
    ({| root := root w;
        log := log w
                 ++ map (Read folder file)
                      (chunked DIGEST_READ_BUFFER_LENGTH file_handle)
                 ++ [Read folder file []] |},
     Ok {| Sha256.absorbed := Sha256.absorbed digest ++ file_handle |}).
Proof.
  pose proof buffer_positive as Hpos.
  induction fuel as [|fuel IH]; intros file_handle digest w Hfuel; [lia|].
  cbn [digest_loop]. rewrite io_bind_run. cbn [emit].
  destruct file_handle as [|b rest].
  - rewrite firstn_nil. destruct digest as [fed]. cbn. now rewrite app_nil_r.
  - rewrite chunks_step by exact Hpos.
    destruct (firstn DIGEST_READ_BUFFER_LENGTH (b :: rest)) as [|b' chunk] eqn:Hchunk.
    + apply (firstn_empty _ _ Hpos) in Hchunk. discriminate.
    + rewrite IH by (rewrite length_skipn; simpl in *; lia).
      cbn [root log Sha256.update Sha256.absorbed map].
      f_equal.
      * f_equal. rewrite <- app_assoc. reflexivity.
      * do 2 f_equal. rewrite <- app_assoc, <- Hchunk. now rewrite firstn_skipn.
Qed.

(** X9: a file that can be opened is read in pieces of
    [DIGEST_READ_BUFFER_LENGTH] bytes, the last one shorter, then once more
    for the empty read that ends the loop, and closed; the pieces are not
    empty, they add up to the bytes of the file, and there are as many as
    the length divided by the buffer length, rounded up. *)
Theorem files_are_read_in_buffer_sized_chunks (acq : acquisition Source Device)
    (folder file : string) (tag_range : TagRange) (w : world)
    (es : directory) (content : list byte) :
  lookup folder (root w) = Some (Dir es) ->
  lookup file es = Some (File content) ->
  (exists t,
      log (fst (address_file acq folder tag_range file w))
      = log w
          ++ digested folder file content
               (chunked DIGEST_READ_BUFFER_LENGTH content)
          ++ t) /\
  concat (chunked DIGEST_READ_BUFFER_LENGTH content) = content /\
  Forall (fun chunk => (0 < length chunk <= DIGEST_READ_BUFFER_LENGTH)%nat)
    (chunked DIGEST_READ_BUFFER_LENGTH content) /\
  length (chunked DIGEST_READ_BUFFER_LENGTH content)
  = ((length content + (DIGEST_READ_BUFFER_LENGTH - 1))
     / DIGEST_READ_BUFFER_LENGTH)%nat.
Proof.
  intros Hfolder Hfile. pose proof buffer_positive as Hpos.
  split; [|auto using chunked_concat, chunked_bounds, chunked_count].
  unfold address_file.
  rewrite io_bind_run, open_rb_run, Hfolder, Hfile.
  rewrite io_bind_run, digest_loop_chunks by lia.
  cbn [root log Sha256.sha256 Sha256.absorbed app].
  rewrite io_bind_run. cbn [emit root log].
  change (Sha256.digest {| Sha256.absorbed := content |}) with (Sha256.hash content).
  fold (file_id_of content).
  destruct (encode_id_shape _ (hash_length content)) as (Hlen & Hpad & _).
  fold (file_id_of content) in Hlen, Hpad.
  rewrite io_bind_run, Hlen.
  change ((56 =? 56)%nat) with true. cbn [assert mret io_ret].
  rewrite io_bind_run, Hpad. cbn [assert mret io_ret].
  rewrite io_bind_run. cbn [emit root log].
  rewrite io_bind_run, rename_in_run. cbn [root log]. rewrite Hfolder.
  unfold digested.
  destruct (rename file (file_name_of (file_id_of content) "csv") es) as [es'|e];
    cbn [fst log]; eexists;
    repeat (rewrite <- app_assoc || cbn [app]); repeat f_equal.
Qed.

End Reads.

Section ReadsExample.
Import AcquisitionInfo Fs Assembler IoSpec DirSpec.

Lemma files_are_read_in_buffer_sized_chunks_witness :
  (exists t,
      log (fst (address_file walk_acquisition "walk" (Build_TagRange "walk" 0 10)
                  "seg_0.csv" walk_world))
      = log walk_world
          ++ digested "walk" "seg_0.csv" segment_0
               (chunked DIGEST_READ_BUFFER_LENGTH segment_0)
          ++ t) /\
  concat (chunked DIGEST_READ_BUFFER_LENGTH segment_0) = segment_0 /\
  Forall (fun chunk => (0 < length chunk <= DIGEST_READ_BUFFER_LENGTH)%nat)
    (chunked DIGEST_READ_BUFFER_LENGTH segment_0) /\
  length (chunked DIGEST_READ_BUFFER_LENGTH segment_0)
  = ((length segment_0 + (DIGEST_READ_BUFFER_LENGTH - 1))
     / DIGEST_READ_BUFFER_LENGTH)%nat.
Proof.
  apply (files_are_read_in_buffer_sized_chunks walk_acquisition "walk" "seg_0.csv"
           (Build_TagRange "walk" 0 10) walk_world
           [ ("seg_0.csv", File segment_0); ("seg_1.csv", File segment_1) ]
           segment_0); reflexivity.
Defined.

End ReadsExample.


(** ** More on the device configuration *)


Lemma dict_set_twice (k : string) (v : value) (d : dict) :
  dict_set k v (dict_set k v d) = dict_set k v d.
Proof.
  induction d as [|[k0 v0] d IH]; simpl.
  - now rewrite String.eqb_refl.
  - destruct (String.eqb k0 k) eqn:Heq; simpl.
    + now rewrite String.eqb_refl.
    + now rewrite Heq, IH.
Qed.



Section MoreDeviceConfig.
Import DeviceConfig DeviceSpec ConfigSpec.
Context `{Pydantic}.



Lemma validated_enable (d : dict) (c : Component) :
  Component_model_validate d = Ok c -> exists v, dict_get "enable" d = Some v.
Proof.
  unfold Component_model_validate.
  destruct (build_component d) as [c'|] eqn:Hb; [|discriminate].
  intros _. unfold build_component in Hb.
  do 3 (apply bind_Some in Hb as (? & _ & Hb)).
  apply bind_Some in Hb as (v_enable & Henable & _).
  unfold required in Henable.
  destruct (dict_get "enable" d) as [v|]; [eauto | discriminate].
Qed.


Lemma wanted_named (fd : bool) (key : string) (attrs : dict) :
  wanted fd (dict_set "name" (VStr key) attrs) = wanted fd attrs.
Proof.
  unfold wanted, enabled.
  now rewrite dict_mem_set_ne, dict_get_set_ne.
Qed.

Lemma selected_true (fd : bool) (item : dict) :
  wanted fd item = true -> selected fd item = Ok true.
Proof.
  unfold wanted, enabled, selected. intros Hw.
  apply andb_prop in Hw as [-> Hw].
  destruct fd; cbn [negb orb] in *; [|reflexivity].
  destruct (dict_get "enable" item); [now rewrite Hw | discriminate].
Qed.

(** X11: an entry that the comprehension selects and that does not validate
    as a [Component] is not skipped: wherever it stands in
    [component_data], [get_components] raises. *)
Theorem an_entry_that_fails_validation_makes_get_components_raise
    (self : Device) (filter_disabled : bool) (before after : list value)
    (pre post : list (string * value)) (key : string) (attrs : dict) (e : error) :
  component_data self =
    before ++ VDict (pre ++ (key, VDict attrs) :: post) :: after ->
  wanted filter_disabled attrs = true ->
  Component_model_validate (dict_set "name" (VStr key) attrs) = Raise e ->
  exists e', get_components self filter_disabled = Raise e'.
Proof.
  intros Hdata Hwanted Hinvalid. unfold get_components. rewrite Hdata.
  rewrite components_of_mappings_app, mappings_cons.
  assert (exists e',
             (items ← to_named_sequence (VDict (pre ++ (key, VDict attrs) :: post));
              components_of_items filter_disabled items) = Raise e')
    as (e' & He').
  { simpl. rewrite traverse_app. simpl.
    destruct (traverse _ pre) as [xs|e1]; simpl; [|eauto].
    destruct (traverse _ post) as [ys|e1]; simpl; [|eauto].
    rewrite components_of_items_app.
    destruct (components_of_items filter_disabled xs) as [cs|e1]; simpl; [|eauto].
    rewrite selected_true by now rewrite wanted_named.
    simpl. rewrite Hinvalid. simpl. eauto. }
  rewrite He'.
  destruct (components_of_mappings filter_disabled before) as [cs|e1]; simpl; eauto.
Qed.

Lemma components_of_items_superset (items : list dict) (all : list Component) :
  components_of_items false items = Ok all ->
  exists out, components_of_items true items = Ok out /\ sublist out all.
Proof.
  revert all. induction items as [|item items IH]; simpl; intros all Hall.
  - injection Hall as <-. exists []. split; [reflexivity | constructor].
  - unfold selected in *. destruct (dict_mem "odr" item); simpl in *;
      [|now apply IH].
    apply result_bind_ok in Hall as (c & Hc & Hall).
    apply result_bind_ok in Hall as (cs & Hcs & Hall).
    injection Hall as <-.
    destruct (IH _ Hcs) as (out & Hout & Hsub).
    destruct (validated_enable _ _ Hc) as (v & ->). simpl.
    destruct (truthy v).
    + rewrite Hc, Hout. simpl. exists (c :: out). split; [reflexivity|].
      now apply sublist_skip.
    + exists out. split; [exact Hout|]. now apply sublist_cons.
Qed.

(** X12: when the call that includes disabled components returns, so does
    the default call, and what it returns is a part of the other result, in
    the same order: filtering only leaves components out. *)
Theorem filtering_disabled_components_only_leaves_some_out
    (self : Device) (all : list Component) :
  get_components self false = Ok all ->
  exists out, get_components self true = Ok out /\ sublist out all.
Proof.
  unfold get_components. generalize (component_data self). intros mappings.
  revert all. induction mappings as [|m ms IH]; simpl; intros all Hall.
  - injection Hall as <-. exists []. split; [reflexivity | constructor].
  - apply result_bind_ok in Hall as (items & Hitems & Hall).
    apply result_bind_ok in Hall as (cs & Hcs & Hall).
    apply result_bind_ok in Hall as (cs' & Hcs' & Hall).
    injection Hall as <-. rewrite Hitems. simpl.
    destruct (components_of_items_superset _ _ Hcs) as (out & -> & Hsub).
    destruct (IH _ Hcs') as (out' & -> & Hsub'). simpl.
    exists (out ++ out'). split; [reflexivity|]. now apply sublist_app.
Qed.

Lemma validation_error (d : dict) (e : error) :
  Component_model_validate d = Raise e ->
  exists fields, e = ValidationError "Component" fields.
Proof.
  unfold Component_model_validate. destruct (build_component d); [discriminate|].
  generalize (List.filter (fun k => negb (component_field_ok d k)) component_fields).
  intros fields [= <-]. eauto.
Qed.

Lemma components_of_items_error (fd : bool) (items : list dict) (e : error) :
  components_of_items fd items = Raise e -> get_components_error fd e.
Proof.
  unfold get_components_error.
  induction items as [|item items IH]; [discriminate|].
  cbn [components_of_items].
  destruct (selected fd item) as [[|]|e1] eqn:Hsel; simpl.
  - destruct (Component_model_validate item) as [c|e1] eqn:Hc; simpl.
    + destruct (components_of_items fd items); simpl; [discriminate|].
      intros [= <-]. now apply IH.
    + intros [= <-]. apply validation_error in Hc. auto.
  - exact IH.
  - intros [= <-]. unfold selected in Hsel.
    destruct (dict_mem "odr" item); [|discriminate].
    destruct fd; [|discriminate]. cbn [negb] in Hsel.
    destruct (dict_get "enable" item); [discriminate|].
    injection Hsel as <-. auto.
Qed.

Lemma to_named_sequence_error (mapping : value) (e : error) :
  to_named_sequence mapping = Raise e -> e = AttributeError \/ e = TypeError.
Proof.
  destruct mapping as [| | | | |?|entries]; simpl; try (intros [= <-]; auto).
  induction entries as [|[key entry] entries IH]; simpl; [discriminate|].
  destruct entry as [| | | | |?|attrs]; simpl; try (intros [= <-]; auto).
  destruct (traverse _ entries); simpl; [discriminate|].
  intros [= <-]. now apply IH.
Qed.

(** X13: [get_components] lets four kinds of error through and no other:
    [AttributeError] for a mapping that is not a [dict], [TypeError] for an
    entry that is not one, the validation error of [Component], and, only
    with the default filtering, [KeyError] for a missing [enable]. *)
Theorem get_components_raises_four_kinds_of_error
    (self : Device) (filter_disabled : bool) (e : error) :
  get_components self filter_disabled = Raise e ->
  get_components_error filter_disabled e.
Proof.
  unfold get_components. generalize (component_data self). intros mappings.
  induction mappings as [|m ms IH]; simpl; [discriminate|].
  destruct (to_named_sequence m) as [items|e1] eqn:Hitems; simpl.
  - destruct (components_of_items filter_disabled items) as [cs|e1] eqn:Hcs; simpl.
    + destruct (components_of_mappings filter_disabled ms); simpl; [discriminate|].
      intros [= <-]. now apply IH.
    + intros [= <-]. now apply (components_of_items_error _ items).
  - intros [= <-]. unfold get_components_error.
    destruct (to_named_sequence_error _ _ Hitems); auto.
Qed.

Lemma name_mapping_named (key : string) (entry : value) :
  name_mapping key (named_in_place key entry) = name_mapping key entry.
Proof.
  destruct entry; simpl; try reflexivity. now rewrite dict_set_twice.
Qed.

Lemma to_named_sequence_named (mapping : value) :
  to_named_sequence (named_mapping mapping) = to_named_sequence mapping.
Proof.
  destruct mapping as [| | | | |?|entries]; simpl; try reflexivity.
  induction entries as [|[key entry] entries IH]; simpl; [reflexivity|].
  now rewrite name_mapping_named, IH.
Qed.

(** X14: line 34 writes the name into the entry itself; on component data
    whose entries already carry the names written by an earlier call,
    [get_components] returns, or raises, what it does on the data as it
    was. *)
Theorem names_written_in_place_change_no_later_call
    (self : Device) (filter_disabled : bool) :
  get_components
    (with_components self (map named_mapping (component_data self)))
    filter_disabled
  = get_components self filter_disabled.
Proof.
  unfold get_components, with_components. cbn [component_data].
  induction (component_data self) as [|m ms IH]; simpl; [reflexivity|].
  now rewrite to_named_sequence_named, IH.
Qed.

End MoreDeviceConfig.


Lemma an_entry_that_fails_validation_makes_get_components_raise_witness :
  exists e',
    DeviceConfig.get_components (H:=DeviceConfig.exact_types)
      ConfigSpec.scenario_incomplete true = Raise e'.
Proof.
  apply (an_entry_that_fails_validation_makes_get_components_raise
           (H:=DeviceConfig.exact_types) ConfigSpec.scenario_incomplete true
           [] [] [ ("accelerometer", VDict DeviceSpec.accelerometer) ] []
           "gyroscope" ConfigSpec.incomplete
           (ValidationError "Component"
              [ "samples_per_ts"; "dim"; "ioffset"; "measodr"; "usb_dps"; "sd_dps";
                "sensitivity"; "data_type"; "sensor_category"; "c_type";
                "stream_id"; "ep_id" ]));
    reflexivity.
Defined.

Lemma filtering_disabled_components_only_leaves_some_out_witness :
  exists out,
    DeviceConfig.get_components (H:=DeviceConfig.exact_types)
      ConfigSpec.scenario_disabled true = Ok out /\
    sublist out
      [ DeviceSpec.accelerometer_valid;
        DeviceSpec.with_extra
          {| DeviceConfig.name := "gyroscope"; DeviceConfig.odr := 104;
             DeviceConfig.fs := Some (Finite 16 0); DeviceConfig.enable := false;
             DeviceConfig.samples_per_ts := 1000; DeviceConfig.dim := 3;
             DeviceConfig.ioffset := Finite 0 0; DeviceConfig.measodr := Finite 104 0;
             DeviceConfig.usb_dps := 24; DeviceConfig.sd_dps := 2496;
             DeviceConfig.sensitivity := Finite 1 (-11);
             DeviceConfig.data_type := "int16"; DeviceConfig.sensor_category := 0;
             DeviceConfig.c_type := 0; DeviceConfig.stream_id := 1;
             DeviceConfig.ep_id := 0; DeviceConfig.extra := [] |}
          [ ("sensor_annotation", VStr "[EXTERN]") ] ].
Proof.
  apply (filtering_disabled_components_only_leaves_some_out
           (H:=DeviceConfig.exact_types) ConfigSpec.scenario_disabled).
  reflexivity.
Defined.

Lemma get_components_raises_four_kinds_of_error_witness :
  ConfigSpec.get_components_error true (KeyError "enable").
Proof.
  apply (get_components_raises_four_kinds_of_error (H:=DeviceConfig.exact_types)
           DeviceSpec.scenario_no_enable true).
  reflexivity.
Defined.


(** ** The command line *)

Section CommandLine.
Import Cli.
Context {S : Type} `{System S}.

Lemma sys_bind_run {A B} (m : sys A) (k : A -> sys B) (st : S * list step) :
  (m ≫= k) st =
  match m st with
  | (st', Done a) => k a st'
  | (st', Failed e) => (st', Failed e)
  end.
Proof. reflexivity. Qed.

Lemma perform_run {A} (op : S -> S * outcome A) (s : S) (t : list step) :
  perform op (s, t) = ((fst (op s), t), snd (op s)).
Proof. reflexivity. Qed.

Lemma note_run (ev : step) (s : S) (t : list step) :
  note ev (s, t) = ((s, t ++ [ev]), Done tt).
Proof. reflexivity. Qed.

Lemma ask_run (q : S -> bool) (s : S) (t : list step) :
  ask q (s, t) = ((s, t), Done (q s)).
Proof. reflexivity. Qed.

(** What the converter leaves in the list of steps. *)
Lemma dat_to_csv_run (temp_path_in temp_path_out : string)
    (s s' : S) (t t' : list step) (r : outcome unit) :
  dat_to_csv temp_path_in temp_path_out (s, t) = ((s', t'), r) ->
  (t' = t /\ exists e, r = Failed e) \/
  (exists returncode,
      t' = t ++ [Converted (converter_argv temp_path_in temp_path_out) returncode] /\
      ((returncode = 0 /\ r = Done tt) \/
       (returncode <> 0 /\ r = Failed (CalledProcessError returncode)))).
Proof.
  unfold dat_to_csv. rewrite sys_bind_run, perform_run.
  destruct (sp_run (converter_argv temp_path_in temp_path_out) s)
    as [s1 [returncode|e]]; cbn [fst snd].
  - rewrite sys_bind_run, note_run.
    destruct (returncode =? 0) eqn:Hcode; intros [= <- <- <-];
      right; exists returncode; (split; [reflexivity|]).
    + left. split; [now apply Z.eqb_eq | reflexivity].
    + right. split; [now apply Z.eqb_neq | reflexivity].
  - intros [= <- <- <-]. left. eauto.
Qed.

(** What the body of the [with] leaves in the list of steps. *)
Lemma convert_in_temporary_run (input_path output_path temp_dir_in temp_dir_out : string)
    (s s' : S) (t t' : list step) (r : outcome unit) :
  convert_in_temporary input_path output_path temp_dir_in temp_dir_out (s, t)
    = ((s', t'), r) ->
  exists inside,
    t' = t ++ inside /\
    body_steps input_path output_path (absolute temp_dir_in) (absolute temp_dir_out)
      inside r.
Proof.
  unfold convert_in_temporary. rewrite sys_bind_run, ask_run.
  rewrite sys_bind_run.
  destruct (path_exists (absolute temp_dir_in) s && path_is_dir (absolute temp_dir_in) s);
    cbn [check]; [|intros [= <- <- <-]; exists []; rewrite app_nil_r;
                   split; [reflexivity | constructor]].
  change ((mret tt : sys unit) (s, t)) with ((s, t), Done tt).
  cbv beta iota. rewrite sys_bind_run, ask_run. rewrite sys_bind_run.
  destruct (path_exists (absolute temp_dir_out) s && path_is_dir (absolute temp_dir_out) s);
    cbn [check]; [|intros [= <- <- <-]; exists []; rewrite app_nil_r;
                   split; [reflexivity | constructor]].
  change ((mret tt : sys unit) (s, t)) with ((s, t), Done tt).
  cbv beta iota. rewrite sys_bind_run, note_run.
  rewrite sys_bind_run, perform_run.
  destruct (copytree input_path (absolute temp_dir_in) s) as [s1 [[]|e]];
    cbn [fst snd]; [|intros [= <- <- <-]; eexists; split; [reflexivity | constructor]].
  rewrite sys_bind_run.
  destruct (dat_to_csv (absolute temp_dir_in) (absolute temp_dir_out)
              (s1, t ++ [CopyIn input_path (absolute temp_dir_in)]))
    as [[s2 t2] r2] eqn:Hconv.
  apply dat_to_csv_run in Hconv
    as [(-> & e & ->) | (returncode & -> & [(-> & ->) | (Hcode & ->)])].
  - intros [= <- <- <-]. eexists; split; [reflexivity | constructor].
  - rewrite sys_bind_run, perform_run.
    destruct (assemble_metadata (absolute temp_dir_in) (absolute temp_dir_out) s2)
      as [s3 [[]|e]]; cbn [fst snd].
    + rewrite sys_bind_run, note_run, sys_bind_run, note_run, perform_run.
      intros [= <- <- <-]. eexists. rewrite <- !app_assoc.
      split; [reflexivity | constructor].
    + intros [= <- <- <-]. eexists. rewrite <- !app_assoc.
      split; [reflexivity|]. constructor. congruence.
  - intros [= <- <- <-]. eexists. rewrite <- !app_assoc.
    split; [reflexivity|]. now constructor.
Qed.

Lemma with_temporary_directory_run {A} (body : string -> sys A)
    (s s' : S) (t t' : list step) (r : outcome A) :
  with_temporary_directory body (s, t) = ((s', t'), r) ->
  (t' = t /\ exists e, r = Failed e) \/
  (exists d s1 s2 t2 r0,
      body d (s1, t ++ [MadeTemporary d]) = ((s2, t2), r0) /\
      t' = t2 ++ [Cleaned d] /\
      (r = r0 \/ exists e, r = Failed e)).
Proof.
  unfold with_temporary_directory. rewrite sys_bind_run, perform_run.
  destruct (TemporaryDirectory s) as [s1 [d|e]]; cbn [fst snd].
  - rewrite sys_bind_run, note_run.
    change ((mret d : sys string) (s1, t ++ [MadeTemporary d]))
      with ((s1, t ++ [MadeTemporary d]), Done d).
    cbv beta iota.
    destruct (body d (s1, t ++ [MadeTemporary d])) as [[s2 t2] r0] eqn:Hbody.
    rewrite sys_bind_run, note_run, perform_run.
    destruct (cleanup d s2) as [s3 [[]|e]]; cbn [fst snd];
      intros [= <- <- <-]; right; exists d, s1, s2, t2, r0; eauto 6.
  - intros [= <- <- <-]. left. eauto.
Qed.

(** The steps of a run, whatever the machine does. *)
Lemma run_shape (input_dir : string) (output_dir : option string)
    (log_level : string) (s s' : S) (t : list step) (r : outcome unit) :
  run input_dir output_dir log_level (s, []) = ((s', t), r) ->
  run_steps (absolute input_dir) output_dir t r.
Proof.
  unfold run. rewrite sys_bind_run, note_run, sys_bind_run, perform_run.
  cbn [app].
  destruct (basicConfig (upper log_level) s) as [s0 [[]|e]]; cbn [fst snd];
    [|intros [= <- <- <-]; constructor].
  rewrite sys_bind_run, ask_run.
  destruct (path_exists (absolute input_dir) s0); cbn [negb];
    [|intros [= <- <- <-]; constructor].
  rewrite sys_bind_run, ask_run.
  destruct (path_is_dir (absolute input_dir) s0); cbn [negb];
    [|intros [= <- <- <-]; constructor].
  destruct output_dir as [output|]; [|intros [= <- <- <-]; constructor].
  rewrite sys_bind_run, ask_run, sys_bind_run.
  assert (forall k : unit -> sys unit,
             (forall st, st = (s0, [BasicConfig (upper log_level)]) ->
                         k tt st = ((s', t), r) ->
                         run_steps (absolute input_dir) (Some output) t r) ->
             match
               (if negb (path_exists (absolute output) s0)
                then
                  parent_exists ← ask (path_exists (parent (absolute output)));
                  if negb parent_exists
                  then throw (Exception
                                "Output dir does not exist and neither does the parent")
                  else mret tt
                else
                  output_is_dir ← ask (path_is_dir (absolute output));
                  if negb output_is_dir
                  then throw (Exception
                                (String.append
                                   "Output dir exists but is not a directory: "
                                   (absolute input_dir)))
                  else mret tt) (s0, [BasicConfig (upper log_level)])
             with
             | (st', Done a) => k a st'
             | (st', Failed e) => (st', Failed e)
             end = ((s', t), r) ->
             run_steps (absolute input_dir) (Some output) t r) as Hchecks.
  { intros k Hk.
    destruct (path_exists (absolute output) s0); cbn [negb];
      rewrite sys_bind_run, ask_run.
    - destruct (path_is_dir (absolute output) s0); cbn [negb].
      + now apply Hk.
      + intros [= <- <- <-]. constructor.
    - destruct (path_exists (parent (absolute output)) s0); cbn [negb].
      + now apply Hk.
      + intros [= <- <- <-]. constructor. }
  apply Hchecks. clear Hchecks. intros st -> Hrun.
  apply with_temporary_directory_run in Hrun
    as [(-> & e & ->) | (d1 & s1 & s2 & t2 & r1 & Hinner & -> & Hr)];
    [constructor|].
  apply with_temporary_directory_run in Hinner
    as [(-> & e & ->) | (d2 & s3 & s4 & t4 & r2 & Hbody & -> & Hr1)].
  - destruct Hr as [->|(e' & ->)]; constructor.
  - apply convert_in_temporary_run in Hbody as (inside & -> & Hinside).
    match goal with
    | |- run_steps _ _ ?steps _ =>
        replace steps
          with ([BasicConfig (upper log_level); MadeTemporary d1; MadeTemporary d2]
                  ++ inside ++ [Cleaned d2; Cleaned d1])
          by (cbn [app]; rewrite <- !app_assoc; reflexivity)
    end.
    eapply two_directories; [reflexivity | exact Hinside |].
    destruct Hr as [->|(e' & ->)]; [|eauto].
    destruct Hr1 as [->|(e' & ->)]; eauto.
Qed.

(** X15: in any run, the copy into the output directory (line 100) is
    made only once the input was copied to the first temporary directory,
    the converter exited with code 0 and [assemble_metadata] returned, on
    the same two temporary directories; nothing follows it but the
    clean-up of those directories. *)
Theorem the_output_directory_is_written_last
    (input_dir : string) (output_dir : option string) (log_level : string)
    (s s' : S) (t : list step) (r : outcome unit) (src dst : string) :
  run input_dir output_dir log_level (s, []) = ((s', t), r) ->
  In (CopyOut src dst) t ->
  exists output temp_path_in pre post,
    output_dir = Some output /\
    dst = absolute output /\
    t = pre ++ CopyOut src dst :: post /\
    In (CopyIn (absolute input_dir) temp_path_in) pre /\
    In (Converted (converter_argv temp_path_in src) 0) pre /\
    In (Assembled temp_path_in src) pre /\
    Forall (fun ev => exists d, ev = Cleaned d) post.
Proof.
  intros Hrun Hin. apply run_shape in Hrun.
  destruct Hrun as [level e | level d1 e | level output d1 d2 inside r0 r Hout Hbody Hr].
  - simpl in Hin. intuition discriminate.
  - simpl in Hin. intuition discriminate.
  - destruct Hbody; simpl in Hin;
      repeat (destruct Hin as [Hin|Hin]; try discriminate); try contradiction.
    injection Hin as <- <-.
    exists output, (absolute d1),
      [ BasicConfig level; MadeTemporary d1; MadeTemporary d2;
        CopyIn (absolute input_dir) (absolute d1);
        Converted (converter_argv (absolute d1) (absolute d2)) 0;
        Assembled (absolute d1) (absolute d2) ],
      [ Cleaned d2; Cleaned d1 ].
    repeat split; simpl; eauto 10.
Qed.

(** X16: for every temporary directory a run was handed, the clean-up of
    that directory is started later in the same run, however the run ends
    (also when the body of the [with] raised); whether the clean-up then
    succeeds is the machine's business and is not stated here. *)
Theorem the_clean_up_of_a_temporary_directory_is_always_started
    (input_dir : string) (output_dir : option string) (log_level : string)
    (s s' : S) (t : list step) (r : outcome unit) (d : string) :
  run input_dir output_dir log_level (s, []) = ((s', t), r) ->
  In (MadeTemporary d) t ->
  exists pre post, t = pre ++ MadeTemporary d :: post /\ In (Cleaned d) post.
Proof.
  intros Hrun Hin. apply run_shape in Hrun.
  destruct Hrun as [level e | level d1 e | level output d1 d2 inside r0 r Hout Hbody Hr].
  - simpl in Hin. intuition discriminate.
  - simpl in Hin. destruct Hin as [Hin|[Hin|[Hin|[]]]]; try discriminate.
    injection Hin as <-. exists [BasicConfig level], [Cleaned d1].
    split; [reflexivity | now left].
  - cbn [app] in Hin.
    destruct Hin as [Hin|[Hin|[Hin|Hin]]]; try discriminate.
    + injection Hin as <-.
      exists [BasicConfig level],
        (MadeTemporary d2 :: inside ++ [Cleaned d2; Cleaned d1]).
      split; [reflexivity|]. right. apply in_or_app. right. right. now left.
    + injection Hin as <-.
      exists [BasicConfig level; MadeTemporary d1],
        (inside ++ [Cleaned d2; Cleaned d1]).
      split; [reflexivity|]. apply in_or_app. right. now left.
    + exfalso. apply in_app_or in Hin as [Hin|Hin].
      * destruct Hbody; simpl in Hin; intuition discriminate.
      * simpl in Hin. intuition discriminate.
Qed.

(** X17: a converter that exits with a code other than zero ends the run
    with an error; [assemble_metadata] has not returned and nothing was
    copied to the output directory. *)
Theorem a_failed_conversion_stops_the_run
    (input_dir : string) (output_dir : option string) (log_level : string)
    (s s' : S) (t : list step) (r : outcome unit)
    (argv : list string) (returncode : Z) :
  run input_dir output_dir log_level (s, []) = ((s', t), r) ->
  In (Converted argv returncode) t ->
  returncode <> 0 ->
  (exists e, r = Failed e) /\
  (forall temp_in temp_out, ~ In (Assembled temp_in temp_out) t) /\
  (forall src dst, ~ In (CopyOut src dst) t).
Proof.
  intros Hrun Hin Hcode. apply run_shape in Hrun.
  destruct Hrun as [level e | level d1 e | level output d1 d2 inside r0 r Hout Hbody Hr].
  - simpl in Hin. intuition discriminate.
  - simpl in Hin. intuition discriminate.
  - destruct Hbody; simpl in Hin;
      repeat (destruct Hin as [Hin|Hin]; try discriminate); try contradiction.
    + injection Hin as <- <-. split; [|split].
      * destruct Hr as [->|Hr]; eauto.
      * intros a b Ha. simpl in Ha. intuition discriminate.
      * intros a b Ha. simpl in Ha. intuition discriminate.
    + injection Hin as _ <-. contradiction.
Qed.

(** X18: once logging is set up, [run] checks the two directories before
    it creates or copies anything, and raises on the first check that
    fails: a missing input, an input that is not a directory, no output
    option, an output whose parent is missing too, an output that is not a
    directory.  The message of the last case shows the input path. *)
Theorem directories_are_checked_before_any_work
    (input_dir : string) (output_dir : option string) (log_level : string)
    (s s0 : S) :
  basicConfig (upper log_level) s = (s0, Done tt) ->
  (path_exists (absolute input_dir) s0 = false ->
   run input_dir output_dir log_level (s, [])
   = ((s0, [BasicConfig (upper log_level)]),
      Failed (Exception (String.append "Input dir does not exist: "
                           (absolute input_dir))))) /\
  (path_exists (absolute input_dir) s0 = true ->
   path_is_dir (absolute input_dir) s0 = false ->
   run input_dir output_dir log_level (s, [])
   = ((s0, [BasicConfig (upper log_level)]),
      Failed (Exception (String.append "Input dir exists but is not a directory: "
                           (absolute input_dir))))) /\
  (path_exists (absolute input_dir) s0 = true ->
   path_is_dir (absolute input_dir) s0 = true ->
   (output_dir = None ->
    run input_dir output_dir log_level (s, [])
    = ((s0, [BasicConfig (upper log_level)]), Failed PathTypeError)) /\
   (forall output,
       output_dir = Some output ->
       path_exists (absolute output) s0 = false ->
       path_exists (parent (absolute output)) s0 = false ->
       run input_dir output_dir log_level (s, [])
       = ((s0, [BasicConfig (upper log_level)]),
          Failed (Exception
                    "Output dir does not exist and neither does the parent"))) /\
   (forall output,
       output_dir = Some output ->
       path_exists (absolute output) s0 = true ->
       path_is_dir (absolute output) s0 = false ->
       run input_dir output_dir log_level (s, [])
       = ((s0, [BasicConfig (upper log_level)]),
          Failed (Exception
                    (String.append "Output dir exists but is not a directory: "
                       (absolute input_dir)))))).
Proof.
  intros Hconfig.
  unfold run. rewrite sys_bind_run, note_run, sys_bind_run, perform_run, Hconfig.
  cbn [fst snd app]. rewrite sys_bind_run, ask_run.
  split; [now intros ->|].
  split; [intros ->; cbn [negb]; rewrite sys_bind_run, ask_run; now intros ->|].
  intros -> Hdir. cbn [negb]. rewrite sys_bind_run, ask_run, Hdir. cbn [negb].
  split; [now intros ->|].
  split; intros output -> Hexists Hother;
    rewrite sys_bind_run, ask_run, sys_bind_run, Hexists; cbn [negb];
    rewrite sys_bind_run, ask_run, Hother; reflexivity.
Qed.

End CommandLine.

Section CommandLineExamples.
Import Cli.

Lemma the_output_directory_is_written_last_witness :
  exists output temp_path_in pre post,
    Some "/data/out" = Some output /\
    "/data/out" = absolute (System := machine ["/data/in"; "/data/out"] 0) output /\
    snd (fst (run (H := machine ["/data/in"; "/data/out"] 0)
                "/data/in" (Some "/data/out") "info" (0%nat, [])))
      = pre ++ CopyOut "/tmp/1" "/data/out" :: post /\
    In (CopyIn (absolute (System := machine ["/data/in"; "/data/out"] 0) "/data/in")
          temp_path_in) pre /\
    In (Converted
          (converter_argv (H := machine ["/data/in"; "/data/out"] 0)
             temp_path_in "/tmp/1") 0) pre /\
    In (Assembled temp_path_in "/tmp/1") pre /\
    Forall (fun ev => exists d, ev = Cleaned d) post.
Proof.
  apply (the_output_directory_is_written_last
           (H := machine ["/data/in"; "/data/out"] 0)
           "/data/in" (Some "/data/out") "info" 0%nat
           (fst (fst (run (H := machine ["/data/in"; "/data/out"] 0)
                        "/data/in" (Some "/data/out") "info" (0%nat, []))))
           _
           (snd (run (H := machine ["/data/in"; "/data/out"] 0)
                   "/data/in" (Some "/data/out") "info" (0%nat, [])))).
  - vm_compute. reflexivity.
  - vm_compute. repeat (first [left; reflexivity | right]).
Defined.

Lemma the_clean_up_of_a_temporary_directory_is_always_started_witness :
  exists pre post,
    snd (fst (run (H := machine ["/data/in"; "/data/out"] 1)
                "/data/in" (Some "/data/out") "info" (0%nat, [])))
      = pre ++ MadeTemporary "/tmp/1" :: post /\
    In (Cleaned "/tmp/1") post.
Proof.
  apply (the_clean_up_of_a_temporary_directory_is_always_started
           (H := machine ["/data/in"; "/data/out"] 1)
           "/data/in" (Some "/data/out") "info" 0%nat
           (fst (fst (run (H := machine ["/data/in"; "/data/out"] 1)
                        "/data/in" (Some "/data/out") "info" (0%nat, []))))
           _
           (snd (run (H := machine ["/data/in"; "/data/out"] 1)
                   "/data/in" (Some "/data/out") "info" (0%nat, [])))).
  - vm_compute. reflexivity.
  - vm_compute. repeat (first [left; reflexivity | right]).
Defined.

Lemma a_failed_conversion_stops_the_run_witness :
  (exists e,
      snd (run (H := machine ["/data/in"; "/data/out"] 1)
             "/data/in" (Some "/data/out") "info" (0%nat, [])) = Failed e) /\
  (forall temp_in temp_out,
      ~ In (Assembled temp_in temp_out)
          (snd (fst (run (H := machine ["/data/in"; "/data/out"] 1)
                       "/data/in" (Some "/data/out") "info" (0%nat, []))))) /\
  (forall src dst,
      ~ In (CopyOut src dst)
          (snd (fst (run (H := machine ["/data/in"; "/data/out"] 1)
                       "/data/in" (Some "/data/out") "info" (0%nat, []))))).
Proof.
  apply (a_failed_conversion_stops_the_run
           (H := machine ["/data/in"; "/data/out"] 1)
           "/data/in" (Some "/data/out") "info" 0%nat
           (fst (fst (run (H := machine ["/data/in"; "/data/out"] 1)
                        "/data/in" (Some "/data/out") "info" (0%nat, []))))
           _ _
           (converter_argv (H := machine ["/data/in"; "/data/out"] 1)
              "/tmp/0" "/tmp/1")
           1).
  - vm_compute. reflexivity.
  - vm_compute. repeat (first [left; reflexivity | right]).
  - lia.
Defined.

Lemma directories_are_checked_before_any_work_witness :
  run (H := machine ["/data/in"; "/data/out"] 0)
    "/data/missing" (Some "/data/out") "info" (0%nat, [])
  = ((0%nat, [BasicConfig "INFO"]),
     Failed (Exception "Input dir does not exist: /data/missing")).
Proof.
  apply (proj1 (directories_are_checked_before_any_work
                  (H := machine ["/data/in"; "/data/out"] 0)
                  "/data/missing" (Some "/data/out") "info" 0%nat 0%nat eq_refl)).
  reflexivity.
Defined.

End CommandLineExamples.
